(** * AI Insights backend: orchestrator, broadcast hub and insight engine

    A shallow embedding of
      - [app/models/insight.py]            (the [Insight] value type),
      - [app/core/config.py]               (the processing settings),
      - [app/core/websocket_manager.py]    (the [ConnectionManager] hub),
      - [app/services/insight_service.py]  (the staged analysers and the
                                            run that drives them),
      - [app/services/file_service.py]     (reading a record and updating
                                            its status),
      - [app/api/endpoints/insights.py]    (the endpoint that shows the
                                            insights of a record),
    followed by the properties proved about them.

    Conventions.
      - A Python [float] that is known not to be NaN is the rational [Q] it
        denotes.  The literals the code compares with and the values pandas
        hands back are taken as given; where the code computes with floats
        (the progress percentage, the variability threshold and the fences
        of the outlier rule) every operation is rounded to binary64, to
        nearest with ties to even, by [binary64].  A result beyond the
        largest double, which Python keeps as an infinity, is kept as the
        number: it compares with every double as the infinity does.  The
        percentages that are only printed or compared with 10 (the
        coefficient of variation, the shares of the quality stage) are kept
        exact.
        A float that may be NaN (values handed back by pandas) is a
        [pyfloat].
      - A Python [int] that counts something is a [nat]; the configured
        [max_insights], an unconstrained [int], is a [Z].
      - A [WebSocket] object is identified by a [nat] (object identity).
      - [async]/[await] is read as sequential composition: the run is a
        single flow and the hub is only touched from that flow. *)

From Stdlib Require Import QArith Qabs Qminmax Qreduction Qpower Lqa.
From stdpp Require Import base list strings gmap pretty sorting.

Set Warnings "-clear-no-such-hyp".
Local Open Scope string_scope.
Local Open Scope list_scope.

(* ===================================================================== *)
(** * Numbers *)
(* ===================================================================== *)

(** [x < y] on floats that are not NaN. *)
Definition Qlt_bool (x y : Q) : bool := negb (Qle_bool y x).

(** A float as pandas returns it: NaN or a number. *)
Inductive pyfloat : Type :=
| NaN
| Fin (q : Q).

(** Python's [abs]. *)
Definition py_abs (v : pyfloat) : pyfloat :=
  match v with
  | NaN => NaN
  | Fin q => Fin (Qabs q)
  end.

(** [v > c]: every comparison with NaN is false. *)
Definition py_gt (v : pyfloat) (c : Q) : bool :=
  match v with
  | NaN => false
  | Fin q => Qlt_bool c q
  end.

(** Python's two-argument [min(a, b)]: [b] when [b < a], otherwise [a]. *)
Definition py_min (a b : Q) : Q := if Qlt_bool b a then b else a.

(** What a call gives: the value it returns, or the text of the exception
    it raises. *)
Inductive Result (A : Type) : Type :=
| Ok (a : A)
| Raise (e : string).
Arguments Ok {A} a.
Arguments Raise {A} e.

(** ** Binary64 arithmetic *)

(** The integer nearest to [n / d], for [d > 0], a tie going to the even
    one. *)
Definition round_half_even (n d : Z) : Z :=
  let f := (n / d)%Z in
  let r2 := (2 * (n mod d))%Z in
  if (r2 <? d)%Z then f
  else if (d <? r2)%Z then (f + 1)%Z
  else if Z.even f then f else (f + 1)%Z.

(** [floor (log2 (a / d))] for positive [a] and [d]. *)
Definition floor_log2 (a d : Z) : Z :=
  if (d <=? a)%Z then Z.log2 (a / d)
  else (- Z.log2_up ((d + a - 1) / a))%Z.

(** [m * 2 ^ u] *)
Definition scale2 (m u : Z) : Q :=
  if (0 <=? u)%Z then inject_Z (m * 2 ^ u) else Qmake m (Z.to_pos (2 ^ (- u))).

(** The double nearest to [q], ties to even: 53 significant bits, and no
    bit below [2 ^ -1074] (the subnormal numbers). *)
Definition binary64 (q : Q) : Q :=
  let q := Qred q in
  let n := Qnum q in
  let d := Zpos (Qden q) in
  if (n =? 0)%Z then 0 else
  let a := Z.abs n in
  let u := Z.max (floor_log2 a d - 52) (-1074) in
  let m := if (0 <=? u)%Z then round_half_even a (d * 2 ^ u)
           else round_half_even (a * 2 ^ (- u)) d in
  scale2 (Z.sgn n * m) u.

(** The largest double. *)
Definition max_binary64 : Q := inject_Z ((2 ^ 53 - 1) * 2 ^ 971).

(** [x + y], [x - y] and [x * y] on floats. *)
Definition float_add (x y : Q) : Q := binary64 (x + y).
Definition float_sub (x y : Q) : Q := binary64 (x - y).
Definition float_mul (x y : Q) : Q := binary64 (x * y).

(** Python's [l[:n]]: a negative bound counts from the end of the list. *)
Definition py_slice_to {A : Type} (l : list A) (n : Z) : list A :=
  if (0 <=? n)%Z then take (Z.to_nat n) l
  else take (length l - Z.to_nat (- n)) l.

(* ===================================================================== *)
(** * [app/models/insight.py] and [app/core/config.py] *)
(* ===================================================================== *)

Record Insight : Type := mkInsight {
  title : string;
  description : string;
  confidence : Q;
  category : string;
  affected_columns : list string;
  affected_rows : list nat
}.

(** The field constraint [ge=0.0, le=1.0] on [confidence]. *)
Definition valid_confidence (i : Insight) : Prop :=
  (0 <= confidence i)%Q /\ (confidence i <= 1)%Q.

Record Settings : Type := mkSettings {
  max_insights : Z;
  min_confidence_score : Q
}.

(** The defaults of [Settings]. *)
Definition default_settings : Settings :=
  {| max_insights := 5; min_confidence_score := 1 # 10 |}.

(* ===================================================================== *)
(** * Filter, sort and trim *)
(* ===================================================================== *)

Section Sort.
Context {A : Type} (key : A -> Q).

(** [list.sort(key=key, reverse=True)]: a stable sort into descending key
    order.  An element is placed in front of the first element whose key
    is not larger than its own, so it stays in front of the equal-keyed
    elements that followed it in the input. *)
Fixpoint insert_desc (x : A) (l : list A) : list A :=
  match l with
  | [] => [x]
  | y :: ys =>
      if Qlt_bool (key x) (key y) then y :: insert_desc x ys
      else x :: y :: ys
  end.

Fixpoint sort_desc (l : list A) : list A :=
  match l with
  | [] => []
  | x :: xs => insert_desc x (sort_desc xs)
  end.
End Sort.

(** [[i for i in insights if i.confidence >= settings.min_confidence_score]] *)
Definition filter_confident (st : Settings) (insights : list Insight) : list Insight :=
  List.filter (fun i => Qle_bool (min_confidence_score st) (confidence i)) insights.

(** Lines 123-126 of [generate_insights_with_progress]. *)
Definition select_insights (st : Settings) (insights : list Insight) : list Insight :=
  let filtered := filter_confident st insights in
  let filtered := sort_desc confidence filtered in
  py_slice_to filtered (max_insights st).

(* ===================================================================== *)
(** * The dataset, as the analysers observe it *)
(* ===================================================================== *)

(** A [pandas.DataFrame] is used only through the queries below; each field
    is the answer pandas gives to one of them. *)
Record DataFrame : Type := mkDataFrame {
  df_len : nat;                          (* len(df) *)
  df_columns : list string;              (* df.columns *)
  df_dtypes : string;                    (* df.dtypes.value_counts().to_dict(), printed *)
  df_numeric : list string;              (* df.select_dtypes(include=[np.number]).columns *)
  df_dropna : string -> list (nat * Q);  (* df[col].dropna(): (row index, value) *)
  df_mean : string -> Q;                 (* df[col].dropna().mean() *)
  df_std : string -> pyfloat;            (* df[col].dropna().std() *)
  df_quantile : string -> Q -> Q;        (* df[col].dropna().quantile(p) *)
  df_corr : nat -> nat -> pyfloat;       (* df[numeric].corr().iat[i, j] *)
  df_isnull_sum : list (string * nat);   (* df.isnull().sum().items() *)
  df_duplicated_sum : nat                (* df.duplicated().sum() *)
}.

(** The text that the format specifications [:.1f] and [:.2f] produce. *)
Record Render : Type := mkRender {
  fmt_1f : pyfloat -> string;
  fmt_2f : pyfloat -> string
}.

(** [(a / b) * 100] where it is only printed or compared with 10, kept
    exact; numpy answers a division by zero with nan (or an infinity, which
    is not represented). *)
Definition py_ratio_pct (a b : pyfloat) : pyfloat :=
  match a, b with
  | Fin x, Fin y => if Qeq_bool y 0 then NaN else Fin ((x / y) * 100)
  | _, _ => NaN
  end.

Definition of_nat (n : nat) : Q := inject_Z (Z.of_nat n).

(** [a / b] on two [int]s: the double nearest to the quotient;
    [ZeroDivisionError] for [b = 0], [OverflowError] when that double would
    lie beyond the largest one. *)
Definition py_int_truediv (a b : nat) : Result Q :=
  if (b =? 0)%nat then Raise "division by zero"
  else
    let q := binary64 (of_nat a / of_nat b) in
    if Qlt_bool max_binary64 q
    then Raise "integer division result too large for a float"
    else Ok q.

(** [enumerate(l, start=start)] *)
Fixpoint enumerate {A : Type} (start : nat) (l : list A) : list (nat * A) :=
  match l with
  | [] => []
  | x :: xs => (start, x) :: enumerate (S start) xs
  end.

(** The separator between the two ends of the outlier range, byte for byte
    as the source file has it. *)
Definition range_separator : string :=
  String.string_of_list_ascii
    (map Ascii.ascii_of_nat [195; 162; 226; 130; 172; 226; 128; 156]%nat).

(** The smallest and the largest value of a non-empty series. *)
Definition series_min (d : Q) (l : list Q) : Q :=
  foldr (fun x m => if Qlt_bool x m then x else m) d l.
Definition series_max (d : Q) (l : list Q) : Q :=
  foldr (fun x m => if Qlt_bool m x then x else m) d l.

(* ===================================================================== *)
(** * [app/services/insight_service.py]: the four analysers *)
(* ===================================================================== *)

Section Engine.
Variable rd : Render.

Definition _generate_overview_insights (df : DataFrame) : list Insight :=
  [ {| title := "Dataset Overview";
       description :=
         "Dataset contains " +:+ pretty (df_len df) +:+ " rows and "
         +:+ pretty (length (df_columns df)) +:+ " columns. "
         +:+ "Column types: " +:+ df_dtypes df;
       confidence := 95 # 100;
       category := "overview";
       affected_columns := df_columns df;
       affected_rows := [] |} ].

(** The body of the loop [for col in numeric] of the statistical stage:
    the insights appended for one column. *)
Definition statistical_for_column (df : DataFrame) (col : string) : list Insight :=
  let series := df_dropna df col in
  match series with
  | [] => []                                            (* series.empty: continue *)
  | first :: _ =>
      let mean := df_mean df col in
      let std := df_std df col in
      let variability :=
        if py_gt std (float_mul mean (1 # 2)) then
          [ {| title := "High Variability in " +:+ col;
               description :=
                 "Column '" +:+ col +:+ "' CV: "
                 +:+ fmt_1f rd (py_ratio_pct std (Fin mean)) +:+ "%. "
                 +:+ "Mean: " +:+ fmt_2f rd (Fin mean)
                 +:+ ", Std: " +:+ fmt_2f rd std;
               confidence := 8 # 10;
               category := "statistical";
               affected_columns := [col];
               affected_rows := [] |} ]
        else [] in
      let q1 := df_quantile df col (25 # 100) in
      let q3 := df_quantile df col (75 # 100) in
      let iqr := float_sub q3 q1 in
      let outliers :=
        List.filter
          (fun iv => Qlt_bool (snd iv) (float_sub q1 (float_mul (15 # 10) iqr))
                     || Qlt_bool (float_add q3 (float_mul (15 # 10) iqr)) (snd iv))
          series in
      let anomaly :=
        match outliers with
        | [] => []
        | o :: _ =>
            [ {| title := "Outliers Detected in " +:+ col;
                 description :=
                   "Found " +:+ pretty (length outliers)
                   +:+ " potential outliers in '" +:+ col +:+ "'. "
                   +:+ "Range " +:+ fmt_2f rd (Fin (series_min (snd o) (map snd outliers)))
                   +:+ range_separator +:+ fmt_2f rd (Fin (series_max (snd o) (map snd outliers)));
                 confidence := 75 # 100;
                 category := "anomaly";
                 affected_columns := [col];
                 affected_rows := take 10 (map fst outliers) |} ]
        end in
      variability ++ anomaly
  end.

Definition _generate_statistical_insights (df : DataFrame) : list Insight :=
  flat_map (statistical_for_column df) (df_numeric df).

(** The body of the inner loop of the pattern stage, for the pair of
    columns at positions [i < j]. *)
Definition pattern_for_pair (df : DataFrame)
    (ic1 jc2 : nat * string) : list Insight :=
  let val := df_corr df (fst ic1) (fst jc2) in
  match py_abs val with
  | NaN => []                                            (* abs(nan) > 0.7 is False *)
  | Fin a =>
      if Qlt_bool (7 # 10) a then
        let rel := if py_gt val 0 then "Positive" else "Negative" in
        [ {| title := "Strong " +:+ rel +:+ " Correlation";
             description :=
               rel +:+ " correlation (" +:+ fmt_2f rd val +:+ ") between '"
               +:+ snd ic1 +:+ "' and '" +:+ snd jc2 +:+ "'";
             confidence := py_min (9 # 10) a;
             category := "pattern";
             affected_columns := [snd ic1; snd jc2];
             affected_rows := [] |} ]
      else []
  end.

Definition _generate_pattern_insights (df : DataFrame) : list Insight :=
  let numeric := df_numeric df in
  if (1 <? length numeric)%nat then
    flat_map
      (fun ic1 =>
         flat_map (pattern_for_pair df ic1)
                  (enumerate (fst ic1 + 1) (drop (fst ic1 + 1) numeric)))
      (enumerate 0 numeric)
  else [].

(** The body of the loop [for col, cnt in missing.items()].  [cnt] and
    [total] are [int]s, so [cnt / total] raises [ZeroDivisionError] for a
    frame without rows, before anything is looked at. *)
Definition quality_for_column (total : nat) (cc : string * nat)
    : Result (list Insight) :=
  let col := fst cc in
  let cnt := snd cc in
  if (total =? 0)%nat then Raise "division by zero" else
  let pct := py_ratio_pct (Fin (of_nat cnt)) (Fin (of_nat total)) in
  Ok (if (0 <? cnt)%nat && py_gt pct 10 then
        [ {| title := "Missing Data in " +:+ col;
             description :=
               "Column '" +:+ col +:+ "' has " +:+ pretty cnt
               +:+ " missing values (" +:+ fmt_1f rd pct +:+ "% of total)";
             confidence := 9 # 10;
             category := "data_quality";
             affected_columns := [col];
             affected_rows := [] |} ]
      else []).

(** The loop itself: it stops at the first column whose body raises. *)
Fixpoint quality_columns (total : nat) (missing : list (string * nat))
    : Result (list Insight) :=
  match missing with
  | [] => Ok []
  | cc :: rest =>
      match quality_for_column total cc with
      | Raise e => Raise e
      | Ok found =>
          match quality_columns total rest with
          | Raise e => Raise e
          | Ok more => Ok (found ++ more)
          end
      end
  end.

(** [dupes] is a numpy integer: dividing it by zero gives nan or an
    infinity, not an exception. *)
Definition _generate_quality_insights (df : DataFrame) : Result (list Insight) :=
  let total := df_len df in
  match quality_columns total (df_isnull_sum df) with
  | Raise e => Raise e
  | Ok insights =>
      let dupes := df_duplicated_sum df in
      if (0 <? dupes)%nat then
        let pct := py_ratio_pct (Fin (of_nat dupes)) (Fin (of_nat total)) in
        Ok (insights ++
            [ {| title := "Duplicate Rows Detected";
                 description :=
                   "Found " +:+ pretty dupes +:+ " duplicate rows ("
                   +:+ fmt_1f rd pct +:+ "% of total)";
                 confidence := 95 # 100;
                 category := "data_quality";
                 affected_columns := df_columns df;
                 affected_rows := [] |} ])
      else Ok insights
  end.
End Engine.

(* ===================================================================== *)
(** * The world the hub and the run act on *)
(* ===================================================================== *)

(** A row of the table [files] (app/core/database.py).  The columns
    [file_size], [upload_time] and [preview_data] are never read or written
    by the code below and are left out.  [insights = None] is SQL NULL. *)
Record FileRecord : Type := mkFileRecord {
  id : string;
  filename : string;
  filepath : string;
  insights : option (list Insight);
  processing_status : string
}.

(** The payloads built by the hub, one constructor per value of the key
    ["type"].  The key ["timestamp"] (wall-clock time) is not represented. *)
Inductive Message : Type :=
| connection_established (file_id : string) (message : string)
| status_update (file_id status message : string) (progress : Q)
| insight_progress (file_id current_step : string)
    (total_steps current_step_num : nat) (progress : Q)
    (insights_found : nat) (message : string)
| insights_complete (file_id status : string) (insights_count : nat)
    (processing_time : Q) (progress : Q) (message : string).

(** What an observer standing next to the process sees, in order: the calls
    of [broadcast_to_file] and the outcome of every [db.commit()]. *)
Inductive Effect : Type :=
| EBroadcast (file_id : string) (m : Message)
| ECommit (row : FileRecord)
| ECommitFailed (e : string).

Record World : Type := mkWorld {
  active_connections : gmap string (gset nat);  (* manager.active_connections *)
  closed_sockets : gset nat;          (* sockets on which send_text raises *)
  refused_sockets : gset nat;         (* sockets on which accept raises *)
  delivered : list (nat * Message);   (* every send_text that succeeded, oldest first *)
  db_rows : gmap string FileRecord;   (* the committed rows of the table files *)
  session : option FileRecord;        (* the record loaded in the open session *)
  commit_faults : list (option string);
      (* outcome of the coming commits that reach the database: Some e raises e *)
  trace : list Effect;                (* oldest first *)
  needs_rollback : option string
      (* Some e: a commit of the open session raised e and the session has
         not been rolled back since *)
}.

Definition set_active_connections (f : gmap string (gset nat) -> gmap string (gset nat))
    (w : World) : World :=
  mkWorld (f (active_connections w)) (closed_sockets w) (refused_sockets w)
          (delivered w) (db_rows w) (session w) (commit_faults w) (trace w)
          (needs_rollback w).

Definition set_delivered (f : list (nat * Message) -> list (nat * Message))
    (w : World) : World :=
  mkWorld (active_connections w) (closed_sockets w) (refused_sockets w)
          (f (delivered w)) (db_rows w) (session w) (commit_faults w) (trace w)
          (needs_rollback w).

Definition set_db_rows (f : gmap string FileRecord -> gmap string FileRecord)
    (w : World) : World :=
  mkWorld (active_connections w) (closed_sockets w) (refused_sockets w)
          (delivered w) (f (db_rows w)) (session w) (commit_faults w) (trace w)
          (needs_rollback w).

Definition set_session (f : option FileRecord -> option FileRecord)
    (w : World) : World :=
  mkWorld (active_connections w) (closed_sockets w) (refused_sockets w)
          (delivered w) (db_rows w) (f (session w)) (commit_faults w) (trace w)
          (needs_rollback w).

Definition set_commit_faults (f : list (option string) -> list (option string))
    (w : World) : World :=
  mkWorld (active_connections w) (closed_sockets w) (refused_sockets w)
          (delivered w) (db_rows w) (session w) (f (commit_faults w)) (trace w)
          (needs_rollback w).

Definition set_needs_rollback (v : option string) (w : World) : World :=
  mkWorld (active_connections w) (closed_sockets w) (refused_sockets w)
          (delivered w) (db_rows w) (session w) (commit_faults w) (trace w) v.

Definition observe (e : Effect) (w : World) : World :=
  mkWorld (active_connections w) (closed_sockets w) (refused_sockets w)
          (delivered w) (db_rows w) (session w) (commit_faults w) (trace w ++ [e])
          (needs_rollback w).

(** ** Computations that change the world and may raise *)

Definition M (A : Type) : Type := World -> Result A * World.

Definition ret {A : Type} (a : A) : M A := fun w => (Ok a, w).

Definition raise {A : Type} (e : string) : M A := fun w => (Raise e, w).

Definition bind {A B : Type} (m : M A) (k : A -> M B) : M B :=
  fun w =>
    match m w with
    | (Ok a, w') => k a w'
    | (Raise e, w') => (Raise e, w')
    end.

(** [try: m  except Exception as e: h e] *)
Definition try_except {A : Type} (m : M A) (h : string -> M A) : M A :=
  fun w =>
    match m w with
    | (Ok a, w') => (Ok a, w')
    | (Raise e, w') => h e w'
    end.

(** [try: m  finally: f]; an exception raised by [f] replaces the outcome
    of [m]. *)
Definition try_finally {A : Type} (m : M A) (f : M unit) : M A :=
  fun w =>
    match m w with
    | (r, w') =>
        match f w' with
        | (Ok _, w'') => (r, w'')
        | (Raise e, w'') => (Raise e, w'')
        end
    end.

Definition get_world : M World := fun w => (Ok w, w).

Definition update_world (f : World -> World) : M unit := fun w => (Ok tt, f w).

Notation "'let*' x ':=' m 'in' k" := (bind m (fun x => k))
  (at level 10, x name, m at level 100, k at level 200).

(* ===================================================================== *)
(** * [app/core/websocket_manager.py]: [ConnectionManager] *)
(* ===================================================================== *)

(** [await websocket.accept()] *)
Definition accept (websocket : nat) : M unit :=
  fun w =>
    if decide (websocket ∈ refused_sockets w)
    then (Raise "accept failed", w)
    else (Ok tt, w).

(** [await websocket.send_text(json.dumps(message))] *)
Definition send_text (websocket : nat) (message : Message) : M unit :=
  fun w =>
    if decide (websocket ∈ closed_sockets w)
    then (Raise "send failed", w)
    else (Ok tt, set_delivered (fun d => d ++ [(websocket, message)]) w).

Definition send_personal_message (message : Message) (websocket : nat) : M unit :=
  try_except (send_text websocket message)
             (fun e => ret tt).                        (* logger.error *)

Definition connect (websocket : nat) (file_id : string) : M unit :=
  let* _ := accept websocket in
  let* _ := update_world (set_active_connections (fun ac =>
              match ac !! file_id with
              | None => <[file_id := ∅]> ac
              | Some _ => ac
              end)) in
  let* _ := update_world (set_active_connections
              (alter (fun s => s ∪ {[websocket]}) file_id)) in
  send_personal_message
    (connection_established file_id "Connected to real-time updates")
    websocket.

Definition disconnect (websocket : nat) (file_id : string) : M unit :=
  let* w := get_world in
  match active_connections w !! file_id with
  | Some _ =>
      let* _ := update_world (set_active_connections
                  (alter (fun s => s ∖ {[websocket]}) file_id)) in
      let* w := get_world in
      match active_connections w !! file_id with
      | Some s =>
          (* Clean up empty sets *)
          if decide (s = ∅)
          then update_world (set_active_connections (delete file_id))
          else ret tt
      | None => raise "KeyError"
      end
  | None => ret tt
  end.

(** The first loop of [broadcast_to_file]: one delivery attempt, with the
    set of connections that failed so far. *)
Definition broadcast_attempt (message : Message)
    (acc : World * gset nat) (connection : nat) : World * gset nat :=
  match send_text connection message (fst acc) with
  | (Ok _, w') => (w', snd acc)
  | (Raise _, w') => (w', snd acc ∪ {[connection]})    (* logger.error *)
  end.

Definition broadcast_to_file (file_id : string) (message : Message) : M unit :=
  let* _ := update_world (observe (EBroadcast file_id message)) in
  let* w := get_world in
  match active_connections w !! file_id with
  | None => ret tt
  | Some conns =>
      let* disconnected_connections := (fun w =>
        let r := foldl (broadcast_attempt message) (w, ∅) (elements conns) in
        (Ok (snd r), fst r)) in
      (* Clean up disconnected connections *)
      update_world (fun w =>
        foldl (fun w connection =>
                 set_active_connections
                   (alter (fun s => s ∖ {[connection]}) file_id) w)
              w (elements disconnected_connections))
  end.

Definition send_status_update (file_id status message : string) (progress : Q) : M unit :=
  broadcast_to_file file_id (status_update file_id status message progress).

Definition send_insight_progress (file_id current_step : string)
    (total_steps current_step_num insights_found : nat) : M unit :=
  match py_int_truediv current_step_num total_steps with
  | Raise e => raise e
  | Ok ratio =>
      let progress_percentage := float_mul ratio 100 in
      broadcast_to_file file_id
        (insight_progress file_id current_step total_steps current_step_num
           progress_percentage insights_found
           ("Step " +:+ pretty current_step_num +:+ "/" +:+ pretty total_steps
            +:+ ": " +:+ current_step))
  end.

Definition send_insights_complete (rd : Render) (file_id : string)
    (insights_count : nat) (processing_time : Q) : M unit :=
  broadcast_to_file file_id
    (insights_complete file_id "completed" insights_count processing_time 100
       ("Analysis complete! Found " +:+ pretty insights_count +:+ " insights in "
        +:+ fmt_1f rd (Fin processing_time) +:+ "s")).

(* ===================================================================== *)
(** * The database session *)
(* ===================================================================== *)

Definition with_insights (v : option (list Insight)) (r : FileRecord) : FileRecord :=
  {| id := id r; filename := filename r; filepath := filepath r;
     insights := v; processing_status := processing_status r |}.

Definition with_processing_status (v : string) (r : FileRecord) : FileRecord :=
  {| id := id r; filename := filename r; filepath := filepath r;
     insights := insights r; processing_status := v |}.

(** A session whose commit has raised refuses every further query and
    commit with a [PendingRollbackError] until [rollback()] is called, which
    the code never does, or the session is closed.  This is the text of
    that error, up to the pointer to the documentation that ends it. *)
Definition pending_rollback_error (e : string) : string :=
  "This Session's transaction has been rolled back due to a previous "
  +:+ "exception during flush. To begin a new transaction with this Session, "
  +:+ "first issue Session.rollback(). Original exception was: " +:+ e.

(** [SessionLocal()]: a new session, with nothing loaded. *)
Definition open_session : M unit :=
  update_world (fun w => set_needs_rollback None (set_session (fun _ => None) w)).

(** [db.get(FileRecord, file_id)] and [db.query(FileRecord)...first()]: the
    row, loaded into the session. *)
Definition db_get (file_id : string) : M (option FileRecord) :=
  fun w =>
    match needs_rollback w with
    | Some e => (Raise (pending_rollback_error e), w)
    | None =>
        let row := db_rows w !! file_id in
        (Ok row, set_session (fun _ => row) w)
    end.

(** An assignment [file_record.attr = v] on the loaded record. *)
Definition set_attr (f : FileRecord -> FileRecord) : M unit :=
  update_world (set_session (fmap f)).

(** [db.commit()]: either the loaded record is written to its row, or the
    commit raises and no row changes; after that the session wants a
    rollback. *)
Definition db_commit : M unit :=
  fun w =>
    match needs_rollback w with
    | Some e0 =>
        let e := pending_rollback_error e0 in
        (Raise e, observe (ECommitFailed e) w)
    | None =>
        match commit_faults w with
        | Some e :: rest =>
            (Raise e,
             observe (ECommitFailed e)
               (set_needs_rollback (Some e) (set_commit_faults (fun _ => rest) w)))
        | _ =>
            let w := set_commit_faults (drop 1) w in
            match session w with
            | Some r => (Ok tt, observe (ECommit r) (set_db_rows (insert (id r) r) w))
            | None => (Ok tt, w)
            end
        end
    end.

(** [db.close()] *)
Definition db_close : M unit :=
  update_world (fun w => set_needs_rollback None (set_session (fun _ => None) w)).

(* ===================================================================== *)
(** * [app/services/file_service.py] and the trigger of a run *)
(* ===================================================================== *)

Definition get_file_record (file_id : string) : M FileRecord :=
  let* record := db_get file_id in
  match record with
  | None => raise ("File not found: " +:+ file_id)
  | Some r => ret r
  end.

Definition update_processing_status (file_id status : string) : M unit :=
  let* _ := get_file_record file_id in
  let* _ := set_attr (with_processing_status status) in
  db_commit.

(** What [process_file] (app/api/endpoints/process.py) does to the record
    before it schedules the run; the request's session is opened before
    the function is entered and closed when the request ends. *)
Definition process_file (file_id : string) : M unit :=
  let* _ := open_session in
  try_finally
    (let* _ := get_file_record file_id in
     update_processing_status file_id "processing")
    db_close.

(* ===================================================================== *)
(** * [app/api/endpoints/insights.py]: [get_insights] *)
(* ===================================================================== *)

(** What the endpoint answers: one of its dictionaries, an
    [InsightResponse], nothing at all (the function falls off its end), or
    the [HTTPException] it raises. *)
Inductive InsightsAnswer : Type :=
| message_answer (message status : string)
| insight_answer (file_id : string) (insights : list Insight)
    (processing_time : Q) (total_insights : nat)
| no_answer
| http_exception (status_code : nat) (detail : string).

(** The field constraint on [confidence], as a test. *)
Definition valid_confidenceb (i : Insight) : bool :=
  Qle_bool 0 (confidence i) && Qle_bool (confidence i) 1.

(** The session of the request is opened before the function is entered
    and closed when the request ends ([get_db]).

    [query_fault] is the exception, if any, with which the database answers
    the query of [get_file_record]; it is not a [ValueError], so it is the
    second handler that catches it and answers status 500.  In the fresh
    session of the request [get_file_record] raises nothing else of its own
    but the [ValueError] for a missing row.

    Each stored insight is rebuilt as an [Insight] from its own fields, one
    after the other; the first whose [confidence] breaks the field
    constraint makes the model class raise its [ValidationError], with the
    text [validation_error] gives for it.  That error is a [ValueError] and,
    like the one of [get_file_record], is answered by the first handler
    with status 404.  The stored insights are the dictionaries a run wrote,
    so rebuilding them raises nothing else. *)
Definition get_insights (validation_error : Insight -> string)
    (query_fault : option string) (file_id : string) : M InsightsAnswer :=
  let* _ := open_session in
  try_finally
    (match query_fault with
     | Some e =>
         (* except Exception as e *)
         ret (http_exception 500 ("Internal server error: " +:+ e))
     | None =>
         try_except
           (let* file_record := get_file_record file_id in
            if String.eqb (processing_status file_record) "uploaded" then
              ret (message_answer "File not yet processed" "uploaded")
            else if String.eqb (processing_status file_record) "processing" then
              ret (message_answer "Processing in progress" "processing")
            else if String.eqb (processing_status file_record) "failed" then
              ret (message_answer "Processing failed" "failed")
            else if String.eqb (processing_status file_record) "completed" then
              match insights file_record with
              | Some (i :: l) =>
                  match List.find (fun x => negb (valid_confidenceb x)) (i :: l) with
                  | Some bad => raise (validation_error bad)
                  | None => ret (insight_answer file_id (i :: l) 0 (length (i :: l)))
                  end
              | _ => ret (message_answer "No insights generated" "completed")
              end
            else ret no_answer)
           (* except ValueError as e *)
           (fun e => ret (http_exception 404 e))
     end)
    db_close.

(* ===================================================================== *)
(** * [app/services/insight_service.py]: the run *)
(* ===================================================================== *)

Inductive Stage : Type := Overview | Statistical | Pattern | Quality.

(** What the surroundings decide for one run. *)
Record Env : Type := mkEnv {
  settings : Settings;                        (* get_settings() *)
  render : Render;
  read_dataset : string -> string + DataFrame;
      (* parse_file(filepath): inl e when it raises FileParseError(e) *)
  stage_fault : Stage -> option string;
      (* Some e: the stage meets an exception e that is not of its own
         making (raised by pandas, say) instead of returning *)
  elapsed : Q                                 (* time.time() - start_time *)
}.

Definition parse_file (env : Env) (path : string) : M DataFrame :=
  match read_dataset env path with
  | inl e => raise e
  | inr df => ret df
  end.

Definition run_stage (env : Env) (s : Stage) (f : DataFrame -> list Insight)
    (df : DataFrame) : M (list Insight) :=
  match stage_fault env s with
  | Some e => raise e
  | None => ret (f df)
  end.

Definition _generate_overview_insights_async (env : Env) : DataFrame -> M (list Insight) :=
  run_stage env Overview (_generate_overview_insights).

Definition _generate_statistical_insights_async (env : Env) : DataFrame -> M (list Insight) :=
  run_stage env Statistical (_generate_statistical_insights (render env)).

Definition _generate_pattern_insights_async (env : Env) : DataFrame -> M (list Insight) :=
  run_stage env Pattern (_generate_pattern_insights (render env)).

(** The quality stage can raise of its own. *)
Definition _generate_quality_insights_async (env : Env) (df : DataFrame)
    : M (list Insight) :=
  match stage_fault env Quality with
  | Some e => raise e
  | None =>
      match _generate_quality_insights (render env) df with
      | Ok insights => ret insights
      | Raise e => raise e
      end
  end.

(** The [try] block of [generate_insights_with_progress]. *)
Definition run_try (env : Env) (file_id : string) (file_record : FileRecord)
    : M (list Insight) :=
  (* notify start *)
  let* _ := send_status_update file_id "processing" "Starting analysis..." 0 in
  (* Parse file *)
  let* _ := send_insight_progress file_id "Parsing dataset" 6 1 0 in
  let* df := parse_file env (filepath file_record) in
  (* Validate structure *)
  let* _ := send_insight_progress file_id "Validating data structure" 6 2 0 in
  let insights := [] in
  (* Overview *)
  let* _ := send_insight_progress file_id "Analyzing dataset overview" 6 3 0 in
  let* overview := _generate_overview_insights_async env df in
  let insights := insights ++ overview in
  let* _ := send_insight_progress file_id "Analyzing dataset overview" 6 3
              (length insights) in
  (* Statistical *)
  let* _ := send_insight_progress file_id "Performing statistical analysis" 6 4
              (length insights) in
  let* stat_ins := _generate_statistical_insights_async env df in
  let insights := insights ++ stat_ins in
  (* Patterns *)
  let* _ := send_insight_progress file_id "Detecting patterns and correlations" 6 5
              (length insights) in
  let* pat_ins := _generate_pattern_insights_async env df in
  let insights := insights ++ pat_ins in
  (* Quality *)
  let* _ := send_insight_progress file_id "Evaluating data quality" 6 6
              (length insights) in
  let* qual_ins := _generate_quality_insights_async env df in
  let insights := insights ++ qual_ins in
  (* Filter, sort, and trim *)
  let final_insights := select_insights (settings env) insights in
  (* Persist results *)
  let* _ := set_attr (with_insights (Some final_insights)) in
  let* _ := set_attr (with_processing_status "completed") in
  let* _ := db_commit in
  let processing_time := elapsed env in
  let* _ := send_insights_complete (render env) file_id
              (length final_insights) processing_time in
  ret final_insights.

(** The [except Exception as e] block. *)
Definition run_except (file_id : string) (e : string) : M (list Insight) :=
  (* mark failure *)
  let* _ := try_except
              (let* _ := set_attr (with_processing_status "failed") in
               db_commit)
              (fun _ => ret tt) in
  let* _ := send_status_update file_id "failed" ("Analysis failed: " +:+ e) 0 in
  ret [].

Definition generate_insights_with_progress (env : Env) (file_id : string)
    : M (list Insight) :=
  let* _ := open_session in
  (* re-load the FileRecord *)
  let* file_record := db_get file_id in
  match file_record with
  | None =>
      let* _ := send_status_update file_id "failed"
                  "File not found; aborting insights" 0 in
      let* _ := db_close in
      ret []
  | Some file_record =>
      try_finally
        (try_except (run_try env file_id file_record) (run_except file_id))
        db_close
  end.

(* ===================================================================== *)
(** * Notions used to state the properties *)
(* ===================================================================== *)

(** The integer nearest to a rational, ties to even. *)
Definition rne (q : Q) : Z := round_half_even (Qnum q) (QDen q).

(** The binary exponent of a positive [x], and that of the unit in the
    last place of the double nearest to it. *)
Definition exponent (x : Q) : Z := floor_log2 (Qnum (Qred x)) (QDen (Qred x)).
Definition ulp_exponent (x : Q) : Z := Z.max (exponent x - 52) (-1074).

Section SortNotions.
Context {A : Type} (key : A -> Q).

(** Descending key order. *)
Definition desc (a b : A) : Prop := (key b <= key a)%Q.

(** The elements of [l] whose key equals [c], in the order of [l]. *)
Definition with_key (c : Q) (l : list A) : list A :=
  List.filter (fun a => Qeq_bool (key a) c) l.

(** [r] is [l] sorted into descending key order, the elements of equal key
    left in the order they have in [l]. *)
Definition stable_desc_sort_of (l r : list A) : Prop :=
  r ≡ₚ l /\ StronglySorted desc r /\ forall c, with_key c r = with_key c l.
End SortNotions.

(** The insights that are not strictly below the threshold. *)
Definition survivors (threshold : Q) (l : list Insight) : list Insight :=
  List.filter (fun i => negb (Qlt_bool (confidence i) threshold)) l.

(** What a call returned; nothing if it raised. *)
Definition returned {A : Type} (r : Result (list A)) : list A :=
  match r with
  | Ok l => l
  | Raise _ => []
  end.

(** Everything the four analysers produce, in the order the run collects it. *)
Definition stage_outputs (rd : Render) (df : DataFrame) : list Insight :=
  _generate_overview_insights df ++ _generate_statistical_insights rd df
  ++ _generate_pattern_insights rd df
  ++ returned (_generate_quality_insights rd df).

(** The correlation of a pair of columns is a number of magnitude above 0.7. *)
Definition strongly_correlated (v : pyfloat) : Prop :=
  exists q, v = Fin q /\ (7 # 10 < Qabs q)%Q.

(** [ins] is the pattern insight of the columns at positions [fst ij] and
    [snd ij] of the numeric columns. *)
Definition pattern_insight_of (df : DataFrame) (ij : nat * nat) (ins : Insight) : Prop :=
  exists q c1 c2,
    df_corr df (fst ij) (snd ij) = Fin q /\
    df_numeric df !! fst ij = Some c1 /\
    df_numeric df !! snd ij = Some c2 /\
    category ins = "pattern" /\
    (confidence ins == Qmin (Qabs q) (9 # 10))%Q /\
    affected_columns ins = [c1; c2].

(** Every subject of the registry has at least one subscriber. *)
Definition registry_wf (ac : gmap string (gset nat)) : Prop :=
  forall file_id s, ac !! file_id = Some s -> s ≠ ∅.

(** The world a broadcast leaves behind. *)
Definition after_broadcast (file_id : string) (m : Message) (w : World) : World :=
  snd (broadcast_to_file file_id m w).

(** The [(current_step_num, total_steps)] of the progress events of a trace. *)
Definition progress_steps (tr : list Effect) : list (nat * nat) :=
  flat_map
    (fun e =>
       match e with
       | EBroadcast _ (insight_progress _ _ total k _ _ _) => [(k, total)]
       | _ => []
       end) tr.

Definition is_terminal_status (s : string) : bool :=
  String.eqb s "completed" || String.eqb s "failed".

(** A commit that wrote a terminal status. *)
Definition is_terminal_write (e : Effect) : bool :=
  match e with
  | ECommit row => is_terminal_status (processing_status row)
  | _ => false
  end.

(** A commit, whether it succeeded or raised. *)
Definition is_commit_attempt (e : Effect) : bool :=
  match e with
  | ECommit _ | ECommitFailed _ => true
  | EBroadcast _ _ => false
  end.

(** The broadcast that tells subscribers how the run ended. *)
Definition is_terminal_message (m : Message) : bool :=
  match m with
  | insights_complete _ _ _ _ _ _ => true
  | status_update _ status _ _ => String.eqb status "failed"
  | _ => false
  end.

Definition is_terminal_broadcast (e : Effect) : bool :=
  match e with
  | EBroadcast _ m => is_terminal_message m
  | _ => false
  end.

(** The first failure a run over [file_record] meets, if any: the dataset
    cannot be read, a stage raises, or the commit of the results raises. *)
Definition first_failure (env : Env) (file_record : FileRecord)
    (faults : list (option string)) : option string :=
  match read_dataset env (filepath file_record) with
  | inl e => Some e
  | inr df =>
      match stage_fault env Overview with
      | Some e => Some e
      | None =>
      match stage_fault env Statistical with
      | Some e => Some e
      | None =>
      match stage_fault env Pattern with
      | Some e => Some e
      | None =>
      match stage_fault env Quality with
      | Some e => Some e
      | None =>
      match _generate_quality_insights (render env) df with
      | Raise e => Some e
      | Ok _ =>
      match faults with
      | Some e :: _ => Some e
      | _ => None
      end end end end end end
  end.

(** The status is [completed], or there are no insights. *)
Definition insights_only_when_completed (r : FileRecord) : Prop :=
  processing_status r ≠ "completed" -> insights r = None.

(** What one delivery attempt, and a whole round of them, leaves alone. *)
Definition same_but_delivered (w w' : World) : Prop :=
  active_connections w' = active_connections w /\
  closed_sockets w' = closed_sockets w /\
  refused_sockets w' = refused_sockets w /\
  db_rows w' = db_rows w /\ session w' = session w /\
  commit_faults w' = commit_faults w /\ trace w' = trace w /\
  needs_rollback w' = needs_rollback w.

(** ** A hub-free account of one run

    What a run returns, the effects it adds to the trace, and the rows and
    pending commit outcomes it leaves, written as a function of the
    surroundings alone.  [generate_insights_with_progress] is shown below
    to behave as this account says. *)

Definition start_message (file_id : string) : Message :=
  status_update file_id "processing" "Starting analysis..." 0.

Definition not_found_message (file_id : string) : Message :=
  status_update file_id "failed" "File not found; aborting insights" 0.

Definition failed_message (file_id e : string) : Message :=
  status_update file_id "failed" ("Analysis failed: " +:+ e) 0.

Definition progress_message (file_id label : string) (k found : nat) : Message :=
  insight_progress file_id label 6 k
    (float_mul (binary64 (of_nat k / of_nat 6)) 100) found
    ("Step " +:+ pretty k +:+ "/" +:+ pretty 6%nat +:+ ": " +:+ label).

Definition complete_message (rd : Render) (file_id : string) (n : nat) (t : Q) : Message :=
  insights_complete file_id "completed" n t 100
    ("Analysis complete! Found " +:+ pretty n +:+ " insights in "
     +:+ fmt_1f rd (Fin t) +:+ "s").

(** The seven progress events of a run that reaches its last stage; [c3],
    [c5] and [c6] are the numbers of insights found when the overview, the
    statistical and the pattern stage have run. *)
Definition progress_script (file_id : string) (c3 c5 c6 : nat) : list Message :=
  [ progress_message file_id "Parsing dataset" 1 0;
    progress_message file_id "Validating data structure" 2 0;
    progress_message file_id "Analyzing dataset overview" 3 0;
    progress_message file_id "Analyzing dataset overview" 3 c3;
    progress_message file_id "Performing statistical analysis" 4 c3;
    progress_message file_id "Detecting patterns and correlations" 5 c5;
    progress_message file_id "Evaluating data quality" 6 c6 ].

(** The effects of a run up to and including its [k]-th progress event. *)
Definition opening (file_id : string) (c3 c5 c6 k : nat) : list Effect :=
  EBroadcast file_id (start_message file_id)
  :: map (EBroadcast file_id) (take k (progress_script file_id c3 c5 c6)).

Record Account : Type := mkAccount {
  acc_result : list Insight;
  acc_effects : list Effect;
  acc_rows : gmap string FileRecord;
  acc_faults : list (option string)
}.

(** The end of a run that failed with [e] before it committed anything,
    after the effects [pre], the loaded record being [r]. *)
Definition failure_account (file_id e : string) (r : FileRecord)
    (pre : list Effect) (rows : gmap string FileRecord)
    (faults : list (option string)) : Account :=
  match faults with
  | Some e' :: rest =>
      {| acc_result := [];
         acc_effects := pre ++ [ECommitFailed e';
                                EBroadcast file_id (failed_message file_id e)];
         acc_rows := rows;
         acc_faults := rest |}
  | _ =>
      let r' := with_processing_status "failed" r in
      {| acc_result := [];
         acc_effects := pre ++ [ECommit r';
                                EBroadcast file_id (failed_message file_id e)];
         acc_rows := <[id r' := r']> rows;
         acc_faults := drop 1 faults |}
  end.

(** The end of a run whose commit of the results raised [e] after the
    effects [pre]: the session then refuses the handler's commit of status
    [failed] as well, and no row changes. *)
Definition refused_account (file_id e : string) (pre : list Effect)
    (rows : gmap string FileRecord) (faults : list (option string)) : Account :=
  {| acc_result := [];
     acc_effects := pre ++ [ECommitFailed e;
                            ECommitFailed (pending_rollback_error e);
                            EBroadcast file_id (failed_message file_id e)];
     acc_rows := rows;
     acc_faults := faults |}.

Definition run_account (env : Env) (file_id : string)
    (rows : gmap string FileRecord) (faults : list (option string)) : Account :=
  match rows !! file_id with
  | None =>
      {| acc_result := [];
         acc_effects := [EBroadcast file_id (not_found_message file_id)];
         acc_rows := rows;
         acc_faults := faults |}
  | Some file_record =>
      match read_dataset env (filepath file_record) with
      | inl e =>
          failure_account file_id e file_record (opening file_id 0 0 0 1) rows faults
      | inr df =>
          let ov := _generate_overview_insights df in
          let st := ov ++ _generate_statistical_insights (render env) df in
          let pt := st ++ _generate_pattern_insights (render env) df in
          let quality := _generate_quality_insights (render env) df in
          let all := pt ++ returned quality in
          let c3 := length ov in
          let c5 := length st in
          let c6 := length pt in
          match stage_fault env Overview, stage_fault env Statistical,
                stage_fault env Pattern, stage_fault env Quality, quality with
          | Some e, _, _, _, _ =>
              failure_account file_id e file_record (opening file_id c3 c5 c6 3) rows faults
          | None, Some e, _, _, _ =>
              failure_account file_id e file_record (opening file_id c3 c5 c6 5) rows faults
          | None, None, Some e, _, _ =>
              failure_account file_id e file_record (opening file_id c3 c5 c6 6) rows faults
          | None, None, None, Some e, _ =>
              failure_account file_id e file_record (opening file_id c3 c5 c6 7) rows faults
          | None, None, None, None, Raise e =>
              failure_account file_id e file_record (opening file_id c3 c5 c6 7) rows faults
          | None, None, None, None, Ok _ =>
              let final := select_insights (settings env) all in
              let r' := with_processing_status "completed"
                          (with_insights (Some final) file_record) in
              match faults with
              | Some e :: rest =>
                  refused_account file_id e (opening file_id c3 c5 c6 7) rows rest
              | _ =>
                  {| acc_result := final;
                     acc_effects :=
                       opening file_id c3 c5 c6 7
                       ++ [ECommit r';
                           EBroadcast file_id
                             (complete_message (render env) file_id (length final)
                                (elapsed env))];
                     acc_rows := <[id r' := r']> rows;
                     acc_faults := drop 1 faults |}
              end
          end
      end
  end.

(** The [(current_step_num, total_steps)] pairs of a run that reaches its
    last stage. *)
Definition step_numbers : list (nat * nat) :=
  [(1, 6); (2, 6); (3, 6); (3, 6); (4, 6); (5, 6); (6, 6)]%nat.

(** The first commit a run attempts does not raise. *)
Definition first_commit_ok (faults : list (option string)) : Prop :=
  match faults with
  | Some _ :: _ => False
  | _ => True
  end.

(** What a commit attempt that ends a failed run shows: the status written
    is [failed], or nothing was written. *)
Definition marks_failure (rows rows' : gmap string FileRecord) (attempt : Effect) : Prop :=
  match attempt with
  | ECommit r => processing_status r = "failed" /\ rows' = <[id r := r]> rows
  | ECommitFailed _ => rows' = rows
  | EBroadcast _ _ => False
  end.

(** Before its end a run neither commits nor tells how it ended. *)
Definition quiet (e : Effect) : Prop :=
  is_terminal_broadcast e = false /\ is_commit_attempt e = false.

(* ===================================================================== *)
(** * Sample data *)
(* ===================================================================== *)

Definition sample_render : Render :=
  {| fmt_1f := fun _ => "0.0"; fmt_2f := fun _ => "0.00" |}.

(** Two numeric columns, [y = 2x], three rows. *)
Definition sample_dataset : DataFrame :=
  {| df_len := 3;
     df_columns := ["x"; "y"];
     df_dtypes := "{dtype('int64'): 2}";
     df_numeric := ["x"; "y"];
     df_dropna := fun col =>
       if String.eqb col "x" then [(0%nat, 1%Q); (1%nat, 2%Q); (2%nat, 3%Q)]
       else [(0%nat, 2%Q); (1%nat, 4%Q); (2%nat, 6%Q)];
     df_mean := fun col => (if String.eqb col "x" then 2 else 4)%Q;
     df_std := fun col => (if String.eqb col "x" then Fin 1 else Fin 2)%Q;
     df_quantile := fun col p =>
       (if String.eqb col "x" then (if Qle_bool p (1 # 2) then 3 # 2 else 5 # 2)
        else (if Qle_bool p (1 # 2) then 3 else 5))%Q;
     df_corr := fun i j => Fin 1%Q;
     df_isnull_sum := [("x", 0%nat); ("y", 0%nat)];
     df_duplicated_sum := 0 |}.

Definition sample_env : Env :=
  {| settings := default_settings;
     render := sample_render;
     read_dataset := fun _ => inr sample_dataset;
     stage_fault := fun _ => None;
     elapsed := 3 |}.

(** The same surroundings after the uploaded file has gone. *)
Definition unreadable_env : Env :=
  {| settings := default_settings;
     render := sample_render;
     read_dataset := fun _ => inl "Failed to parse file: File not found";
     stage_fault := fun _ => None;
     elapsed := 3 |}.

Definition uploaded_record : FileRecord :=
  {| id := "file-1"; filename := "data.csv"; filepath := "./tmp/uploads/file-1.csv";
     insights := None; processing_status := "uploaded" |}.

Definition processing_record : FileRecord :=
  with_processing_status "processing" uploaded_record.

Definition world_of (rows : gmap string FileRecord)
    (faults : list (option string)) : World :=
  {| active_connections := ∅; closed_sockets := ∅; refused_sockets := ∅;
     delivered := []; db_rows := rows; session := None;
     commit_faults := faults; trace := [];
     needs_rollback := None |}.

(** A freshly uploaded file. *)
Definition fresh_world : World := world_of {["file-1" := uploaded_record]} [].

(** A file whose processing has been triggered. *)
Definition triggered_world : World := world_of {["file-1" := processing_record]} [].

(** The same, with a database that refuses the next commit. *)
Definition refusing_world : World :=
  world_of {["file-1" := processing_record]} [Some "database is locked"].

(** Trigger, run to completion, trigger again, run with the file gone. *)
Definition rerun_world : World :=
  let w1 := snd (process_file "file-1" fresh_world) in
  let w2 := snd (generate_insights_with_progress sample_env "file-1" w1) in
  let w3 := snd (process_file "file-1" w2) in
  snd (generate_insights_with_progress unreadable_env "file-1" w3).

(** One subscriber, whose connection is dead. *)
Definition dead_subscriber_world : World :=
  {| active_connections := {["file-1" := {[7%nat]}]};
     closed_sockets := {[7%nat]}; refused_sockets := ∅;
     delivered := []; db_rows := ∅; session := None;
     commit_faults := []; trace := [];
     needs_rollback := None |}.

Definition sample_insights : list Insight :=
  [ mkInsight "a" "" (8 # 10) "statistical" ["x"] [];
    mkInsight "b" "" (5 # 100) "anomaly" ["x"] [];
    mkInsight "c" "" (95 # 100) "overview" ["x"; "y"] [];
    mkInsight "d" "" (8 # 10) "statistical" ["y"] [];
    mkInsight "e" "" (9 # 10) "pattern" ["x"; "y"] [];
    mkInsight "f" "" (75 # 100) "anomaly" ["y"] [];
    mkInsight "g" "" (9 # 10) "data_quality" ["y"] [] ].

(** Two live subscribers and a dead one under one subject, a subscriber
    under another. *)
Definition mixed_hub_world : World :=
  {| active_connections :=
       {["file-1" := {[1%nat; 2%nat; 7%nat]}; "file-2" := {[3%nat]}]};
     closed_sockets := {[7%nat]}; refused_sockets := ∅;
     delivered := []; db_rows := {["file-1" := processing_record]};
     session := None; commit_faults := []; trace := [];
     needs_rollback := None |}.

(** One float column holding 0.1, 0.4, 1.8, 0.5 and 3.9. *)
Definition skewed_dataset : DataFrame :=
  {| df_len := 5;
     df_columns := ["v"];
     df_dtypes := "{dtype('float64'): 1}";
     df_numeric := ["v"];
     df_dropna := fun _ =>
       [(0%nat, binary64 (1 # 10)); (1%nat, binary64 (4 # 10));
        (2%nat, binary64 (18 # 10)); (3%nat, binary64 (5 # 10));
        (4%nat, binary64 (39 # 10))];
     df_mean := fun _ => binary64 (134 # 100);
     df_std := fun _ => Fin (binary64 (15725775 # 10000000));
     df_quantile := fun _ p =>
       if Qle_bool p (1 # 2) then binary64 (4 # 10) else binary64 (18 # 10);
     df_corr := fun _ _ => NaN;
     df_isnull_sum := [("v", 0%nat)];
     df_duplicated_sum := 0 |}.

(** A file that holds a header and no rows. *)
Definition header_only_dataset : DataFrame :=
  {| df_len := 0;
     df_columns := ["x"; "y"];
     df_dtypes := "{dtype('O'): 2}";
     df_numeric := [];
     df_dropna := fun _ => [];
     df_mean := fun _ => 0%Q;
     df_std := fun _ => NaN;
     df_quantile := fun _ _ => 0%Q;
     df_corr := fun _ _ => NaN;
     df_isnull_sum := [("x", 0%nat); ("y", 0%nat)];
     df_duplicated_sum := 0 |}.

Definition header_only_env : Env :=
  {| settings := default_settings;
     render := sample_render;
     read_dataset := fun _ => inr header_only_dataset;
     stage_fault := fun _ => None;
     elapsed := 3 |}.

(** A dataset of 100 rows, of which 15 miss [a], 10 miss [b], none misses
    [c], and 2 repeat an earlier row. *)
Definition gappy_dataset : DataFrame :=
  {| df_len := 100;
     df_columns := ["a"; "b"; "c"];
     df_dtypes := "{dtype('float64'): 3}";
     df_numeric := [];
     df_dropna := fun _ => [];
     df_mean := fun _ => 0%Q;
     df_std := fun _ => NaN;
     df_quantile := fun _ _ => 0%Q;
     df_corr := fun _ _ => NaN;
     df_isnull_sum := [("a", 15%nat); ("b", 10%nat); ("c", 0%nat)];
     df_duplicated_sum := 2 |}.

(** A file that was analysed before: its record holds insights. *)
Definition analysed_record : FileRecord :=
  with_processing_status "completed"
    (with_insights (Some sample_insights) uploaded_record).

Definition analysed_world : World := world_of {["file-1" := analysed_record]} [].

(** The same file once its processing has been triggered again. *)
Definition retriggered_world : World :=
  world_of {["file-1" := with_processing_status "processing" analysed_record]} [].

(** A text for the validation error of an insight. *)
Definition sample_validation_error (i : Insight) : string :=
  "validation error for Insight " +:+ title i.

(* ===================================================================== *)
(** * What a subscriber sees *)
(* ===================================================================== *)

(** The payloads delivered to the socket [c], oldest first. *)
Definition inbox (c : nat) (w : World) : list (nat * Message) :=
  List.filter (fun p => Nat.eqb (fst p) c) (delivered w).

(** [c] is registered under [file_id] and its connection is alive. *)
Definition live_subscriber (c : nat) (file_id : string) (w : World) : bool :=
  match active_connections w !! file_id with
  | Some s => bool_decide (c ∈ s) && negb (bool_decide (c ∈ closed_sockets w))
  | None => false
  end.

(** The payloads of the broadcasts of a trace, in order. *)
Definition messages_of (tr : list Effect) : list Message :=
  flat_map (fun e => match e with EBroadcast _ m => [m] | _ => [] end) tr.

(** Every broadcast of the trace is addressed to [file_id]. *)
Definition to_subject (file_id : string) (e : Effect) : Prop :=
  match e with
  | EBroadcast f _ => f = file_id
  | _ => True
  end.

(** What a computation that only broadcasts to [file_id] may do to the hub,
    seen from the socket [c]: sockets do not change state, other subjects
    keep their subscribers, the subject at most loses its dead subscribers,
    and [c] receives the broadcasts, in order, exactly if it is a live
    subscriber of the subject. *)
Definition hub_step (file_id : string) (c : nat) (w w' : World) : Prop :=
  closed_sockets w' = closed_sockets w /\
  refused_sockets w' = refused_sockets w /\
  (forall k, k ≠ file_id ->
     active_connections w' !! k = active_connections w !! k) /\
  (active_connections w' !! file_id = active_connections w !! file_id \/
   active_connections w' !! file_id
   = (fun s => s ∖ closed_sockets w) <$> active_connections w !! file_id) /\
  (active_connections w !! file_id = None -> delivered w' = delivered w) /\
  exists tr,
    trace w' = trace w ++ tr /\
    Forall (to_subject file_id) tr /\
    inbox c w' = inbox c w ++ (if live_subscriber c file_id w
                               then map (pair c) (messages_of tr) else []).

Definition respects_hub {A : Type} (file_id : string) (c : nat) (m : M A) : Prop :=
  forall w, hub_step file_id c w (snd (m w)).

(** The [insights_found] of the progress events of a trace. *)
Definition found_counts (tr : list Effect) : list nat :=
  flat_map
    (fun e =>
       match e with
       | EBroadcast _ (insight_progress _ _ _ _ _ found _) => [found]
       | _ => []
       end) tr.

(** The record a run commits when it completes with [final]. *)
Definition completed_record (final : list Insight) (r : FileRecord) : FileRecord :=
  with_processing_status "completed" (with_insights (Some final) r).

(** The only fields a run assigns are [insights] and [processing_status]. *)
Definition same_file (r r' : FileRecord) : Prop :=
  id r' = id r /\ filename r' = filename r /\ filepath r' = filepath r.

(** The fences of the interquartile rule, as the code computes them:
    [q1 - 1.5*iqr] and [q3 + 1.5*iqr] with [iqr = q3 - q1], every operation
    rounded. *)
Definition lower_fence (df : DataFrame) (col : string) : Q :=
  let q1 := df_quantile df col (25 # 100) in
  let q3 := df_quantile df col (75 # 100) in
  float_sub q1 (float_mul (15 # 10) (float_sub q3 q1)).
Definition upper_fence (df : DataFrame) (col : string) : Q :=
  let q1 := df_quantile df col (25 # 100) in
  let q3 := df_quantile df col (75 # 100) in
  float_add q3 (float_mul (15 # 10) (float_sub q3 q1)).

(** The value lies outside the fences. *)
Definition outlier_of (df : DataFrame) (col : string) (v : Q) : Prop :=
  (v < lower_fence df col)%Q \/ (upper_fence df col < v)%Q.

(** What [get_insights] answers for a record marked [completed] with the
    stored insights [stored]. *)
Definition completed_answer (validation_error : Insight -> string)
    (file_id : string) (stored : option (list Insight)) : InsightsAnswer :=
  match stored with
  | Some (i :: l) =>
      match List.find (fun x => negb (valid_confidenceb x)) (i :: l) with
      | Some bad => http_exception 404 (validation_error bad)
      | None => insight_answer file_id (i :: l) 0 (length (i :: l))
      end
  | _ => message_answer "No insights generated" "completed"
  end.

(** What [get_insights] answers for a record with the given status and
    stored insights. *)
Definition status_answer (validation_error : Insight -> string)
    (file_id status : string) (stored : option (list Insight)) : InsightsAnswer :=
  if String.eqb status "uploaded" then
    message_answer "File not yet processed" "uploaded"
  else if String.eqb status "processing" then
    message_answer "Processing in progress" "processing"
  else if String.eqb status "failed" then
    message_answer "Processing failed" "failed"
  else if String.eqb status "completed" then
    completed_answer validation_error file_id stored
  else no_answer.

(** What the second handler of an endpoint answers. *)
Definition internal_server_error (e : string) : InsightsAnswer :=
  http_exception 500 ("Internal server error: " +:+ e).

(* ===================================================================== *)
(** * Properties *)
(* ===================================================================== *)

(** ** Rounding to binary64 *)

Section Binary64.
Local Open Scope Z_scope.

Lemma round_half_even_cases (n d : Z) :
  0 < d ->
  let f := n / d in
  let r := n mod d in
  (round_half_even n d = f /\ (2 * r < d \/ (2 * r = d /\ Z.even f = true))) \/
  (round_half_even n d = f + 1 /\ (d < 2 * r \/ (2 * r = d /\ Z.even f = false))).
Proof.
  intros Hd. cbv zeta. unfold round_half_even.
  destruct (Z.ltb_spec (2 * (n mod d)) d) as [H1|H1]; [left; split; [reflexivity|lia]|].
  destruct (Z.ltb_spec d (2 * (n mod d))) as [H2|H2]; [right; split; [reflexivity|lia]|].
  destruct (Z.even (n / d)) eqn:He; [left|right]; split; try reflexivity; right; split; lia || assumption.
Qed.

Lemma round_half_even_mono (n1 d1 n2 d2 : Z) :
  0 < d1 -> 0 < d2 -> n1 * d2 <= n2 * d1 ->
  round_half_even n1 d1 <= round_half_even n2 d2.
Proof.
  intros Hd1 Hd2 Hle.
  pose proof (Z.div_mod n1 d1 ltac:(lia)) as E1.
  pose proof (Z.div_mod n2 d2 ltac:(lia)) as E2.
  pose proof (Z.mod_pos_bound n1 d1 Hd1) as B1.
  pose proof (Z.mod_pos_bound n2 d2 Hd2) as B2.
  destruct (round_half_even_cases n1 d1 Hd1) as [[-> C1]|[-> C1]];
    destruct (round_half_even_cases n2 d2 Hd2) as [[-> C2]|[-> C2]];
    cbv zeta in *.
  all: set (f1 := n1 / d1) in *; set (f2 := n2 / d2) in *;
       set (r1 := n1 mod d1) in *; set (r2 := n2 mod d2) in *; clearbody f1 f2 r1 r2.
  all: assert (Hf : f1 <= f2) by
         (destruct (Z_le_gt_dec f1 f2) as [|Hgt]; [assumption|exfalso];
          assert (0 <= r1 * d2) by nia;
          assert (r2 * d1 < d2 * d1) by nia;
          assert (0 <= d1 * d2 * (f1 - f2 - 1)) by nia; nia).
  - lia.
  - lia.
  - destruct (Z.eq_dec f1 f2) as [->|Hne]; [|lia].
    exfalso. subst n1 n2.
    destruct C1 as [C1|[C1 E]], C2 as [C2|[C2 E']]; try nia; congruence.
  - lia.
Qed.

Lemma round_half_even_int (k d : Z) : 0 < d -> round_half_even (k * d) d = k.
Proof.
  intros Hd. unfold round_half_even.
  rewrite Z.div_mul, Z.mod_mul by lia.
  destruct (Z.ltb_spec (2 * 0) d); [reflexivity|lia].
Qed.

Local Open Scope Q_scope.

Lemma rne_mono (x y : Q) : x <= y -> (rne x <= rne y)%Z.
Proof. intros H. apply round_half_even_mono; [reflexivity..|exact H]. Qed.

Lemma rne_comp (x y : Q) : x == y -> rne x = rne y.
Proof.
  intros H. apply Z.le_antisymm; apply rne_mono; rewrite H; apply Qle_refl.
Qed.

Lemma rne_inject_Z (k : Z) : rne (inject_Z k) = k.
Proof.
  unfold rne. cbn. rewrite <- (Z.mul_1_r k) at 1.
  apply round_half_even_int. reflexivity.
Qed.

Lemma rne_ge (k : Z) (x : Q) : inject_Z k <= x -> (k <= rne x)%Z.
Proof. intros H. rewrite <- (rne_inject_Z k). apply rne_mono, H. Qed.

Lemma rne_le (k : Z) (x : Q) : x <= inject_Z k -> (rne x <= k)%Z.
Proof. intros H. rewrite <- (rne_inject_Z k). apply rne_mono, H. Qed.

Lemma round_half_even_rne (n d : Z) :
  (0 < d)%Z -> round_half_even n d = rne (n # Z.to_pos d).
Proof. intros Hd. unfold rne. cbn. rewrite Z2Pos.id by exact Hd. reflexivity. Qed.

Lemma pow2_pos (z : Z) : 0 < 2 ^ z.
Proof. apply Qpower_0_lt. reflexivity. Qed.

Lemma pow2_plus (a b : Z) : 2 ^ (a + b) == 2 ^ a * 2 ^ b.
Proof. apply Qpower_plus. discriminate. Qed.

Lemma pow2_inject (k : Z) : (0 <= k)%Z -> 2 ^ k == inject_Z (2 ^ k).
Proof. intros Hk. symmetry. apply (Zpower_Qpower 2 k Hk). Qed.

Lemma pow2_cancel (u : Z) : 2 ^ (- u) * 2 ^ u == 1.
Proof. rewrite <- pow2_plus. replace (- u + u)%Z with 0%Z by lia. reflexivity. Qed.

Lemma scale2_spec (m u : Z) : scale2 m u == inject_Z m * 2 ^ u.
Proof.
  unfold scale2. destruct (Z.leb_spec 0 u) as [Hu|Hu].
  - rewrite inject_Z_mult, (pow2_inject u Hu). reflexivity.
  - assert (Hp : (0 < 2 ^ (- u))%Z) by (apply Z.pow_pos_nonneg; lia).
    rewrite (Qmake_Qdiv m), Z2Pos.id by exact Hp.
    replace u with (- - u)%Z at 2 by lia.
    rewrite Qpower_opp, (pow2_inject (- u)) by lia. reflexivity.
Qed.

Lemma floor_log2_spec (a d : Z) :
  (0 < a)%Z -> (0 < d)%Z ->
  2 ^ floor_log2 a d <= a # Z.to_pos d /\ a # Z.to_pos d < 2 ^ (floor_log2 a d + 1).
Proof.
  intros Ha Hd. unfold floor_log2.
  destruct (Z.leb_spec d a) as [Hle|Hlt].
  - assert (Hq : (0 < a / d)%Z) by (apply Z.div_str_pos; lia).
    pose proof (Z.log2_spec (a / d) Hq) as [H1 H2].
    pose proof (Z.log2_nonneg (a / d)) as H0.
    pose proof (Z.div_mod a d ltac:(lia)) as E.
    pose proof (Z.mod_pos_bound a d Hd) as B.
    rewrite !pow2_inject by lia.
    unfold Qle, Qlt. cbn [Qnum Qden inject_Z]. rewrite Z2Pos.id by exact Hd.
    rewrite <- Z.add_1_r in H2. split; nia.
  - set (c := ((d + a - 1) / a)%Z).
    assert (Hc : (1 < c)%Z).
    { unfold c. apply Z.div_le_lower_bound with (q := 2%Z) (b := a) (a := (d + a - 1)%Z) in Ha as H; lia. }
    pose proof (Z.log2_up_spec c Hc) as [H1 H2].
    pose proof (Z.log2_up_pos c Hc) as H0.
    set (k := Z.log2_up c) in *.
    pose proof (Z.div_mod (d + a - 1) a ltac:(lia)) as E. fold c in E.
    pose proof (Z.mod_pos_bound (d + a - 1) a Ha) as B.
    assert (Hk1 : (2 ^ k = 2 * 2 ^ (Z.pred k))%Z).
    { rewrite <- Z.pow_succ_r by lia. f_equal. lia. }
    split.
    + apply (Qmult_le_r _ _ (2 ^ k)); [apply pow2_pos|].
      rewrite pow2_cancel, (pow2_inject k) by lia.
      unfold Qle, Qmult. cbn [Qnum Qden inject_Z]. rewrite Pos2Z.inj_mul, Z2Pos.id by exact Hd. nia.
    + replace (- k + 1)%Z with (- Z.pred k)%Z by lia.
      apply (Qmult_lt_r _ _ (2 ^ Z.pred k)); [apply pow2_pos|].
      rewrite pow2_cancel, (pow2_inject (Z.pred k)) by lia.
      unfold Qlt, Qmult. cbn [Qnum Qden inject_Z]. rewrite Pos2Z.inj_mul, Z2Pos.id by exact Hd. nia.
Qed.

Lemma binary64_comp (x y : Q) : x == y -> binary64 x = binary64 y.
Proof. intros H. unfold binary64. rewrite (Qred_complete x y H). reflexivity. Qed.

Lemma binary64_zero (x : Q) : x == 0 -> binary64 x = 0.
Proof. intros H. rewrite (binary64_comp x 0 H). reflexivity. Qed.

Lemma Qred_num_pos (x : Q) : 0 < x -> (0 < Qnum (Qred x))%Z.
Proof.
  intros H. rewrite <- (Qred_correct x) in H.
  unfold Qlt in H. cbn in H. lia.
Qed.

Lemma inject_Z_nonzero (k : Z) : k <> 0%Z -> ~ inject_Z k == 0.
Proof.
  intros Hk E. apply Hk. unfold Qeq in E. cbn [Qnum Qden inject_Z] in E.
  rewrite Z.mul_1_r in E. exact E.
Qed.

Lemma binary64_pos_spec (x : Q) :
  0 < x ->
  binary64 x == inject_Z (rne (x * 2 ^ (- ulp_exponent x))) * 2 ^ ulp_exponent x.
Proof.
  intros Hx. pose proof (Qred_num_pos x Hx) as Hn.
  unfold binary64, ulp_exponent, exponent. cbv zeta.
  set (a := Qnum (Qred x)) in *. set (d := QDen (Qred x)).
  assert (Hd : (0 < d)%Z) by reflexivity.
  assert (Exd : x == inject_Z a / inject_Z d).
  { rewrite <- (Qred_correct x) at 1. apply Qmake_Qdiv. }
  destruct (Z.eqb_spec a 0) as [E0|_]; [lia|].
  rewrite Z.abs_eq, Z.sgn_pos, Z.mul_1_l by lia.
  set (u := Z.max (floor_log2 a d - 52) (-1074)).
  rewrite scale2_spec. apply Qmult_comp; [|reflexivity].
  apply inject_Z_injective. f_equal.
  assert (Hdq : ~ inject_Z d == 0) by (apply inject_Z_nonzero; lia).
  destruct (Z.leb_spec 0 u) as [Hu|Hu].
  - assert (Hp : (0 < 2 ^ u)%Z) by (apply Z.pow_pos_nonneg; lia).
    rewrite round_half_even_rne by lia. apply rne_comp.
    rewrite Qmake_Qdiv, Z2Pos.id by lia.
    rewrite inject_Z_mult, Exd, Qpower_opp, (pow2_inject u Hu).
    assert (Hpq : ~ inject_Z (2 ^ u) == 0).
    { apply inject_Z_nonzero. intros E. rewrite E in Hp.
      exact (Z.lt_irrefl _ Hp). }
    field. split; assumption.
  - rewrite round_half_even_rne by lia. apply rne_comp.
    rewrite Qmake_Qdiv, inject_Z_mult, Exd, (pow2_inject (- u)) by lia.
    change (Z.pos (Z.to_pos d)) with d. field. exact Hdq.
Qed.

Lemma exponent_spec (x : Q) :
  0 < x -> 2 ^ exponent x <= x /\ x < 2 ^ (exponent x + 1).
Proof.
  intros Hx. pose proof (Qred_num_pos x Hx) as Hn.
  pose proof (floor_log2_spec (Qnum (Qred x)) (QDen (Qred x)) Hn eq_refl) as H.
  change (Z.to_pos (QDen (Qred x))) with (Qden (Qred x)) in H.
  assert (E : Qnum (Qred x) # Qden (Qred x) == x).
  { destruct (Qred x) as [n d] eqn:Er. cbn. rewrite <- Er. apply Qred_correct. }
  rewrite E in H. exact H.
Qed.

Lemma exponent_mono (x y : Q) : 0 < x -> x <= y -> (exponent x <= exponent y)%Z.
Proof.
  intros Hx Hxy.
  assert (Hy : 0 < y) by (eapply Qlt_le_trans; eassumption).
  destruct (exponent_spec x Hx) as [H1 _].
  destruct (exponent_spec y Hy) as [_ H2].
  assert (H : 2 ^ exponent x < 2 ^ (exponent y + 1)).
  { eapply Qle_lt_trans; [exact H1|]. eapply Qle_lt_trans; eassumption. }
  apply Qpower_lt_compat_l_inv in H; [lia|reflexivity].
Qed.

Lemma rne_nonneg (x : Q) : 0 <= x -> (0 <= rne x)%Z.
Proof. intros H. apply rne_ge. exact H. Qed.

Lemma binary64_mono_pos (x y : Q) :
  0 < x -> x <= y -> binary64 x <= binary64 y.
Proof.
  intros Hx Hxy.
  assert (Hy : 0 < y) by (eapply Qlt_le_trans; eassumption).
  rewrite (binary64_pos_spec x Hx), (binary64_pos_spec y Hy).
  pose proof (exponent_mono x y Hx Hxy) as He.
  destruct (exponent_spec x Hx) as [_ Hx2].
  destruct (exponent_spec y Hy) as [Hy1 _].
  unfold ulp_exponent.
  set (e1 := exponent x) in *. set (e2 := exponent y) in *.
  set (u1 := Z.max (e1 - 52) (-1074)). set (u2 := Z.max (e2 - 52) (-1074)).
  destruct (Z.eq_dec u1 u2) as [Eu|Hne].
  - rewrite <- Eu. apply Qmult_le_compat_r; [|apply Qlt_le_weak, pow2_pos].
    rewrite <- Zle_Qle. apply rne_mono.
    apply Qmult_le_compat_r; [exact Hxy|apply Qlt_le_weak, pow2_pos].
  - assert (Hu : (u1 < u2)%Z) by lia.
    assert (Eu2 : u2 = (e2 - 52)%Z) by lia.
    (* the double nearest to y is at least 2 ^ e2 *)
    assert (Hlow : 2 ^ e2 <= inject_Z (rne (y * 2 ^ (- u2))) * 2 ^ u2).
    { assert (Hm : (2 ^ 52 <= rne (y * 2 ^ (- u2)))%Z).
      { apply rne_ge. rewrite <- (pow2_inject 52) by lia.
        replace 52%Z with (e2 + - u2)%Z by lia. rewrite pow2_plus.
        apply Qmult_le_compat_r; [exact Hy1|apply Qlt_le_weak, pow2_pos]. }
      replace e2 with (52 + u2)%Z at 1 by lia. rewrite pow2_plus.
      apply Qmult_le_compat_r; [|apply Qlt_le_weak, pow2_pos].
      rewrite (pow2_inject 52) by lia. rewrite <- Zle_Qle. exact Hm. }
    (* the double nearest to x is at most 2 ^ max (e1 + 1) u1 <= 2 ^ e2 *)
    set (k := Z.max 0 (e1 + 1 - u1)).
    assert (Hup : inject_Z (rne (x * 2 ^ (- u1))) * 2 ^ u1 <= 2 ^ (k + u1)).
    { assert (Hm : (rne (x * 2 ^ (- u1)) <= 2 ^ k)%Z).
      { apply rne_le. rewrite <- (pow2_inject k) by lia.
        apply Qle_trans with (2 ^ (e1 + 1 + - u1)).
        - rewrite pow2_plus.
          apply Qmult_le_compat_r; [apply Qlt_le_weak, Hx2|apply Qlt_le_weak, pow2_pos].
        - apply Qpower_le_compat_l; [lia|discriminate]. }
      rewrite pow2_plus.
      apply Qmult_le_compat_r; [|apply Qlt_le_weak, pow2_pos].
      rewrite (pow2_inject k) by lia. rewrite <- Zle_Qle. exact Hm. }
    eapply Qle_trans; [exact Hup|]. eapply Qle_trans; [|exact Hlow].
    apply Qpower_le_compat_l; [lia|discriminate].
Qed.

Lemma binary64_nonneg (x : Q) : 0 <= x -> 0 <= binary64 x.
Proof.
  intros Hx. destruct (Qlt_le_dec 0 x) as [Hpos|Hle].
  - rewrite (binary64_pos_spec x Hpos).
    apply Qmult_le_0_compat; [|apply Qlt_le_weak, pow2_pos].
    change 0 with (inject_Z 0). rewrite <- Zle_Qle.
    apply rne_nonneg, Qmult_le_0_compat; [exact Hx|apply Qlt_le_weak, pow2_pos].
  - rewrite (binary64_zero x); [apply Qle_refl|]. apply Qle_antisym; assumption.
Qed.

(** Rounding to the nearest double preserves the order of non-negative
    numbers. *)
Lemma binary64_mono (x y : Q) : 0 <= x -> x <= y -> binary64 x <= binary64 y.
Proof.
  intros Hx Hxy. destruct (Qlt_le_dec 0 x) as [Hpos|Hle].
  - apply binary64_mono_pos; assumption.
  - rewrite (binary64_zero x) by (apply Qle_antisym; assumption).
    apply binary64_nonneg. apply Qle_trans with x; assumption.
Qed.
End Binary64.

(** ** Comparisons *)

Lemma Qlt_bool_iff (x y : Q) : Qlt_bool x y = true <-> (x < y)%Q.
Proof.
  unfold Qlt_bool. rewrite negb_true_iff. split.
  - intros H. apply Qnot_le_lt. intros Hle.
    apply Qle_bool_iff in Hle. congruence.
  - intros H. destruct (Qle_bool y x) eqn:E; [|reflexivity].
    apply Qle_bool_iff in E. exfalso. exact (Qlt_not_le _ _ H E).
Qed.

Lemma Qlt_bool_false (x y : Q) : Qlt_bool x y = false <-> (y <= x)%Q.
Proof.
  unfold Qlt_bool. rewrite negb_false_iff. apply Qle_bool_iff.
Qed.

Lemma py_slice_to_nonneg {A : Type} (l : list A) (n : Z) :
  (0 <= n)%Z -> py_slice_to l n = take (Z.to_nat n) l.
Proof.
  intros Hn. unfold py_slice_to.
  destruct (0 <=? n)%Z eqn:E; [reflexivity|]. apply Z.leb_gt in E. lia.
Qed.

(** ** The stable descending sort *)

Section SortFacts.
Context {A : Type} (key : A -> Q).

Lemma insert_desc_perm (x : A) (l : list A) : insert_desc key x l ≡ₚ x :: l.
Proof.
  induction l as [|y ys IH]; simpl; [reflexivity|].
  destruct (Qlt_bool (key x) (key y)); [|reflexivity].
  rewrite IH. apply Permutation_swap.
Qed.

Lemma sort_desc_perm (l : list A) : sort_desc key l ≡ₚ l.
Proof.
  induction l as [|x xs IH]; simpl; [reflexivity|].
  rewrite insert_desc_perm. by rewrite IH.
Qed.

Lemma insert_desc_sorted (x : A) (l : list A) :
  StronglySorted (desc key) l -> StronglySorted (desc key) (insert_desc key x l).
Proof.
  induction 1 as [|y ys Hs IH Hall]; simpl.
  - repeat constructor.
  - destruct (Qlt_bool (key x) (key y)) eqn:E.
    + apply Qlt_bool_iff in E. constructor; [exact IH|].
      rewrite insert_desc_perm. constructor; [|exact Hall].
      unfold desc. by apply Qlt_le_weak.
    + apply Qlt_bool_false in E. constructor.
      * by constructor.
      * constructor; [exact E|].
        eapply Forall_impl; [exact Hall|].
        unfold desc. intros z Hz. by apply Qle_trans with (key y).
Qed.

Lemma sort_desc_sorted (l : list A) : StronglySorted (desc key) (sort_desc key l).
Proof.
  induction l as [|x xs IH]; simpl; [constructor|].
  by apply insert_desc_sorted.
Qed.

Lemma insert_desc_with_key (c : Q) (x : A) (l : list A) :
  with_key key c (insert_desc key x l) = with_key key c (x :: l).
Proof.
  induction l as [|y ys IH]; [reflexivity|].
  cbn [insert_desc].
  destruct (Qlt_bool (key x) (key y)) eqn:E; [|reflexivity].
  apply Qlt_bool_iff in E.
  unfold with_key in *. cbn [List.filter] in *. rewrite IH.
  destruct (Qeq_bool (key x) c) eqn:Ex; [|reflexivity].
  destruct (Qeq_bool (key y) c) eqn:Ey; [|reflexivity].
  apply Qeq_bool_iff in Ex, Ey. exfalso.
  rewrite Ex, Ey in E. exact (Qlt_irrefl _ E).
Qed.

Lemma sort_desc_with_key (c : Q) (l : list A) :
  with_key key c (sort_desc key l) = with_key key c l.
Proof.
  induction l as [|x xs IH]; [reflexivity|].
  cbn [sort_desc]. rewrite insert_desc_with_key.
  unfold with_key in *. cbn [List.filter]. by rewrite IH.
Qed.

Lemma sort_desc_stable (l : list A) : stable_desc_sort_of key l (sort_desc key l).
Proof.
  split; [apply sort_desc_perm|].
  split; [apply sort_desc_sorted|].
  intros c. apply sort_desc_with_key.
Qed.

(** A list already in descending order is left as it is. *)
Lemma sort_desc_fixed (l : list A) : StronglySorted (desc key) l -> sort_desc key l = l.
Proof.
  induction 1 as [|x xs Hs IH Hall]; [reflexivity|].
  cbn [sort_desc]. rewrite IH.
  destruct xs as [|y ys]; [reflexivity|].
  cbn [insert_desc]. apply Forall_cons in Hall as [Hy _].
  unfold desc in Hy. apply Qlt_bool_false in Hy. by rewrite Hy.
Qed.

Lemma with_key_head (a : A) (l : list A) : with_key key (key a) (a :: l) = a :: with_key key (key a) l.
Proof. unfold with_key. cbn [List.filter]. by rewrite Qeq_bool_refl. Qed.

Lemma with_key_In (c : Q) (a : A) (l : list A) :
  In a (with_key key c l) <-> In a l /\ (key a == c)%Q.
Proof. unfold with_key. rewrite List.filter_In, Qeq_bool_iff. tauto. Qed.

(** Two stable descending arrangements of the same elements coincide. *)
Lemma stable_sorted_unique (r1 r2 : list A) :
  StronglySorted (desc key) r1 -> StronglySorted (desc key) r2 ->
  (forall c, with_key key c r1 = with_key key c r2) -> r1 = r2.
Proof.
  intros H1. revert r2.
  induction H1 as [|a r1 Hs1 IH Hall1]; intros r2 H2 Heq.
  - destruct r2 as [|b r2]; [reflexivity|].
    specialize (Heq (key b)). rewrite with_key_head in Heq. discriminate.
  - destruct H2 as [|b r2 Hs2 Hall2].
    + specialize (Heq (key a)). rewrite with_key_head in Heq. discriminate.
    + assert (Hab : (key a == key b)%Q).
      { apply Qle_antisym.
        - assert (Ha : In a (with_key key (key a) (b :: r2))).
          { rewrite <- Heq, with_key_head. by left. }
          apply with_key_In in Ha as [[->|Ha] _]; [apply Qle_refl|].
          rewrite Forall_forall in Hall2. apply Hall2. by apply list_elem_of_In.
        - assert (Hb : In b (with_key key (key b) (a :: r1))).
          { rewrite Heq, with_key_head. by left. }
          apply with_key_In in Hb as [[->|Hb] _]; [apply Qle_refl|].
          rewrite Forall_forall in Hall1. apply Hall1. by apply list_elem_of_In. }
      assert (Hhead := Heq (key a)).
      rewrite with_key_head in Hhead.
      unfold with_key in Hhead at 2. cbn [List.filter] in Hhead.
      apply Qeq_bool_iff in Hab as Hab'. rewrite Qeq_bool_comm in Hab'.
      rewrite Hab' in Hhead. injection Hhead as -> Htl.
      f_equal. apply IH; [exact Hs2|].
      intros c. specialize (Heq c). unfold with_key in *.
      cbn [List.filter] in Heq.
      destruct (Qeq_bool (key b) c); [by injection Heq|exact Heq].
Qed.

Lemma sorted_lookup_desc (l : list A) (i j : nat) (a b : A) :
  StronglySorted (desc key) l -> l !! i = Some a -> l !! j = Some b ->
  (i < j)%nat -> desc key a b.
Proof.
  intros Hs. revert i j.
  induction Hs as [|x xs Hs IH Hall]; intros i j Hi Hj Hij; [done|].
  destruct j as [|j]; [lia|]. cbn in Hj.
  destruct i as [|i]; cbn in Hi.
  - injection Hi as ->. rewrite Forall_forall in Hall. apply Hall.
    by eapply list_elem_of_lookup_2.
  - apply (IH i j); [done|done|lia].
Qed.

Lemma sorted_take (n : nat) (l : list A) :
  StronglySorted (desc key) l -> StronglySorted (desc key) (take n l).
Proof.
  intros Hs. revert n.
  induction Hs as [|x xs Hs IH Hall]; intros [|n]; cbn; try constructor.
  - apply IH.
  - eapply Forall_forall. intros y Hy. rewrite Forall_forall in Hall.
    apply Hall. eapply elem_of_take in Hy as (i & Hy & _).
    by eapply list_elem_of_lookup_2.
Qed.
End SortFacts.

(** ** Filter, sort and trim *)

Lemma survivors_filter_confident (st : Settings) (l : list Insight) :
  filter_confident st l = survivors (min_confidence_score st) l.
Proof.
  unfold filter_confident, survivors. apply List.filter_ext. intros i.
  unfold Qlt_bool. by rewrite negb_involutive.
Qed.

Lemma filter_confident_fixed (st : Settings) (l : list Insight) :
  Forall (fun i => (min_confidence_score st <= confidence i)%Q) l ->
  filter_confident st l = l.
Proof.
  induction 1 as [|x xs Hx _ IH]; [reflexivity|].
  unfold filter_confident in *. cbn [List.filter].
  apply Qle_bool_iff in Hx. by rewrite Hx, IH.
Qed.

Lemma filter_confident_Forall (st : Settings) (l : list Insight) :
  Forall (fun i => (min_confidence_score st <= confidence i)%Q) (filter_confident st l).
Proof.
  apply List.Forall_forall. intros x Hx.
  apply List.filter_In in Hx as [_ Hx]. by apply Qle_bool_iff.
Qed.

(** C4. The sequence a run returns and persists is: the insights whose
    confidence is at least the configured threshold (those strictly below
    are dropped), in the one arrangement that is in descending confidence
    order and keeps insights of equal confidence in their emission order,
    cut to its first [max_insights] elements; so of two insights of the
    result the one with the larger confidence stands first. *)
Theorem select_insights_ranked (st : Settings) (insights : list Insight) :
  (0 <= max_insights st)%Z ->
  let kept := survivors (min_confidence_score st) insights in
  (forall x, In x kept <->
             In x insights /\ (min_confidence_score st <= confidence x)%Q) /\
  (exists ranked, stable_desc_sort_of confidence kept ranked) /\
  (forall ranked, stable_desc_sort_of confidence kept ranked ->
     select_insights st insights = take (Z.to_nat (max_insights st)) ranked) /\
  (forall i j a b,
     select_insights st insights !! i = Some a ->
     select_insights st insights !! j = Some b ->
     (confidence b < confidence a)%Q -> (i < j)%nat).
Proof.
  intros Hmax kept.
  assert (Hsel : select_insights st insights
                 = take (Z.to_nat (max_insights st)) (sort_desc confidence kept)).
  { unfold select_insights. rewrite py_slice_to_nonneg by exact Hmax.
    by rewrite survivors_filter_confident. }
  split; [|split; [|split]].
  - intros x. unfold kept, survivors. rewrite List.filter_In, negb_true_iff.
    by rewrite Qlt_bool_false.
  - exists (sort_desc confidence kept). apply sort_desc_stable.
  - intros ranked (_ & Hsorted & Hkeys). rewrite Hsel. f_equal.
    apply (stable_sorted_unique confidence);
      [apply sort_desc_sorted | exact Hsorted |].
    intros c. by rewrite sort_desc_with_key, Hkeys.
  - intros i j a b Ha Hb Hlt. rewrite Hsel in Ha, Hb.
    pose proof (sorted_take confidence (Z.to_nat (max_insights st)) _
                  (sort_desc_sorted confidence kept)) as Hs.
    destruct (lt_eq_lt_dec i j) as [[Hij|Hij]|Hij]; [exact Hij| |].
    + subst j. rewrite Ha in Hb. injection Hb as ->.
      exfalso. exact (Qlt_irrefl _ Hlt).
    + pose proof (sorted_lookup_desc confidence _ j i b a Hs Hb Ha Hij) as Hd.
      unfold desc in Hd. exfalso. exact (Qlt_not_le _ _ Hlt Hd).
Qed.

(** C7. Filtering, sorting and trimming what has already been filtered,
    sorted and trimmed changes nothing. *)
Theorem select_insights_idempotent (st : Settings) (insights : list Insight) :
  (0 <= max_insights st)%Z ->
  select_insights st (select_insights st insights) = select_insights st insights.
Proof.
  intros Hmax. unfold select_insights at 1.
  assert (Hsel : select_insights st insights
                 = take (Z.to_nat (max_insights st))
                        (sort_desc confidence (filter_confident st insights))).
  { unfold select_insights. by rewrite py_slice_to_nonneg. }
  rewrite py_slice_to_nonneg by exact Hmax.
  rewrite filter_confident_fixed.
  - rewrite sort_desc_fixed.
    + rewrite Hsel at 1. rewrite take_take, Nat.min_id. by rewrite Hsel.
    + rewrite Hsel. apply sorted_take, sort_desc_sorted.
  - rewrite Hsel. apply Forall_take.
    eapply Permutation_Forall; [symmetry; apply sort_desc_perm|].
    apply filter_confident_Forall.
Qed.

(** ** The analysers *)

Lemma py_min_cap (a : Q) :
  (7 # 10 < a)%Q ->
  (7 # 10 < py_min (9 # 10) a)%Q /\ (py_min (9 # 10) a <= 9 # 10)%Q /\
  (py_min (9 # 10) a == Qmin a (9 # 10))%Q.
Proof.
  intros Ha. unfold py_min.
  destruct (Qlt_bool a (9 # 10)) eqn:E.
  - apply Qlt_bool_iff in E. split; [exact Ha|]. split; [by apply Qlt_le_weak|].
    symmetry. apply Q.min_l. by apply Qlt_le_weak.
  - apply Qlt_bool_false in E. split; [reflexivity|]. split; [apply Qle_refl|].
    symmetry. by apply Q.min_r.
Qed.

Lemma overview_confidence (df : DataFrame) :
  Forall (fun i => confidence i = 95 # 100) (_generate_overview_insights df).
Proof. repeat constructor. Qed.

Lemma statistical_confidence (rd : Render) (df : DataFrame) :
  Forall (fun i => confidence i = 8 # 10 \/ confidence i = 75 # 100)
         (_generate_statistical_insights rd df).
Proof.
  apply List.Forall_forall. intros i Hi.
  apply List.in_flat_map in Hi as (col & _ & Hi).
  unfold statistical_for_column in Hi.
  destruct (df_dropna df col) as [|first series]; [destruct Hi|].
  apply List.in_app_or in Hi as [Hi|Hi].
  - destruct (py_gt _ _); [|destruct Hi].
    destruct Hi as [<-|[]]. by left.
  - destruct (List.filter _ _) as [|o os]; [destruct Hi|].
    destruct Hi as [<-|[]]. by right.
Qed.

Lemma pattern_for_pair_confidence (rd : Render) (df : DataFrame) (ic1 jc2 : nat * string) :
  Forall (fun i => (7 # 10 < confidence i)%Q /\ (confidence i <= 9 # 10)%Q)
         (pattern_for_pair rd df ic1 jc2).
Proof.
  unfold pattern_for_pair.
  destruct (py_abs _) as [|a]; [constructor|].
  destruct (Qlt_bool (7 # 10) a) eqn:E; [|constructor].
  apply Qlt_bool_iff in E. destruct (py_min_cap a E) as (H1 & H2 & _).
  repeat constructor; assumption.
Qed.

Lemma pattern_confidence (rd : Render) (df : DataFrame) :
  Forall (fun i => (7 # 10 < confidence i)%Q /\ (confidence i <= 9 # 10)%Q)
         (_generate_pattern_insights rd df).
Proof.
  unfold _generate_pattern_insights.
  destruct (1 <? length (df_numeric df))%nat; [|constructor].
  apply List.Forall_forall. intros i Hi.
  apply List.in_flat_map in Hi as (ic1 & _ & Hi).
  apply List.in_flat_map in Hi as (jc2 & _ & Hi).
  pose proof (pattern_for_pair_confidence rd df ic1 jc2) as Hall.
  rewrite List.Forall_forall in Hall. by apply Hall.
Qed.

(** The loop of the quality stage raises exactly on a frame without rows
    that has a column; otherwise it collects what its body returns for each
    column. *)
Lemma quality_columns_eq (rd : Render) (total : nat) (missing : list (string * nat)) :
  quality_columns rd total missing
  = match total, missing with
    | 0%nat, _ :: _ => Raise "division by zero"
    | _, _ => Ok (flat_map (fun cc => returned (quality_for_column rd total cc)) missing)
    end.
Proof.
  destruct total as [|n].
  - by destruct missing.
  - induction missing as [|cc rest IH]; [reflexivity|].
    cbn [quality_columns flat_map]. rewrite IH. reflexivity.
Qed.

Lemma quality_confidence (rd : Render) (df : DataFrame) :
  Forall (fun i => confidence i = 9 # 10 \/ confidence i = 95 # 100)
         (returned (_generate_quality_insights rd df)).
Proof.
  assert (Hcols : Forall (fun i => confidence i = 9 # 10 \/ confidence i = 95 # 100)
                    (flat_map (fun cc => returned (quality_for_column rd (df_len df) cc))
                              (df_isnull_sum df))).
  { apply List.Forall_forall. intros i Hi.
    apply List.in_flat_map in Hi as (cc & _ & Hi).
    unfold quality_for_column in Hi.
    destruct (df_len df =? 0)%nat; [destruct Hi|]. cbn [returned] in Hi.
    destruct ((0 <? snd cc)%nat && _) in Hi; [|destruct Hi].
    destruct Hi as [<-|[]]. by left. }
  unfold _generate_quality_insights. rewrite quality_columns_eq.
  destruct (df_len df) as [|n] eqn:Hlen;
    [destruct (df_isnull_sum df) as [|cc rest]; [|constructor]|];
    (destruct (0 <? df_duplicated_sum df)%nat; cbn [returned]; [|exact Hcols];
     apply Forall_app; split; [exact Hcols|]; constructor; [by right|constructor]).
Qed.

(** C10. Every insight the four analysers produce has a confidence above
    0.7: 0.95 from the overview, 0.8 or 0.75 from the statistical stage, a
    value in (0.7, 0.9] from the pattern stage, 0.9 or 0.95 from the quality
    stage.  Hence with the default threshold 0.1 the filter keeps all of
    them. *)
Theorem stages_pass_default_filter (rd : Render) (df : DataFrame) :
  Forall (fun i => confidence i = 95 # 100) (_generate_overview_insights df) /\
  Forall (fun i => confidence i = 8 # 10 \/ confidence i = 75 # 100)
         (_generate_statistical_insights rd df) /\
  Forall (fun i => (7 # 10 < confidence i)%Q /\ (confidence i <= 9 # 10)%Q)
         (_generate_pattern_insights rd df) /\
  Forall (fun i => confidence i = 9 # 10 \/ confidence i = 95 # 100)
         (returned (_generate_quality_insights rd df)) /\
  Forall (fun i => (7 # 10 < confidence i)%Q) (stage_outputs rd df) /\
  min_confidence_score default_settings = 1 # 10 /\
  filter_confident default_settings (stage_outputs rd df) = stage_outputs rd df.
Proof.
  pose proof (overview_confidence df) as Ho.
  pose proof (statistical_confidence rd df) as Hs.
  pose proof (pattern_confidence rd df) as Hp.
  pose proof (quality_confidence rd df) as Hq.
  assert (Hall : Forall (fun i => (7 # 10 < confidence i)%Q) (stage_outputs rd df)).
  { unfold stage_outputs. repeat (apply Forall_app; split).
    - eapply Forall_impl; [exact Ho|]. intros i ->. reflexivity.
    - eapply Forall_impl; [exact Hs|]. intros i [-> | ->]; reflexivity.
    - eapply Forall_impl; [exact Hp|]. by intros i [H _].
    - eapply Forall_impl; [exact Hq|]. intros i [-> | ->]; reflexivity. }
  repeat split; try assumption.
  apply filter_confident_fixed.
  eapply Forall_impl; [exact Hall|]. intros i Hi. cbn.
  apply Qlt_le_weak. eapply Qlt_trans; [|exact Hi]. reflexivity.
Qed.

(** ** The pattern stage, pair by pair *)

Lemma enumerate_In {A : Type} (l : list A) (s k : nat) (x : A) :
  In (k, x) (enumerate s l) <-> (s <= k)%nat /\ l !! (k - s)%nat = Some x.
Proof.
  revert s. induction l as [|y ys IH]; intros s; cbn [enumerate].
  - split; [intros []|intros [_ H]; discriminate].
  - cbn [In]. rewrite IH. split.
    + intros [H|[Hle H]].
      * injection H as <- <-. split; [lia|]. by rewrite Nat.sub_diag.
      * split; [lia|]. replace (k - s)%nat with (S (k - S s)) by lia. exact H.
    + intros [Hle H]. destruct (decide (k = s)) as [->|Hne].
      * left. rewrite Nat.sub_diag in H. cbn in H. by injection H as ->.
      * right. split; [lia|].
        replace (k - s)%nat with (S (k - S s)) in H by lia. exact H.
Qed.

Lemma enumerate_fst {A : Type} (l : list A) (s : nat) :
  map fst (enumerate s l) = seq s (length l).
Proof.
  revert s. induction l as [|y ys IH]; intros s; [reflexivity|].
  cbn. by rewrite IH.
Qed.

(** A concatenation of duplicate-free blocks is duplicate-free when every
    element carries the index of its block and the indices are distinct. *)
Lemma NoDup_flat_map_tagged {X Y : Type} (idx : X -> nat) (tag : Y -> nat)
    (f : X -> list Y) (l : list X) :
  NoDup (map idx l) ->
  (forall x, In x l -> NoDup (f x)) ->
  (forall x y, In x l -> In y (f x) -> tag y = idx x) ->
  NoDup (flat_map f l).
Proof.
  induction l as [|x xs IH]; intros Hnd Hblock Htag; cbn; [constructor|].
  cbn in Hnd. apply NoDup_cons in Hnd as [Hx Hnd].
  apply NoDup_app. split; [apply Hblock; by left|]. split.
  - intros y Hy Hy'. apply list_elem_of_In in Hy, Hy'.
    apply List.in_flat_map in Hy' as (x' & Hx' & Hy').
    apply Hx. apply list_elem_of_In. apply List.in_map_iff.
    exists x'. split; [|exact Hx'].
    rewrite <- (Htag x' y) by (try right; assumption).
    apply Htag; [by left|exact Hy].
  - apply IH; [exact Hnd| |].
    + intros x' Hx'. apply Hblock. by right.
    + intros x' y Hx'. apply Htag. by right.
Qed.

Lemma Forall2_flat_map_In {X Y Z : Type} (R : Y -> Z -> Prop)
    (f : X -> list Y) (g : X -> list Z) (l : list X) :
  (forall x, In x l -> Forall2 R (f x) (g x)) ->
  Forall2 R (flat_map f l) (flat_map g l).
Proof.
  induction l as [|x xs IH]; intros H; cbn; [constructor|].
  apply Forall2_app; [apply H; by left|].
  apply IH. intros x' Hx'. apply H. by right.
Qed.

(** The test [abs(val) > 0.7] of the pattern stage. *)
Lemma strongly_correlated_iff (v : pyfloat) :
  py_gt (py_abs v) (7 # 10) = true <-> strongly_correlated v.
Proof.
  unfold strongly_correlated. destruct v as [|q]; cbn.
  - split; [discriminate|]. by intros (q & H & _).
  - rewrite Qlt_bool_iff. split.
    + intros H. by exists q.
    + intros (q' & H & Hq). by injection H as ->.
Qed.

Lemma pattern_for_pair_spec (rd : Render) (df : DataFrame) (i j : nat) (c1 c2 : string) :
  df_numeric df !! i = Some c1 -> df_numeric df !! j = Some c2 ->
  Forall2 (pattern_insight_of df)
    (if py_gt (py_abs (df_corr df i j)) (7 # 10) then [(i, j)] else [])
    (pattern_for_pair rd df (i, c1) (j, c2)).
Proof.
  intros Hi Hj. unfold pattern_for_pair. cbn [fst snd].
  destruct (df_corr df i j) as [|q] eqn:Hq; cbn; [constructor|].
  destruct (Qlt_bool (7 # 10) (Qabs q)) eqn:E; [|constructor].
  apply Qlt_bool_iff in E. destruct (py_min_cap _ E) as (_ & _ & Hmin).
  constructor; [|constructor].
  exists q, c1, c2. cbn. by rewrite Hq.
Qed.

(** C8. With fewer than two numeric columns the pattern stage emits
    nothing.  Otherwise its output corresponds, one to one and in order, to
    the pairs of positions [i < j] of numeric columns whose correlation is a
    number of magnitude above 0.7: the insight of such a pair has category
    [pattern], the two column names as [affected_columns] and the magnitude
    capped at 0.9 as confidence; for a correlation of magnitude 1 (as for
    [y = 2x]) that confidence is 0.9. *)
Theorem pattern_insights_spec (rd : Render) (df : DataFrame) :
  let numeric := df_numeric df in
  let out := _generate_pattern_insights rd df in
  ((length numeric < 2)%nat -> out = []) /\
  (exists pairs,
     NoDup pairs /\
     (forall i j, In (i, j) pairs <->
        (i < j < length numeric)%nat /\ strongly_correlated (df_corr df i j)) /\
     Forall2 (pattern_insight_of df) pairs out) /\
  (forall i j q c1 c2,
     (i < j)%nat -> numeric !! i = Some c1 -> numeric !! j = Some c2 ->
     df_corr df i j = Fin q -> (Qabs q == 1)%Q ->
     exists ins, In ins out /\ category ins = "pattern" /\
                 (confidence ins == 9 # 10)%Q /\ affected_columns ins = [c1; c2]).
Proof.
  intros numeric out.
  set (inner := fun ic1 : nat * string =>
         flat_map (fun jc2 : nat * string =>
                     if py_gt (py_abs (df_corr df (fst ic1) (fst jc2))) (7 # 10)
                     then [(fst ic1, fst jc2)] else [])
                  (enumerate (fst ic1 + 1) (drop (fst ic1 + 1) numeric))).
  set (pairs := if (1 <? length numeric)%nat
                then flat_map inner (enumerate 0 numeric) else []).
  assert (Hshort : (length numeric < 2)%nat -> out = []).
  { intros Hlen. unfold out, _generate_pattern_insights. fold numeric.
    destruct (1 <? length numeric)%nat eqn:E; [|reflexivity].
    apply Nat.ltb_lt in E. lia. }
  assert (Hmem : forall i j, In (i, j) pairs <->
             (i < j < length numeric)%nat /\ strongly_correlated (df_corr df i j)).
  { intros i j. unfold pairs.
    destruct (1 <? length numeric)%nat eqn:E.
    - rewrite List.in_flat_map. split.
      + intros ([i' c1] & Hi & Hin). unfold inner in Hin. cbn [fst] in Hin.
        apply List.in_flat_map in Hin as ([j' c2] & Hj & Hin). cbn [fst] in Hin.
        destruct (py_gt _ _) eqn:Hs; [|destruct Hin].
        destruct Hin as [Hin|[]]. injection Hin as -> ->.
        apply enumerate_In in Hj as [Hle Hj].
        rewrite lookup_drop in Hj. apply lookup_lt_Some in Hj.
        split; [lia|]. by apply strongly_correlated_iff.
      + intros [[Hij Hjn] Hs].
        destruct (lookup_lt_is_Some_2 numeric i) as [c1 Hc1]; [lia|].
        destruct (lookup_lt_is_Some_2 numeric j) as [c2 Hc2]; [lia|].
        exists (i, c1). split.
        * apply enumerate_In. split; [lia|]. by rewrite Nat.sub_0_r.
        * unfold inner. cbn [fst]. apply List.in_flat_map. exists (j, c2). split.
          -- apply enumerate_In. split; [lia|]. rewrite lookup_drop.
             by replace (i + 1 + (j - (i + 1)))%nat with j by lia.
          -- cbn [fst]. apply strongly_correlated_iff in Hs. rewrite Hs. by left.
    - apply Nat.ltb_ge in E. split; [intros []|]. intros [H _]. lia. }
  assert (Hrel : Forall2 (pattern_insight_of df) pairs out).
  { unfold pairs, out, _generate_pattern_insights. fold numeric.
    destruct (1 <? length numeric)%nat; [|constructor].
    apply Forall2_flat_map_In. intros [i c1] Hi.
    apply enumerate_In in Hi as [_ Hi]. rewrite Nat.sub_0_r in Hi.
    unfold inner. cbn [fst]. apply Forall2_flat_map_In. intros [j c2] Hj.
    apply enumerate_In in Hj as [Hle Hj]. rewrite lookup_drop in Hj.
    replace (i + 1 + (j - (i + 1)))%nat with j in Hj by lia. cbn [fst].
    by apply pattern_for_pair_spec. }
  split; [exact Hshort|]. split.
  - exists pairs. split; [|split; [exact Hmem|exact Hrel]].
    unfold pairs. destruct (1 <? length numeric)%nat; [|constructor].
    apply (NoDup_flat_map_tagged fst fst).
    + rewrite enumerate_fst. apply NoDup_seq.
    + intros [i c1] _. unfold inner. cbn [fst].
      apply (NoDup_flat_map_tagged fst snd).
      * rewrite enumerate_fst. apply NoDup_seq.
      * intros jc2 _. destruct (py_gt _ _); [|constructor].
        apply NoDup_singleton.
      * intros jc2 y _ Hy. destruct (py_gt _ _); [|destruct Hy].
        by destruct Hy as [<-|[]].
    + intros [i c1] y _ Hy. unfold inner in Hy. cbn [fst] in Hy.
      apply List.in_flat_map in Hy as (jc2 & _ & Hy).
      destruct (py_gt _ _); [|destruct Hy]. by destruct Hy as [<-|[]].
  - intros i j q c1 c2 Hij Hc1 Hc2 Hq Hone.
    assert (Hin : In (i, j) pairs).
    { apply Hmem. split.
      - split; [exact Hij|]. by apply lookup_lt_Some in Hc2.
      - exists q. split; [exact Hq|]. rewrite Hone. reflexivity. }
    apply list_elem_of_In, list_elem_of_lookup in Hin as [k Hk].
    destruct (Forall2_lookup_l _ _ _ _ _ Hrel Hk) as (ins & Hins & Hp).
    exists ins. split.
    { apply list_elem_of_In. by eapply list_elem_of_lookup_2. }
    destruct Hp as (q' & d1 & d2 & Hq' & Hd1 & Hd2 & Hcat & Hconf & Hcols).
    cbn [fst snd] in *. unfold numeric in *.
    rewrite Hq in Hq'. injection Hq' as <-.
    rewrite Hc1 in Hd1. injection Hd1 as <-.
    rewrite Hc2 in Hd2. injection Hd2 as <-.
    split; [exact Hcat|]. split; [|exact Hcols].
    rewrite Hconf, Hone. reflexivity.
Qed.

(** ** The hub *)

Lemma send_personal_message_eq (message : Message) (websocket : nat) (w : World) :
  send_personal_message message websocket w =
    (Ok tt, if decide (websocket ∈ closed_sockets w) then w
            else set_delivered (fun d => d ++ [(websocket, message)]) w).
Proof.
  unfold send_personal_message, try_except, send_text.
  by destruct (decide (websocket ∈ closed_sockets w)).
Qed.

(** C9. [send_personal_message] never raises and never touches the
    registry, whether or not the delivery succeeds; a failed delivery leaves
    the whole world as it was.  So [connect] raises only when [accept]
    does: with a socket that accepts, it returns and leaves the socket
    registered under the subject even if the acknowledgement cannot be
    delivered. *)
Theorem send_personal_message_swallows (message : Message) (websocket : nat)
    (file_id : string) (w : World) :
  (exists w', send_personal_message message websocket w = (Ok tt, w') /\
     active_connections w' = active_connections w /\
     (websocket ∈ closed_sockets w -> w' = w)) /\
  (fst (connect websocket file_id w) = Ok tt <-> websocket ∉ refused_sockets w) /\
  (websocket ∉ refused_sockets w ->
   exists s, active_connections (snd (connect websocket file_id w)) !! file_id = Some s
             /\ websocket ∈ s).
Proof.
  split; [|split].
  - rewrite send_personal_message_eq. eexists. split; [reflexivity|].
    destruct (decide (websocket ∈ closed_sockets w)); by split.
  - unfold connect, bind, accept, update_world.
    destruct (decide (websocket ∈ refused_sockets w)) as [Hr|Hr].
    + cbn. split; [discriminate|]. intros H. by destruct H.
    + rewrite send_personal_message_eq. by split.
  - intros Hr. unfold connect, bind, accept, update_world.
    destruct (decide (websocket ∈ refused_sockets w)) as [|_]; [done|].
    rewrite send_personal_message_eq. cbn [snd].
    match goal with
    | |- context [if ?c then ?a else set_delivered ?f ?a] =>
        replace (active_connections (if c then a else set_delivered f a))
          with (active_connections a) by (by destruct c)
    end.
    cbn. rewrite lookup_alter_eq.
    destruct (active_connections w !! file_id) as [s|] eqn:E.
    + rewrite E. cbn. exists (s ∪ {[websocket]}). split; [done|set_solver].
    + rewrite lookup_insert_eq. cbn. exists (∅ ∪ {[websocket]}).
      split; [done|set_solver].
Qed.

Lemma broadcast_attempt_eq (message : Message) (w : World) (failed : gset nat)
    (connection : nat) :
  broadcast_attempt message (w, failed) connection =
    if decide (connection ∈ closed_sockets w) then (w, failed ∪ {[connection]})
    else (set_delivered (fun d => d ++ [(connection, message)]) w, failed).
Proof.
  unfold broadcast_attempt, send_text. cbn [fst snd].
  by destruct (decide (connection ∈ closed_sockets w)).
Qed.

Lemma broadcast_attempts_spec (message : Message) (l : list nat)
    (w : World) (failed : gset nat) :
  let r := foldl (broadcast_attempt message) (w, failed) l in
  same_but_delivered w (fst r) /\
  forall c, c ∈ snd r <-> c ∈ failed \/ (c ∈ l /\ c ∈ closed_sockets w).
Proof.
  revert w failed. induction l as [|x xs IH]; intros w failed; cbn.
  - split; [by repeat split|]. intros c. set_solver.
  - rewrite broadcast_attempt_eq.
    destruct (decide (x ∈ closed_sockets w)) as [Hx|Hx].
    + destruct (IH w (failed ∪ {[x]})) as [Hsame Hset].
      split; [exact Hsame|]. intros c. rewrite Hset. set_solver.
    + destruct (IH (set_delivered (fun d => d ++ [(x, message)]) w) failed)
        as [Hsame Hset].
      split; [exact Hsame|]. intros c. rewrite Hset. cbn. set_solver.
Qed.

Lemma discard_loop_spec (file_id : string) (l : list nat) (w : World) :
  let w' := foldl (fun w connection =>
                     set_active_connections
                       (alter (fun s => s ∖ {[connection]}) file_id) w) w l in
  active_connections w' !! file_id
    = (fun s => s ∖ list_to_set l) <$> active_connections w !! file_id /\
  (forall k, k ≠ file_id -> active_connections w' !! k = active_connections w !! k) /\
  closed_sockets w' = closed_sockets w /\
  refused_sockets w' = refused_sockets w /\ delivered w' = delivered w /\
  db_rows w' = db_rows w /\ session w' = session w /\
  commit_faults w' = commit_faults w /\ trace w' = trace w /\
  needs_rollback w' = needs_rollback w.
Proof.
  revert w. induction l as [|x xs IH]; intros w; cbn.
  - split; [|by repeat split].
    destruct (active_connections w !! file_id) as [s|]; cbn; [|done].
    f_equal. set_solver.
  - destruct (IH (set_active_connections
                    (alter (fun s => s ∖ {[x]}) file_id) w))
      as (Hfid & Hother & Hrest).
    split; [|split; [|exact Hrest]].
    + rewrite Hfid. cbn. rewrite lookup_alter_eq.
      destruct (active_connections w !! file_id) as [s|]; cbn; [|done].
      f_equal. set_solver.
    + intros k Hk. rewrite (Hother k Hk). cbn. by rewrite lookup_alter_ne.
Qed.

Lemma broadcast_to_file_eq (file_id : string) (m : Message) (w : World) :
  broadcast_to_file file_id m w = (Ok tt, after_broadcast file_id m w).
Proof.
  unfold after_broadcast, broadcast_to_file, bind, update_world, get_world, ret.
  by destruct (active_connections (observe (EBroadcast file_id m) w) !! file_id).
Qed.

(** A broadcast adds itself to the trace, may deliver and may shrink the
    subscriber set of its subject; it touches nothing else. *)
Lemma after_broadcast_spec (file_id : string) (m : Message) (w : World) :
  let w' := after_broadcast file_id m w in
  trace w' = trace w ++ [EBroadcast file_id m] /\
  db_rows w' = db_rows w /\ session w' = session w /\
  commit_faults w' = commit_faults w /\
  needs_rollback w' = needs_rollback w /\
  closed_sockets w' = closed_sockets w /\
  refused_sockets w' = refused_sockets w /\
  active_connections w' !! file_id
    = (fun s => s ∖ closed_sockets w) <$> active_connections w !! file_id /\
  (forall k, k ≠ file_id -> active_connections w' !! k = active_connections w !! k).
Proof.
  unfold after_broadcast, broadcast_to_file, bind, update_world, get_world, ret.
  cbn [fst snd].
  destruct (active_connections (observe (EBroadcast file_id m) w) !! file_id)
    as [conns|] eqn:E; cbn [snd].
  - pose proof (broadcast_attempts_spec m (elements conns)
                  (observe (EBroadcast file_id m) w) ∅) as [Hsame Hset].
    cbn zeta in Hsame, Hset.
    destruct (foldl (broadcast_attempt m) (observe (EBroadcast file_id m) w, ∅)
                    (elements conns)) as [w1 failed].
    cbn [fst snd] in *.
    destruct Hsame as (Hac & Hcl & Hre & Hdb & Hse & Hcf & Htr & Hnr).
    pose proof (discard_loop_spec file_id (elements failed) w1)
      as (Hfid & Hother & Hcl' & Hre' & _ & Hdb' & Hse' & Hcf' & Htr' & Hnr').
    cbn zeta in *.
    rewrite Htr', Htr, Hdb', Hdb, Hse', Hse, Hcf', Hcf, Hcl', Hcl, Hre', Hre,
      Hnr', Hnr.
    repeat (split; [reflexivity|]). split.
    + rewrite Hfid, Hac. cbn in E. cbn. rewrite E. cbn. f_equal.
      apply set_eq. intros c. rewrite !elem_of_difference, elem_of_list_to_set,
        elem_of_elements, Hset, elem_of_elements. cbn. set_solver.
    + intros k Hk. by rewrite (Hother k Hk), Hac.
  - cbn in E. cbn. repeat (split; [reflexivity|]). split; [by rewrite E|done].
Qed.

(** ** The run, step by step *)

Lemma send_status_update_step (file_id status message : string) (progress : Q)
    (w : World) :
  exists w',
    send_status_update file_id status message progress w = (Ok tt, w') /\
    trace w' = trace w
               ++ [EBroadcast file_id (status_update file_id status message progress)] /\
    db_rows w' = db_rows w /\ session w' = session w /\
    commit_faults w' = commit_faults w /\
    needs_rollback w' = needs_rollback w.
Proof.
  exists (after_broadcast file_id (status_update file_id status message progress) w).
  split; [apply broadcast_to_file_eq|].
  pose proof (after_broadcast_spec file_id
                (status_update file_id status message progress) w) as H.
  cbv zeta in H. tauto.
Qed.

(** The quotients of the steps of a run are far from overflowing. *)
Lemma py_int_truediv_steps (k : nat) :
  (k <= 6)%nat -> py_int_truediv k 6 = Ok (binary64 (of_nat k / of_nat 6)).
Proof.
  intros Hk.
  do 7 (destruct k as [|k]; [vm_compute; reflexivity|]). lia.
Qed.

Lemma send_insight_progress_step (file_id label : string) (k found : nat) (w : World) :
  (k <= 6)%nat ->
  exists w',
    send_insight_progress file_id label 6 k found w = (Ok tt, w') /\
    trace w' = trace w ++ [EBroadcast file_id (progress_message file_id label k found)] /\
    db_rows w' = db_rows w /\ session w' = session w /\
    commit_faults w' = commit_faults w /\
    needs_rollback w' = needs_rollback w.
Proof.
  intros Hk.
  exists (after_broadcast file_id (progress_message file_id label k found) w).
  split.
  - unfold send_insight_progress. rewrite (py_int_truediv_steps k Hk).
    apply broadcast_to_file_eq.
  - pose proof (after_broadcast_spec file_id
                  (progress_message file_id label k found) w) as H.
    cbv zeta in H. tauto.
Qed.

Lemma send_insights_complete_step (rd : Render) (file_id : string) (n : nat) (t : Q)
    (w : World) :
  exists w',
    send_insights_complete rd file_id n t w = (Ok tt, w') /\
    trace w' = trace w ++ [EBroadcast file_id (complete_message rd file_id n t)] /\
    db_rows w' = db_rows w /\ session w' = session w /\
    commit_faults w' = commit_faults w /\
    needs_rollback w' = needs_rollback w.
Proof.
  exists (after_broadcast file_id (complete_message rd file_id n t) w).
  split; [apply broadcast_to_file_eq|].
  pose proof (after_broadcast_spec file_id (complete_message rd file_id n t) w) as H.
  cbv zeta in H. tauto.
Qed.

Lemma set_attr_step (f : FileRecord -> FileRecord) (w : World) :
  exists w',
    set_attr f w = (Ok tt, w') /\
    trace w' = trace w ++ [] /\
    db_rows w' = db_rows w /\ session w' = f <$> session w /\
    commit_faults w' = commit_faults w /\
    needs_rollback w' = needs_rollback w.
Proof.
  eexists. split; [reflexivity|]. cbn. by rewrite app_nil_r.
Qed.

(** In a session that wants no rollback, a commit writes the loaded record
    and lets the run go on, or raises and writes nothing. *)
Lemma db_commit_step (r : FileRecord) (w : World) :
  session w = Some r -> needs_rollback w = None ->
  match commit_faults w with
  | Some e :: rest =>
      exists w',
        db_commit w = (Raise e, w') /\
        trace w' = trace w ++ [ECommitFailed e] /\
        db_rows w' = db_rows w /\ session w' = Some r /\
        commit_faults w' = rest /\
        needs_rollback w' = Some e
  | faults =>
      exists w',
        db_commit w = (Ok tt, w') /\
        trace w' = trace w ++ [ECommit r] /\
        db_rows w' = <[id r := r]> (db_rows w) /\ session w' = Some r /\
        commit_faults w' = drop 1 faults /\
        needs_rollback w' = None
  end.
Proof.
  intros Hs Hn. unfold db_commit. rewrite Hn.
  destruct (commit_faults w) as [|[e|] rest] eqn:Hf; cbn; rewrite ?Hs;
    eexists; (split; [reflexivity|]); cbn; by rewrite ?Hf, ?Hn.
Qed.

(** In a session that wants a rollback, a commit raises and writes
    nothing. *)
Lemma db_commit_refused (e0 : string) (w : World) :
  needs_rollback w = Some e0 ->
  exists w',
    db_commit w = (Raise (pending_rollback_error e0), w') /\
    trace w' = trace w ++ [ECommitFailed (pending_rollback_error e0)] /\
    db_rows w' = db_rows w /\ session w' = session w /\
    commit_faults w' = commit_faults w /\
    needs_rollback w' = Some e0.
Proof.
  intros Hn. unfold db_commit. rewrite Hn.
  eexists. split; [reflexivity|]. by cbn.
Qed.

Section Control.
Context {A B : Type}.

Lemma protected_bind_ok (m : M A) (k : A -> M B) (h : string -> M B) (f : M unit)
    (w w' : World) (a : A) :
  m w = (Ok a, w') ->
  try_finally (try_except (bind m k) h) f w = try_finally (try_except (k a) h) f w'.
Proof. intros H. unfold try_finally, try_except, bind. by rewrite H. Qed.

Lemma protected_bind_raise (m : M A) (k : A -> M B) (h : string -> M B) (f : M unit)
    (w w' : World) (e : string) :
  m w = (Raise e, w') ->
  try_finally (try_except (bind m k) h) f w = try_finally (h e) f w'.
Proof. intros H. unfold try_finally, try_except, bind. by rewrite H. Qed.

Lemma bind_ok (m : M A) (k : A -> M B) (w w' : World) (a : A) :
  m w = (Ok a, w') -> bind m k w = k a w'.
Proof. intros H. unfold bind. by rewrite H. Qed.

Lemma bind_raise (m : M A) (k : A -> M B) (w w' : World) (e : string) :
  m w = (Raise e, w') -> bind m k w = (Raise e, w').
Proof. intros H. unfold bind. by rewrite H. Qed.
End Control.

(** The failure handler, in a session that wants no rollback. *)
Lemma run_except_spec (file_id e : string) (r : FileRecord) (w : World) :
  session w = Some r -> needs_rollback w = None ->
  exists w',
    run_except file_id e w = (Ok [], w') /\
    let a := failure_account file_id e r (trace w) (db_rows w) (commit_faults w) in
    trace w' = acc_effects a /\ db_rows w' = acc_rows a /\
    commit_faults w' = acc_faults a.
Proof.
  intros Hs Hn. unfold run_except.
  destruct (set_attr_step (with_processing_status "failed") w)
    as (w1 & E1 & T1 & D1 & S1 & C1 & N1).
  rewrite Hs in S1. cbn in S1. rewrite app_nil_r in T1. rewrite Hn in N1.
  pose proof (db_commit_step _ w1 S1 N1) as Hcommit.
  unfold failure_account. cbv zeta. rewrite C1 in Hcommit.
  destruct (commit_faults w) as [|[e'|] rest];
    destruct Hcommit as (w2 & E2 & T2 & D2 & S2 & C2 & N2);
    destruct (send_status_update_step file_id "failed" ("Analysis failed: " +:+ e) 0 w2)
      as (w3 & E3 & T3 & D3 & S3 & C3 & N3);
    exists w3.
  - split.
    + unfold bind at 1. unfold try_except.
      rewrite (bind_ok _ _ _ _ _ E1), E2.
      by rewrite (bind_ok _ _ _ _ _ E3).
    + cbn. rewrite T3, T2, T1, D3, D2, D1, C3, C2, <- app_assoc. by repeat split.
  - split.
    + unfold bind at 1. unfold try_except.
      rewrite (bind_ok _ _ _ _ _ E1), E2. cbn [ret].
      by rewrite (bind_ok _ _ _ _ _ E3).
    + cbn. rewrite T3, T2, T1, D3, D2, D1, C3, C2, <- app_assoc. by repeat split.
  - split.
    + unfold bind at 1. unfold try_except.
      rewrite (bind_ok _ _ _ _ _ E1), E2.
      by rewrite (bind_ok _ _ _ _ _ E3).
    + cbn. rewrite T3, T2, T1, D3, D2, D1, C3, C2, <- app_assoc. by repeat split.
Qed.

(** The failure handler, in a session that wants a rollback: its commit is
    refused, which it ignores. *)
Lemma run_except_refused (file_id e e0 : string) (w : World) :
  needs_rollback w = Some e0 ->
  exists w',
    run_except file_id e w = (Ok [], w') /\
    trace w' = trace w ++ [ECommitFailed (pending_rollback_error e0);
                           EBroadcast file_id (failed_message file_id e)] /\
    db_rows w' = db_rows w /\ commit_faults w' = commit_faults w.
Proof.
  intros Hn. unfold run_except.
  destruct (set_attr_step (with_processing_status "failed") w)
    as (w1 & E1 & T1 & D1 & S1 & C1 & N1).
  rewrite app_nil_r in T1. rewrite Hn in N1.
  destruct (db_commit_refused e0 w1 N1) as (w2 & E2 & T2 & D2 & S2 & C2 & N2).
  destruct (send_status_update_step file_id "failed" ("Analysis failed: " +:+ e) 0 w2)
    as (w3 & E3 & T3 & D3 & S3 & C3 & N3).
  exists w3. split.
  - unfold bind at 1. unfold try_except.
    rewrite (bind_ok _ _ _ _ _ E1), E2. cbn [ret].
    by rewrite (bind_ok _ _ _ _ _ E3).
  - rewrite T3, T2, T1, D3, D2, D1, C3, C2, <- app_assoc. by repeat split.
Qed.

Lemma failure_account_result (file_id e : string) (r : FileRecord)
    (pre : list Effect) (rows : gmap string FileRecord)
    (faults : list (option string)) :
  acc_result (failure_account file_id e r pre rows faults) = [].
Proof. unfold failure_account. by destruct faults as [|[e'|] rest]. Qed.

Lemma failure_account_prefix (file_id e : string) (r : FileRecord)
    (t pre : list Effect) (rows : gmap string FileRecord)
    (faults : list (option string)) :
  let a := failure_account file_id e r (t ++ pre) rows faults in
  let b := failure_account file_id e r pre rows faults in
  acc_effects a = t ++ acc_effects b /\
  acc_rows a = acc_rows b /\ acc_faults a = acc_faults b.
Proof.
  unfold failure_account.
  destruct faults as [|[e'|] rest]; cbn; by rewrite <- app_assoc.
Qed.

(** The end of a run whose [try] block raised [e] before any commit. *)
Lemma protected_failure (file_id e : string) (r : FileRecord) (w0 w : World)
    (pre : list Effect) (rows : gmap string FileRecord)
    (faults : list (option string)) :
  trace w = trace w0 ++ pre -> db_rows w = rows -> session w = Some r ->
  commit_faults w = faults -> needs_rollback w = None ->
  let a := failure_account file_id e r pre rows faults in
  exists w',
    try_finally (run_except file_id e) db_close w = (Ok (acc_result a), w') /\
    trace w' = trace w0 ++ acc_effects a /\
    db_rows w' = acc_rows a /\ commit_faults w' = acc_faults a /\
    session w' = None.
Proof.
  intros Htr Hdb Hse Hcf Hnr a.
  destruct (run_except_spec file_id e r w Hse Hnr) as (w1 & E & T & D & C).
  cbv zeta in T, D, C. rewrite Htr, Hdb, Hcf in T, D, C.
  destruct (failure_account_prefix file_id e r (trace w0) pre rows faults)
    as (Heff & Hrows & Hfaults).
  cbv zeta in Heff, Hrows, Hfaults. rewrite Heff in T. rewrite Hrows in D.
  rewrite Hfaults in C.
  exists (set_needs_rollback None (set_session (fun _ => None) w1)). split.
  - unfold try_finally, db_close, update_world. rewrite E.
    unfold a. by rewrite failure_account_result.
  - by cbn.
Qed.

(** The end of a run whose commit of the results raised [e]. *)
Lemma protected_refused (file_id e : string) (w0 w : World)
    (pre : list Effect) (rows : gmap string FileRecord)
    (faults : list (option string)) :
  trace w = trace w0 ++ pre ++ [ECommitFailed e] -> db_rows w = rows ->
  commit_faults w = faults -> needs_rollback w = Some e ->
  let a := refused_account file_id e pre rows faults in
  exists w',
    try_finally (run_except file_id e) db_close w = (Ok (acc_result a), w') /\
    trace w' = trace w0 ++ acc_effects a /\
    db_rows w' = acc_rows a /\ commit_faults w' = acc_faults a /\
    session w' = None.
Proof.
  intros Htr Hdb Hcf Hnr a.
  destruct (run_except_refused file_id e e w Hnr) as (w1 & E & T & D & C).
  exists (set_needs_rollback None (set_session (fun _ => None) w1)). split.
  - unfold try_finally, db_close, update_world. by rewrite E.
  - cbn. rewrite T, Htr, D, Hdb, C, Hcf, <- !app_assoc. by repeat split.
Qed.

(** One statement of the [try] block that succeeds: the run moves on, in a
    world of which only the store is remembered. *)
Ltac run_on step w0 :=
  let wn := fresh "wn" in
  let E0 := fresh "E" in
  let T0 := fresh "T" in
  let D0 := fresh "D" in
  let S0 := fresh "S" in
  let C0 := fresh "C" in
  let N0 := fresh "N" in
  destruct step as (wn & E0 & T0 & D0 & S0 & C0 & N0);
  rewrite (protected_bind_ok _ _ _ _ _ _ _ E0); cbv beta zeta;
  match goal with
  | H1 : trace w0 = _, H2 : db_rows w0 = _, H3 : session w0 = _,
    H4 : commit_faults w0 = _, H5 : needs_rollback w0 = _ |- _ =>
      rewrite H1 in T0; rewrite H2 in D0; rewrite H3 in S0; rewrite H4 in C0;
      rewrite H5 in N0;
      rewrite <- app_assoc in T0; cbn [app fmap option_fmap option_map] in T0, S0;
      clear E0 H1 H2 H3 H4 H5 w0;
      rename wn into wc; rename T0 into Htr; rename D0 into Hdb;
      rename S0 into Hse; rename C0 into Hcf; rename N0 into Hnr
  end.

Ltac broadcast_on :=
  match goal with
  | |- context [try_finally (try_except (bind (send_status_update ?f ?s ?m ?p) _) _) _ ?w0] =>
      run_on (send_status_update_step f s m p w0) w0
  | |- context [try_finally (try_except (bind (send_insight_progress ?f ?l 6 ?k ?n) _) _) _ ?w0] =>
      run_on (send_insight_progress_step f l k n w0 ltac:(lia)) w0
  end.

Ltac set_attr_on :=
  match goal with
  | |- context [try_finally (try_except (bind (set_attr ?f) _) _) _ ?w0] =>
      run_on (set_attr_step f w0) w0
  end.

(** The [try] block raises here. *)
Ltac raise_on :=
  match goal with
  | |- context [try_finally (try_except (bind (raise ?e) _) _) _ ?w0] =>
      rewrite (protected_bind_raise (raise e) _ _ _ w0 w0 e eq_refl);
      eapply protected_failure; eassumption
  end.

(** The [try] block yields a value here. *)
Ltac ret_on :=
  match goal with
  | |- context [try_finally (try_except (bind (ret ?a) _) _) _ ?w0] =>
      rewrite (protected_bind_ok (ret a) _ _ _ w0 w0 a eq_refl); cbv beta zeta
  end.

(** The run behaves as its hub-free account says, whatever the hub holds:
    it always returns, and its result, the effects it adds to the trace, the
    rows and the pending commit outcomes it leaves are those of
    [run_account]; the session is closed. *)
Lemma generate_insights_account (env : Env) (file_id : string) (w : World) :
  let a := run_account env file_id (db_rows w) (commit_faults w) in
  exists w',
    generate_insights_with_progress env file_id w = (Ok (acc_result a), w') /\
    trace w' = trace w ++ acc_effects a /\
    db_rows w' = acc_rows a /\
    commit_faults w' = acc_faults a /\
    session w' = None.
Proof.
  cbv zeta. unfold generate_insights_with_progress, run_account.
  unfold opening, progress_script, start_message, not_found_message.
  cbn [take map app].
  unfold bind at 1. unfold open_session, update_world.
  unfold bind at 1. unfold db_get. cbn [needs_rollback set_needs_rollback].
  change (db_rows (set_needs_rollback None (set_session (fun _ => None) w)))
    with (db_rows w).
  destruct (db_rows w !! file_id) as [file_record|] eqn:Hrow.
  2:{ match goal with
      | |- context [bind (send_status_update ?f ?s ?m ?p) _ ?w0] =>
          destruct (send_status_update_step f s m p w0)
            as (w1 & E1 & T1 & D1 & S1 & C1 & N1)
      end.
      rewrite (bind_ok _ _ _ _ _ E1).
      eexists. split; [reflexivity|]. by cbn. }
  match goal with
  | |- context [try_finally _ _ ?w0] => set (wc := w0)
  end.
  assert (Htr : trace wc = trace w ++ []) by (by rewrite app_nil_r).
  assert (Hdb : db_rows wc = db_rows w) by reflexivity.
  assert (Hse : session wc = Some file_record) by reflexivity.
  assert (Hcf : commit_faults wc = commit_faults w) by reflexivity.
  assert (Hnr : needs_rollback wc = None) by reflexivity.
  clearbody wc.
  unfold run_try, parse_file, _generate_overview_insights_async,
    _generate_statistical_insights_async, _generate_pattern_insights_async,
    _generate_quality_insights_async, run_stage.
  do 2 broadcast_on.
  destruct (read_dataset env (filepath file_record)) as [e|df]; [raise_on|ret_on].
  do 2 broadcast_on.
  destruct (stage_fault env Overview) as [e|]; [raise_on|ret_on].
  do 2 broadcast_on.
  destruct (stage_fault env Statistical) as [e|]; [raise_on|ret_on].
  broadcast_on.
  destruct (stage_fault env Pattern) as [e|]; [raise_on|ret_on].
  broadcast_on.
  destruct (stage_fault env Quality) as [e|]; [raise_on|].
  destruct (_generate_quality_insights (render env) df) as [quality|e];
    [ret_on|raise_on].
  cbn [app returned]. do 2 set_attr_on. rewrite ?app_nil_r in Htr.
  pose proof (db_commit_step _ wc Hse Hnr) as Hcommit. rewrite Hcf in Hcommit.
  destruct (commit_faults w) as [|[e|] rest].
  - destruct Hcommit as (w1 & E1 & T1 & D1 & S1 & C1 & N1).
    rewrite (protected_bind_ok _ _ _ _ _ _ _ E1). cbv beta zeta.
    match goal with
    | |- context [bind (send_insights_complete ?rd ?f ?n ?t) _] =>
        destruct (send_insights_complete_step rd f n t w1)
          as (w2 & E2 & T2 & D2 & S2 & C2 & N2)
    end.
    rewrite (protected_bind_ok _ _ _ _ _ _ _ E2). cbv beta.
    eexists. split; [reflexivity|]. cbn.
    rewrite T2, T1, Htr, D2, D1, Hdb, C2, C1, <- !app_assoc. by repeat split.
  - destruct Hcommit as (w1 & E1 & T1 & D1 & S1 & C1 & N1).
    rewrite (protected_bind_raise _ _ _ _ _ _ _ E1).
    rewrite Htr, <- app_assoc in T1. cbn [app] in T1. rewrite Hdb in D1.
    eapply (protected_refused file_id e w w1); eassumption.
  - destruct Hcommit as (w1 & E1 & T1 & D1 & S1 & C1 & N1).
    rewrite (protected_bind_ok _ _ _ _ _ _ _ E1). cbv beta zeta.
    match goal with
    | |- context [bind (send_insights_complete ?rd ?f ?n ?t) _] =>
        destruct (send_insights_complete_step rd f n t w1)
          as (w2 & E2 & T2 & D2 & S2 & C2 & N2)
    end.
    rewrite (protected_bind_ok _ _ _ _ _ _ _ E2). cbv beta.
    eexists. split; [reflexivity|]. cbn.
    rewrite T2, T1, Htr, D2, D1, Hdb, C2, C1, <- !app_assoc. by repeat split.
Qed.

(** ** What the account of a run shows *)

Lemma progress_steps_app (l k : list Effect) :
  progress_steps (l ++ k) = progress_steps l ++ progress_steps k.
Proof. unfold progress_steps. apply flat_map_app. Qed.

Lemma opening_progress (file_id : string) (c3 c5 c6 k : nat) :
  progress_steps (opening file_id c3 c5 c6 k) = take k step_numbers.
Proof.
  unfold opening, progress_script.
  do 7 (destruct k as [|k]; [reflexivity|]). by destruct k.
Qed.

Lemma opening_quiet (file_id : string) (c3 c5 c6 k : nat) :
  Forall quiet (opening file_id c3 c5 c6 k).
Proof.
  unfold opening. constructor; [by split|].
  apply Forall_map, Forall_take. unfold progress_script.
  repeat constructor.
Qed.

Lemma take_step_numbers_sorted (k : nat) :
  Sorted le (map fst (take k step_numbers)) /\
  Forall (fun p => (fst p <= snd p)%nat /\ snd p = 6%nat) (take k step_numbers).
Proof.
  unfold step_numbers.
  do 7 (destruct k as [|k];
        [cbn; split; repeat constructor; lia|]).
  destruct k; cbn; split; repeat constructor; lia.
Qed.

Lemma quiet_no_terminal_write (l : list Effect) :
  Forall quiet l -> List.filter is_terminal_write l = [].
Proof.
  induction 1 as [|x xs [_ Hx] _ IH]; [reflexivity|].
  cbn. rewrite IH. by destruct x.
Qed.

(** The shape of the account of a run over an existing record: either the
    run failed, and ends with one commit attempt and the failure broadcast
    (after the refused commit of the results, if that is what failed), or it
    completed, and ends with the commit of the results and the completion
    broadcast. *)
Lemma run_account_shape (env : Env) (file_id : string)
    (rows : gmap string FileRecord) (faults : list (option string))
    (file_record : FileRecord) :
  rows !! file_id = Some file_record ->
  let a := run_account env file_id rows faults in
  exists k pre,
    Forall quiet pre /\
    progress_steps pre = take k step_numbers /\
    ((exists e mid attempt,
        first_failure env file_record faults = Some e /\
        acc_result a = [] /\
        (mid = [] \/ exists e', mid = [ECommitFailed e'] /\ faults !! 0%nat = Some (Some e')) /\
        acc_effects a
          = pre ++ mid ++ [attempt; EBroadcast file_id (failed_message file_id e)] /\
        is_commit_attempt attempt = true /\
        marks_failure rows (acc_rows a) attempt /\
        (forall r, attempt = ECommit r ->
           id r = id file_record /\ insights r = insights file_record /\ mid = []) /\
        (first_commit_ok faults -> exists r, attempt = ECommit r /\ mid = []))
     \/
     (exists final r,
        first_failure env file_record faults = None /\
        first_commit_ok faults /\
        acc_result a = final /\
        r = with_processing_status "completed"
              (with_insights (Some final) file_record) /\
        acc_effects a
          = pre ++ [ECommit r;
                    EBroadcast file_id
                      (complete_message (render env) file_id (length final)
                         (elapsed env))] /\
        acc_rows a = <[id r := r]> rows)).
Proof.
  intros Hrow. cbv zeta. unfold run_account, first_failure. rewrite Hrow.
  assert (Hfail : forall e c3 c5 c6 k,
    exists k0 pre,
      Forall quiet pre /\ progress_steps pre = take k0 step_numbers /\
      ((exists e0 mid attempt,
          Some e = Some e0 /\
          acc_result (failure_account file_id e file_record
                        (opening file_id c3 c5 c6 k) rows faults) = [] /\
          (mid = [] \/ exists e', mid = [ECommitFailed e'] /\ faults !! 0%nat = Some (Some e')) /\
          acc_effects (failure_account file_id e file_record
                         (opening file_id c3 c5 c6 k) rows faults)
            = pre ++ mid ++ [attempt; EBroadcast file_id (failed_message file_id e0)] /\
          is_commit_attempt attempt = true /\
          marks_failure rows
            (acc_rows (failure_account file_id e file_record
                         (opening file_id c3 c5 c6 k) rows faults)) attempt /\
          (forall r, attempt = ECommit r ->
             id r = id file_record /\ insights r = insights file_record /\ mid = []) /\
          (first_commit_ok faults -> exists r, attempt = ECommit r /\ mid = []))
       \/ False)).
  { intros e c3 c5 c6 k. exists k, (opening file_id c3 c5 c6 k).
    split; [apply opening_quiet|]. split; [apply opening_progress|]. left.
    exists e, []. unfold failure_account.
    destruct faults as [|[e'|] rest]; cbn [acc_result acc_effects acc_rows app].
    - exists (ECommit (with_processing_status "failed" file_record)).
      split; [reflexivity|]. split; [reflexivity|]. split; [by left|].
      split; [reflexivity|]. split; [reflexivity|]. split; [by cbn|]. split.
      + intros r [= <-]. by split.
      + intros _. by eexists.
    - exists (ECommitFailed e').
      split; [reflexivity|]. split; [reflexivity|]. split; [by left|].
      split; [reflexivity|]. split; [reflexivity|]. split; [by cbn|]. split.
      + intros r. discriminate.
      + intros [].
    - exists (ECommit (with_processing_status "failed" file_record)).
      split; [reflexivity|]. split; [reflexivity|]. split; [by left|].
      split; [reflexivity|]. split; [reflexivity|]. split; [by cbn|]. split.
      + intros r [= <-]. by split.
      + intros _. by eexists. }
  assert (Hweaken : forall (P Q : Prop), P \/ False -> P \/ Q) by tauto.
  destruct (read_dataset env (filepath file_record)) as [e|df].
  { destruct (Hfail e 0%nat 0%nat 0%nat 1%nat) as (k & pre & H1 & H2 & H3).
    exists k, pre. split; [done|]. split; [done|]. by apply Hweaken. }
  cbv zeta.
  destruct (stage_fault env Overview) as [e|].
  { edestruct (Hfail e) as (k & pre & H1 & H2 & H3).
    exists k, pre. split; [done|]. split; [done|]. apply Hweaken, H3. }
  destruct (stage_fault env Statistical) as [e|].
  { edestruct (Hfail e) as (k & pre & H1 & H2 & H3).
    exists k, pre. split; [done|]. split; [done|]. apply Hweaken, H3. }
  destruct (stage_fault env Pattern) as [e|].
  { edestruct (Hfail e) as (k & pre & H1 & H2 & H3).
    exists k, pre. split; [done|]. split; [done|]. apply Hweaken, H3. }
  destruct (stage_fault env Quality) as [e|].
  { edestruct (Hfail e) as (k & pre & H1 & H2 & H3).
    exists k, pre. split; [done|]. split; [done|]. apply Hweaken, H3. }
  destruct (_generate_quality_insights (render env) df) as [quality|e].
  2:{ edestruct (Hfail e) as (k & pre & H1 & H2 & H3).
      exists k, pre. split; [done|]. split; [done|]. apply Hweaken, H3. }
  clear Hfail Hweaken.
  eexists 7%nat, (opening file_id _ _ _ 7).
  split; [apply opening_quiet|]. split; [apply opening_progress|].
  destruct faults as [|[e|] rest].
  - right. eexists _, _. by repeat split.
  - left. exists e, [ECommitFailed e], (ECommitFailed (pending_rollback_error e)).
    unfold refused_account. cbn [acc_result acc_effects acc_rows].
    split; [reflexivity|]. split; [reflexivity|].
    split; [right; by eexists|]. split; [reflexivity|].
    split; [reflexivity|]. split; [by cbn|]. split.
    + intros r. discriminate.
    + intros [].
  - right. eexists _, _. by repeat split.
Qed.

Lemma commit_attempt_no_progress (attempt : Effect) (file_id : string) (m : Message) :
  is_commit_attempt attempt = true -> is_terminal_message m = true ->
  progress_steps [attempt; EBroadcast file_id m] = [] /\
  is_terminal_broadcast attempt = false.
Proof.
  intros Ha Hm. destruct attempt; try discriminate; by destruct m.
Qed.

(** C1. The [current_step_num] values of the progress events of a run, in
    emission order, are an initial part of 1, 2, 3, 3, 4, 5, 6: they never
    decrease (3 is emitted twice, before and after the overview stage), and
    each comes with [total_steps = 6], which it does not exceed. *)
Theorem progress_steps_nondecreasing (env : Env) (file_id : string) (w : World) :
  exists tr k,
    trace (snd (generate_insights_with_progress env file_id w)) = trace w ++ tr /\
    progress_steps tr = take k step_numbers /\
    Sorted le (map fst (progress_steps tr)) /\
    Forall (fun p => (fst p <= snd p)%nat /\ snd p = 6%nat) (progress_steps tr).
Proof.
  destruct (generate_insights_account env file_id w) as (w' & Hrun & Htr & _).
  rewrite Hrun. cbn [snd].
  assert (Hk : exists k,
             progress_steps (acc_effects (run_account env file_id (db_rows w)
                                            (commit_faults w)))
             = take k step_numbers).
  { destruct (db_rows w !! file_id) as [file_record|] eqn:Hrow.
    - destruct (run_account_shape env file_id _ (commit_faults w) _ Hrow)
        as (k & pre & _ & Hpre & Hshape).
      exists k. cbv zeta in Hshape.
      destruct Hshape as [(e & mid & attempt & _ & _ & Hmid & -> & Hatt & _)
                         |(final & r & _ & _ & _ & _ & -> & _)].
      + rewrite !progress_steps_app, Hpre.
        destruct (commit_attempt_no_progress attempt file_id
                    (failed_message file_id e) Hatt eq_refl) as [-> _].
        destruct Hmid as [->|(e' & -> & _)]; cbn; by rewrite app_nil_r.
      + rewrite progress_steps_app, Hpre. cbn. by rewrite app_nil_r.
    - exists 0%nat. unfold run_account. by rewrite Hrow. }
  destruct Hk as [k Hk]. eexists _, k. split; [exact Htr|].
  split; [exact Hk|]. rewrite Hk. apply take_step_numbers_sorted.
Qed.

(** C1, as stated, fails: in a run that completes the step numbers are
    1, 2, 3, 3, 4, 5, 6, which is not strictly increasing. *)
Lemma progress_step_repeats :
  ~ Sorted lt (map fst (progress_steps
                 (trace (snd (generate_insights_with_progress sample_env "file-1"
                                triggered_world))))).
Proof.
  assert (H : map fst (progress_steps
                 (trace (snd (generate_insights_with_progress sample_env "file-1"
                                triggered_world))))
              = [1; 2; 3; 3; 4; 5; 6]%nat) by (vm_compute; reflexivity).
  rewrite H. clear H. intros Hs.
  apply Sorted_inv in Hs as [Hs _]. apply Sorted_inv in Hs as [Hs _].
  apply Sorted_inv in Hs as [_ Hs]. apply HdRel_inv in Hs. lia.
Qed.

(** C3. A run ends with the broadcast that tells how it ended, and nothing
    before that broadcast tells so; every commit of the run therefore comes
    before it.  A terminal status is written at most once: exactly once
    when the record exists and the first commit attempted does not raise,
    never when the record does not exist.  With a record, the effect just
    before the final broadcast is a commit attempt, and a completion
    broadcast follows the successful commit of status [completed]. *)
Theorem terminal_write_precedes_broadcast (env : Env) (file_id : string) (w : World) :
  exists tr pre m,
    trace (snd (generate_insights_with_progress env file_id w)) = trace w ++ tr /\
    tr = pre ++ [EBroadcast file_id m] /\
    is_terminal_message m = true /\
    Forall (fun e => is_terminal_broadcast e = false) pre /\
    (length (List.filter is_terminal_write tr) <= 1)%nat /\
    (db_rows w !! file_id = None -> List.filter is_commit_attempt tr = []) /\
    (db_rows w !! file_id <> None ->
       (exists pre' c, pre = pre' ++ [c] /\ is_commit_attempt c = true) /\
       (first_commit_ok (commit_faults w) ->
          length (List.filter is_terminal_write tr) = 1%nat)) /\
    (forall f s n t p x, m = insights_complete f s n t p x ->
       exists pre' r, pre = pre' ++ [ECommit r] /\ processing_status r = "completed").
Proof.
  destruct (generate_insights_account env file_id w) as (w' & Hrun & Htr & _).
  rewrite Hrun. cbn [snd]. cbv zeta in Htr.
  destruct (db_rows w !! file_id) as [file_record|] eqn:Hrow.
  2:{ unfold run_account in Htr. rewrite Hrow in Htr. cbn in Htr.
      exists [EBroadcast file_id (not_found_message file_id)], [],
             (not_found_message file_id).
      split; [exact Htr|]. split; [reflexivity|]. split; [reflexivity|].
      split; [constructor|]. split; [cbn; lia|]. split; [reflexivity|].
      split; [by intros []|]. discriminate. }
  destruct (run_account_shape env file_id _ (commit_faults w) _ Hrow)
    as (k & pre & Hquiet & _ & Hshape).
  cbv zeta in Hshape.
  pose proof (quiet_no_terminal_write pre Hquiet) as Hnone.
  destruct Hshape as [(e & mid & attempt & _ & _ & Hmid & Heff & Hatt & Hmark & _ & Hok)
                     |(final & r & _ & Hok & _ & -> & Heff & _)].
  - rewrite Heff in Htr.
    exists (pre ++ mid ++ [attempt; EBroadcast file_id (failed_message file_id e)]),
           (pre ++ mid ++ [attempt]), (failed_message file_id e).
    split; [exact Htr|]. split; [by rewrite <- !app_assoc|].
    split; [reflexivity|]. split.
    { apply Forall_app. split; [eapply Forall_impl; [exact Hquiet|]; by intros x [? _]|].
      apply Forall_app. split.
      - destruct Hmid as [->|(e' & -> & _)]; repeat constructor.
      - constructor; [|constructor]. by destruct attempt. }
    assert (Hcount : length (List.filter is_terminal_write
                        (pre ++ mid ++ [attempt;
                           EBroadcast file_id (failed_message file_id e)]))
                     = length (List.filter is_terminal_write [attempt])).
    { rewrite !List.filter_app, Hnone.
      destruct Hmid as [->|(e' & -> & _)]; cbn;
        destruct (is_terminal_write attempt); reflexivity. }
    split; [rewrite Hcount; cbn; destruct (is_terminal_write attempt); cbn; lia|].
    split; [intros [=]|]. split.
    + intros _. split.
      * exists (pre ++ mid), attempt. split; [by rewrite <- app_assoc|exact Hatt].
      * intros Hfirst. destruct (Hok Hfirst) as (r & -> & _).
        rewrite Hcount. cbn. destruct Hmark as [-> _]. reflexivity.
    + intros f s n t p x. discriminate.
  - rewrite Heff in Htr.
    eexists _, (pre ++ [ECommit _]), _.
    split; [exact Htr|]. split; [by rewrite <- app_assoc|].
    split; [reflexivity|]. split.
    { apply Forall_app. split; [eapply Forall_impl; [exact Hquiet|]; by intros x [? _]|].
      repeat constructor. }
    assert (Hcount : forall x y,
               is_terminal_write x = true -> is_terminal_write y = false ->
               length (List.filter is_terminal_write (pre ++ [x; y])) = 1%nat).
    { intros x y Hx Hy. rewrite List.filter_app, Hnone. cbn. by rewrite Hx, Hy. }
    split; [by rewrite Hcount|]. split; [intros [=]|]. split.
    + intros _. split; [by eexists _, _|]. intros _. by rewrite Hcount.
    + intros f s n t p x _. by eexists _, _.
Qed.

(** C3, as stated, fails: when the dataset cannot be read and the database
    refuses the commit of status [failed], the [failed] broadcast is sent
    although no terminal status has been written; the row still says
    [processing]. *)
Lemma failed_broadcast_without_write :
  let w' := snd (generate_insights_with_progress unreadable_env "file-1"
                   refusing_world) in
  length (List.filter is_terminal_write (trace w')) <> 1%nat /\
  last (trace w')
    = Some (EBroadcast "file-1"
              (failed_message "file-1" "Failed to parse file: File not found")) /\
  processing_status <$> db_rows w' !! "file-1" = Some "processing".
Proof. vm_compute. split; [discriminate|]. by split. Qed.

(** C2.  A run writes the insights of a record only together with status
    [completed], and never clears them: every record it commits carries
    either the insights the record had before the run, or status
    [completed] and the list the run returns.  So, whatever fails and
    whatever the database does with the commits: a record that does not end
    [completed] has the insights it had before the run, in particular none
    if it had none; and no other record changes. *)
Theorem failed_run_keeps_insights (env : Env) (file_id : string) (w : World)
    (file_record : FileRecord) :
  db_rows w !! file_id = Some file_record ->
  id file_record = file_id ->
  let out := generate_insights_with_progress env file_id w in
  let w' := snd out in
  (exists tr,
     trace w' = trace w ++ tr /\
     forall r, In (ECommit r) tr ->
       insights r = insights file_record \/
       (processing_status r = "completed" /\
        exists final, fst out = Ok final /\ insights r = Some final)) /\
  exists r,
    db_rows w' !! file_id = Some r /\
    (processing_status r ≠ "completed" -> insights r = insights file_record) /\
    (insights file_record = None -> insights_only_when_completed r) /\
    (forall k, k ≠ file_id -> db_rows w' !! k = db_rows w !! k).
Proof.
  intros Hrow Hid.
  destruct (generate_insights_account env file_id w) as (w' & Hrun & Htr & Hdb & _).
  rewrite Hrun. cbn [fst snd]. cbv zeta in *. rewrite Hdb, Htr. clear Hrun Hdb Htr w'.
  destruct (run_account_shape env file_id _ (commit_faults w) _ Hrow)
    as (k & pre & Hquiet & _ & Hshape).
  cbv zeta in Hshape.
  assert (Hpre : forall r, ~ In (ECommit r) pre).
  { intros r Hin. rewrite List.Forall_forall in Hquiet.
    destruct (Hquiet _ Hin) as [_ Hc]. discriminate. }
  destruct Hshape as [(e & mid & attempt & _ & _ & Hmid & Heff & _ & Hmark & Hatt & _)
                     |(final & r & _ & _ & Hres & -> & Heff & ->)].
  - split.
    + eexists. split; [reflexivity|]. intros r Hin. left.
      rewrite Heff in Hin.
      apply List.in_app_or in Hin as [Hin|Hin]; [by destruct (Hpre r)|].
      apply List.in_app_or in Hin as [Hin|Hin].
      { destruct Hmid as [->|(e' & -> & _)]; [destruct Hin|].
        destruct Hin as [Hin|[]]. discriminate. }
      destruct Hin as [->|[Hin|[]]]; [|discriminate].
      by destruct (Hatt r eq_refl) as (_ & Hins & _).
    + destruct attempt as [f m|r|e']; [destruct Hmark| |].
      * destruct (Hatt r eq_refl) as (Hidr & Hins & _).
        destruct Hmark as [Hstatus ->]. rewrite Hidr, Hid.
        exists r. split; [apply lookup_insert_eq|]. split; [done|]. split.
        -- intros Hnone _. by rewrite Hins.
        -- intros k' Hk. by rewrite lookup_insert_ne.
      * cbn in Hmark. rewrite Hmark. exists file_record.
        split; [exact Hrow|]. split; [done|]. split; [by intros Hnone _|done].
  - split.
    + eexists. split; [reflexivity|]. intros r Hin. rewrite Heff in Hin.
      apply List.in_app_or in Hin as [Hin|Hin]; [by destruct (Hpre r)|].
      destruct Hin as [[= <-]|[Hin|[]]]; [|discriminate].
      right. split; [reflexivity|]. exists final. by rewrite Hres.
    + cbn [id with_processing_status with_insights]. rewrite Hid.
      eexists. split; [apply lookup_insert_eq|]. split; [by cbn|]. split.
      * intros _ Hstatus. by cbn in Hstatus.
      * intros k' Hk. by rewrite lookup_insert_ne.
Qed.

(** A triggered file whose upload has gone: the run fails and the record,
    which had no insights, still has none. *)
Lemma failed_run_keeps_insights_witness :
  db_rows triggered_world !! "file-1" = Some processing_record /\
  id processing_record = "file-1" /\
  exists r,
    db_rows (snd (generate_insights_with_progress unreadable_env "file-1"
                    triggered_world)) !! "file-1" = Some r /\
    insights_only_when_completed r.
Proof.
  split; [reflexivity|]. split; [reflexivity|].
  destruct (failed_run_keeps_insights unreadable_env "file-1" triggered_world
              processing_record eq_refl eq_refl) as (_ & r & Hr & _ & Hinv & _).
  exists r. split; [exact Hr|]. by apply Hinv.
Defined.

(** C2, as stated, fails: a file that is processed to completion, triggered
    again and then fails (its upload has gone) ends with status [failed]
    and the insights of the first run. *)
Lemma rerun_leaves_stale_insights :
  exists r,
    db_rows rerun_world !! "file-1" = Some r /\
    processing_status r = "failed" /\
    ~ insights_only_when_completed r.
Proof.
  eexists. split; [vm_compute; reflexivity|]. split; [reflexivity|].
  intros H. specialize (H ltac:(discriminate)). discriminate.
Qed.

(** C5.  The run never raises.  When the dataset cannot be read, a stage
    raises or the commit of the results raises, with cause [e], the run
    returns the empty list, and the last two effects of the run are one
    attempt to commit status [failed] - written to the record's row, or
    refused and then ignored - and the broadcast of a [failed] status
    update whose message carries [e]. *)
Theorem run_never_raises (env : Env) (file_id : string) (w : World) :
  (exists res w', generate_insights_with_progress env file_id w = (Ok res, w')) /\
  (forall file_record e,
     db_rows w !! file_id = Some file_record ->
     first_failure env file_record (commit_faults w) = Some e ->
     exists w' pre attempt,
       generate_insights_with_progress env file_id w = (Ok [], w') /\
       trace w' = trace w ++ pre
                  ++ [attempt; EBroadcast file_id (failed_message file_id e)] /\
       is_commit_attempt attempt = true /\
       marks_failure (db_rows w) (db_rows w') attempt).
Proof.
  destruct (generate_insights_account env file_id w)
    as (w' & Hrun & Htr & Hdb & _).
  cbv zeta in *. split; [by eexists _, _|].
  intros file_record e Hrow Hfail.
  destruct (run_account_shape env file_id _ (commit_faults w) _ Hrow)
    as (k & pre & _ & _ & Hshape).
  cbv zeta in Hshape.
  destruct Hshape as [(e0 & mid & attempt & He & Hres & _ & Heff & Hatt & Hmark & _)
                     |(final & r & Hnone & _)]; [|congruence].
  rewrite Hfail in He. injection He as <-.
  exists w', (pre ++ mid), attempt.
  rewrite Hrun, Hres, Htr, Heff, Hdb, <- app_assoc. by repeat split.
Qed.

(** ** The registry *)

(** X1.  [connect] keeps the registry free of empty subscriber sets. *)
Lemma connect_preserves_registry (websocket : nat) (file_id : string) (w : World) :
  registry_wf (active_connections w) ->
  registry_wf (active_connections (snd (connect websocket file_id w))).
Proof.
  intros Hwf. unfold connect, bind, accept, update_world.
  destruct (decide (websocket ∈ refused_sockets w)) as [|_]; [exact Hwf|].
  rewrite send_personal_message_eq. cbn [snd].
  match goal with
  | |- context [if ?c then ?a else set_delivered ?f ?a] =>
      replace (active_connections (if c then a else set_delivered f a))
        with (active_connections a) by (by destruct c)
  end.
  cbn. intros k s Hk.
  destruct (decide (k = file_id)) as [->|Hne].
  - rewrite lookup_alter_eq in Hk.
    destruct (active_connections w !! file_id) as [s0|] eqn:E.
    + rewrite E in Hk. cbn in Hk. injection Hk as <-. set_solver.
    + rewrite lookup_insert_eq in Hk. cbn in Hk. injection Hk as <-. set_solver.
  - rewrite lookup_alter_ne in Hk by done.
    destruct (active_connections w !! file_id) as [s0|] eqn:E.
    + by eapply Hwf.
    + rewrite lookup_insert_ne in Hk by done. by eapply Hwf.
Qed.

(** X2.  [disconnect] keeps the registry free of empty subscriber sets: it deletes
    the entry of a subject whose last subscriber leaves. *)
Lemma disconnect_preserves_registry (websocket : nat) (file_id : string) (w : World) :
  registry_wf (active_connections w) ->
  registry_wf (active_connections (snd (disconnect websocket file_id w))).
Proof.
  intros Hwf. unfold disconnect, bind, get_world, update_world, ret.
  destruct (active_connections w !! file_id) as [s0|] eqn:E; [|exact Hwf].
  cbn. rewrite lookup_alter_eq, E. cbn.
  destruct (decide (s0 ∖ {[websocket]} = ∅)) as [Hempty|Hne]; cbn.
  - intros k s Hk. destruct (decide (k = file_id)) as [->|Hneq].
    + by rewrite lookup_delete_eq in Hk.
    + rewrite lookup_delete_ne, lookup_alter_ne in Hk by done. by eapply Hwf.
  - intros k s Hk. destruct (decide (k = file_id)) as [->|Hneq].
    + rewrite lookup_alter_eq, E in Hk. cbn in Hk. by injection Hk as <-.
    + rewrite lookup_alter_ne in Hk by done. by eapply Hwf.
Qed.

(** A broadcast to a subject all of whose subscribers are dead leaves the
    subject in the registry with an empty subscriber set. *)
Lemma broadcast_to_dead_subscribers (file_id : string) (m : Message) (w : World)
    (s : gset nat) :
  active_connections w !! file_id = Some s -> s ⊆ closed_sockets w ->
  active_connections (snd (broadcast_to_file file_id m w)) !! file_id = Some ∅.
Proof.
  intros Hs Hdead. rewrite broadcast_to_file_eq. cbn [snd].
  destruct (after_broadcast_spec file_id m w) as (_ & _ & _ & _ & _ & _ & _ & H & _).
  rewrite H, Hs. cbn. f_equal. set_solver.
Qed.

(** C6.  In a registry that maps its only subject to its only subscriber,
    whose connection is dead, a broadcast to the subject removes the
    subscriber and keeps the subject, now with an empty subscriber set;
    [disconnect] of the same subscriber removes the subject. *)
Theorem broadcast_leaves_empty_subscriber_set :
  let w' := snd (broadcast_to_file "file-1" (start_message "file-1")
                   dead_subscriber_world) in
  registry_wf (active_connections dead_subscriber_world) /\
  active_connections w' !! "file-1" = Some ∅ /\
  ~ registry_wf (active_connections w') /\
  active_connections (snd (disconnect 7 "file-1" dead_subscriber_world)) !! "file-1"
    = None.
Proof.
  cbv zeta.
  assert (Hempty : active_connections
                     (snd (broadcast_to_file "file-1" (start_message "file-1")
                             dead_subscriber_world)) !! "file-1" = Some ∅).
  { by apply (broadcast_to_dead_subscribers _ _ _ {[7%nat]}). }
  split; [|split; [exact Hempty|split]].
  - intros k s Hk. cbn in Hk. apply lookup_singleton_Some in Hk as [_ <-].
    set_solver.
  - intros Hwf. by apply (Hwf _ _ Hempty).
  - by vm_compute.
Qed.

(** ** Selection on the sample insights *)

(** With the default settings, on seven insights of which one is below the
    threshold and two pairs have equal confidence. *)
Lemma select_insights_ranked_witness :
  (0 <= max_insights default_settings)%Z /\
  select_insights default_settings sample_insights
  = take 5 (sort_desc confidence (survivors (1 # 10) sample_insights)).
Proof.
  split; [simpl; lia|].
  destruct (select_insights_ranked default_settings sample_insights)
    as (_ & _ & H & _); [simpl; lia|].
  apply H. apply sort_desc_stable.
Defined.

Lemma select_insights_idempotent_witness :
  (0 <= max_insights default_settings)%Z /\
  select_insights default_settings (select_insights default_settings sample_insights)
  = select_insights default_settings sample_insights.
Proof.
  split; [simpl; lia|].
  apply (select_insights_idempotent default_settings sample_insights). simpl. lia.
Defined.

(** With a negative [max_insights] the slice drops elements from the end
    instead of keeping a prefix of that length, and a second pass drops
    more. *)
Lemma select_insights_negative_bound :
  let st := {| max_insights := -1; min_confidence_score := 1 # 10 |} in
  map title (select_insights st sample_insights) = ["c"; "e"; "g"; "a"; "d"] /\
  map title (select_insights st (select_insights st sample_insights))
  = ["c"; "e"; "g"; "a"].
Proof. by vm_compute. Qed.

(** ** The registry on the sample hub *)

Lemma connect_preserves_registry_witness :
  registry_wf (active_connections dead_subscriber_world) /\
  registry_wf (active_connections (snd (connect 8 "file-2" dead_subscriber_world))).
Proof.
  assert (H : registry_wf (active_connections dead_subscriber_world)).
  { intros k s Hk. cbn in Hk. apply lookup_singleton_Some in Hk as [_ <-].
    set_solver. }
  split; [exact H|]. exact (connect_preserves_registry 8 "file-2" _ H).
Defined.

Lemma disconnect_preserves_registry_witness :
  registry_wf (active_connections dead_subscriber_world) /\
  registry_wf (active_connections (snd (disconnect 7 "file-1" dead_subscriber_world))).
Proof.
  assert (H : registry_wf (active_connections dead_subscriber_world)).
  { intros k s Hk. cbn in Hk. apply lookup_singleton_Some in Hk as [_ <-].
    set_solver. }
  split; [exact H|]. exact (disconnect_preserves_registry 7 "file-1" _ H).
Defined.

(* ===================================================================== *)
(** * Further properties of the hub *)
(* ===================================================================== *)

Lemma broadcast_attempts_delivered (message : Message) (l : list nat)
    (w : World) (failed : gset nat) :
  delivered (fst (foldl (broadcast_attempt message) (w, failed) l))
  = delivered w
    ++ map (fun x => (x, message))
         (List.filter (fun x => negb (bool_decide (x ∈ closed_sockets w))) l).
Proof.
  revert w failed. induction l as [|x xs IH]; intros w failed; cbn [foldl].
  - cbn. by rewrite app_nil_r.
  - rewrite broadcast_attempt_eq. cbn [List.filter].
    destruct (decide (x ∈ closed_sockets w)) as [Hx|Hx].
    + rewrite IH. by rewrite (bool_decide_eq_true_2 _ Hx).
    + rewrite IH. rewrite (bool_decide_eq_false_2 _ Hx). cbn.
      by rewrite <- app_assoc.
Qed.

Lemma after_broadcast_delivered (file_id : string) (m : Message) (w : World) :
  delivered (after_broadcast file_id m w)
  = delivered w
    ++ match active_connections w !! file_id with
       | Some conns =>
           map (fun x => (x, m))
             (List.filter (fun x => negb (bool_decide (x ∈ closed_sockets w)))
                (elements conns))
       | None => []
       end.
Proof.
  unfold after_broadcast, broadcast_to_file, bind, update_world, get_world, ret.
  cbn [fst snd].
  change (active_connections (observe (EBroadcast file_id m) w))
    with (active_connections w).
  destruct (active_connections w !! file_id) as [conns|]; cbn [snd].
  - pose proof (broadcast_attempts_delivered m (elements conns)
                  (observe (EBroadcast file_id m) w) ∅) as Hd.
    destruct (foldl (broadcast_attempt m) (observe (EBroadcast file_id m) w, ∅)
                    (elements conns)) as [w1 failed].
    cbn [fst snd] in *.
    pose proof (discard_loop_spec file_id (elements failed) w1)
      as (_ & _ & _ & _ & Hdel & _).
    cbv zeta in Hdel. by rewrite Hdel, Hd.
  - cbn. by rewrite app_nil_r.
Qed.

Lemma filter_socket_map (c : nat) (m : Message) (P : nat -> bool) (l : list nat) :
  NoDup l ->
  List.filter (fun p : nat * Message => Nat.eqb (fst p) c)
    (map (fun x => (x, m)) (List.filter P l))
  = if bool_decide (c ∈ l) && P c then [(c, m)] else [].
Proof.
  induction 1 as [|x xs Hx Hnd IH]; [reflexivity|].
  cbn [List.filter].
  destruct (decide (x = c)) as [->|Hne].
  - assert (Hout : List.filter (fun p : nat * Message => Nat.eqb (fst p) c)
                     (map (fun x => (x, m)) (List.filter P xs)) = []).
    { rewrite IH. by rewrite (bool_decide_eq_false_2 _ Hx). }
    rewrite bool_decide_eq_true_2 by (by left). cbn [andb].
    destruct (P c); cbn [map List.filter fst]; [|exact Hout].
    by rewrite Nat.eqb_refl, Hout.
  - assert (Hin : bool_decide (c ∈ x :: xs) = bool_decide (c ∈ xs)).
    { apply bool_decide_ext. rewrite elem_of_cons. naive_solver. }
    rewrite Hin, <- IH.
    destruct (P x); cbn [map List.filter fst]; [|reflexivity].
    apply Nat.eqb_neq in Hne. by rewrite Hne.
Qed.

Lemma NoDup_list_filter {A : Type} (f : A -> bool) (l : list A) :
  NoDup l -> NoDup (List.filter f l).
Proof.
  induction 1 as [|x xs Hx Hnd IH]; [constructor|].
  cbn. destruct (f x); [|exact IH].
  constructor; [|exact IH].
  intros Hin. apply Hx. apply list_elem_of_In in Hin.
  apply List.filter_In in Hin as [Hin _]. by apply list_elem_of_In.
Qed.

Lemma after_broadcast_inbox (file_id : string) (m : Message) (w : World) (c : nat) :
  inbox c (after_broadcast file_id m w)
  = inbox c w ++ (if live_subscriber c file_id w then [(c, m)] else []).
Proof.
  unfold inbox, live_subscriber. rewrite after_broadcast_delivered, List.filter_app.
  f_equal. destruct (active_connections w !! file_id) as [conns|]; [|reflexivity].
  rewrite filter_socket_map by apply NoDup_elements.
  assert (H : bool_decide (c ∈ elements conns) = bool_decide (c ∈ conns)).
  { apply bool_decide_ext. apply elem_of_elements. }
  by rewrite H.
Qed.

(** X4.  Fan-out: one broadcast delivers the message once to every subscriber of
    the subject whose connection is alive, whatever happens with the dead
    ones, which it removes from the subject; it delivers to no one else and
    leaves the other subjects alone. *)
Theorem broadcast_fan_out (file_id : string) (m : Message) (w : World)
    (conns : gset nat) :
  active_connections w !! file_id = Some conns ->
  let w' := snd (broadcast_to_file file_id m w) in
  fst (broadcast_to_file file_id m w) = Ok tt /\
  (exists order,
     order ≡ₚ elements (conns ∖ closed_sockets w) /\
     delivered w' = delivered w ++ map (fun x => (x, m)) order) /\
  active_connections w' !! file_id = Some (conns ∖ closed_sockets w) /\
  (forall k, k ≠ file_id ->
     active_connections w' !! k = active_connections w !! k).
Proof.
  intros Hconns. rewrite broadcast_to_file_eq. cbn [fst snd].
  split; [reflexivity|].
  destruct (after_broadcast_spec file_id m w)
    as (_ & _ & _ & _ & _ & _ & _ & Hfid & Hother).
  split; [|split; [by rewrite Hfid, Hconns|exact Hother]].
  rewrite after_broadcast_delivered, Hconns.
  exists (List.filter (fun x => negb (bool_decide (x ∈ closed_sockets w)))
            (elements conns)).
  split; [|reflexivity].
  apply NoDup_Permutation.
  - apply NoDup_list_filter, NoDup_elements.
  - apply NoDup_elements.
  - intros x. rewrite list_elem_of_In, List.filter_In, <- list_elem_of_In.
    rewrite elem_of_elements, elem_of_elements, elem_of_difference.
    rewrite negb_true_iff, bool_decide_eq_false. tauto.
Qed.

Lemma broadcast_fan_out_witness :
  active_connections mixed_hub_world !! "file-1" = Some {[1%nat; 2%nat; 7%nat]} /\
  active_connections
    (snd (broadcast_to_file "file-1" (start_message "file-1") mixed_hub_world))
    !! "file-1"
  = Some ({[1%nat; 2%nat; 7%nat]} ∖ closed_sockets mixed_hub_world).
Proof.
  assert (H : active_connections mixed_hub_world !! "file-1"
              = Some {[1%nat; 2%nat; 7%nat]}) by (vm_compute; reflexivity).
  split; [exact H|].
  exact (proj1 (proj2 (proj2
           (broadcast_fan_out "file-1" (start_message "file-1") mixed_hub_world
              _ H)))).
Defined.

(** ** The hub during a run *)

Lemma messages_of_app (l k : list Effect) :
  messages_of (l ++ k) = messages_of l ++ messages_of k.
Proof. unfold messages_of. apply flat_map_app. Qed.

Lemma hub_step_refl (file_id : string) (c : nat) (w w' : World) :
  active_connections w' = active_connections w ->
  closed_sockets w' = closed_sockets w ->
  refused_sockets w' = refused_sockets w ->
  delivered w' = delivered w ->
  (exists tr, trace w' = trace w ++ tr /\ messages_of tr = []
              /\ Forall (to_subject file_id) tr) ->
  hub_step file_id c w w'.
Proof.
  intros Hac Hcl Hre Hde (tr & Htr & Hmsg & Hto).
  split; [exact Hcl|]. split; [exact Hre|]. split; [by rewrite Hac|].
  split; [left; by rewrite Hac|]. split; [done|].
  exists tr. split; [exact Htr|]. split; [exact Hto|].
  unfold inbox. rewrite Hde, Hmsg. cbn. destruct (live_subscriber _ _ _);
    by rewrite app_nil_r.
Qed.

Lemma hub_step_live (file_id : string) (c : nat) (w w' : World) :
  hub_step file_id c w w' ->
  live_subscriber c file_id w' = live_subscriber c file_id w.
Proof.
  intros (Hcl & _ & _ & Hfid & _). unfold live_subscriber. rewrite Hcl.
  destruct Hfid as [-> | ->]; [reflexivity|].
  destruct (active_connections w !! file_id) as [s|]; [|reflexivity]. cbn.
  destruct (decide (c ∈ closed_sockets w)) as [Hc|Hc].
  - rewrite (bool_decide_eq_true_2 _ Hc). cbn. by rewrite !andb_false_r.
  - f_equal. apply bool_decide_ext. set_solver.
Qed.

Lemma hub_step_trans (file_id : string) (c : nat) (w1 w2 w3 : World) :
  hub_step file_id c w1 w2 -> hub_step file_id c w2 w3 ->
  hub_step file_id c w1 w3.
Proof.
  intros H12 H23. pose proof (hub_step_live _ _ _ _ H12) as Hlive.
  destruct H12 as (Hcl1 & Hre1 & Hoth1 & Hfid1 & Hnone1 & tr1 & Htr1 & Hto1 & Hin1).
  destruct H23 as (Hcl2 & Hre2 & Hoth2 & Hfid2 & Hnone2 & tr2 & Htr2 & Hto2 & Hin2).
  split; [congruence|]. split; [congruence|].
  split; [intros k Hk; by rewrite Hoth2, Hoth1|]. split.
  { rewrite Hcl1 in Hfid2.
    destruct Hfid1 as [E1|E1], Hfid2 as [E2|E2]; rewrite E2, E1; auto.
    right. destruct (active_connections w1 !! file_id) as [s|]; [|reflexivity].
    cbn. f_equal. set_solver. }
  split.
  { intros Hn. rewrite Hnone2, Hnone1; [done|done|].
    destruct Hfid1 as [E1|E1]; rewrite E1, Hn; reflexivity. }
  exists (tr1 ++ tr2). split; [by rewrite Htr2, Htr1, <- app_assoc|].
  split; [by apply Forall_app|].
  rewrite Hin2, Hin1, Hlive, messages_of_app, map_app.
  destruct (live_subscriber c file_id w1); by rewrite <- ?app_assoc, ?app_nil_r.
Qed.

Lemma respects_ret {A : Type} (file_id : string) (c : nat) (a : A) :
  respects_hub file_id c (ret a).
Proof.
  intros w. apply hub_step_refl; try reflexivity.
  exists []. by rewrite app_nil_r.
Qed.

Lemma respects_raise {A : Type} (file_id : string) (c : nat) (e : string) :
  respects_hub file_id c (@raise A e).
Proof.
  intros w. apply hub_step_refl; try reflexivity.
  exists []. by rewrite app_nil_r.
Qed.

Lemma respects_bind {A B : Type} (file_id : string) (c : nat)
    (m : M A) (k : A -> M B) :
  respects_hub file_id c m -> (forall a, respects_hub file_id c (k a)) ->
  respects_hub file_id c (bind m k).
Proof.
  intros Hm Hk w. specialize (Hm w). unfold bind.
  destruct (m w) as [[a|e] w1]; cbn [snd] in *; [|exact Hm].
  eapply hub_step_trans; [exact Hm|apply Hk].
Qed.

Lemma respects_try_except {A : Type} (file_id : string) (c : nat)
    (m : M A) (h : string -> M A) :
  respects_hub file_id c m -> (forall e, respects_hub file_id c (h e)) ->
  respects_hub file_id c (try_except m h).
Proof.
  intros Hm Hh w. specialize (Hm w). unfold try_except.
  destruct (m w) as [[a|e] w1]; cbn [snd] in *; [exact Hm|].
  eapply hub_step_trans; [exact Hm|apply Hh].
Qed.

Lemma respects_try_finally {A : Type} (file_id : string) (c : nat)
    (m : M A) (f : M unit) :
  respects_hub file_id c m -> respects_hub file_id c f ->
  respects_hub file_id c (try_finally m f).
Proof.
  intros Hm Hf w. specialize (Hm w). unfold try_finally.
  destruct (m w) as [r w1]. specialize (Hf w1).
  destruct (f w1) as [[u|e] w2]; cbn [snd] in *;
    eapply hub_step_trans; eassumption.
Qed.

Lemma respects_broadcast (file_id : string) (c : nat) (m : Message) :
  respects_hub file_id c (broadcast_to_file file_id m).
Proof.
  intros w. rewrite broadcast_to_file_eq. cbn [snd].
  destruct (after_broadcast_spec file_id m w)
    as (Htr & _ & _ & _ & _ & Hcl & Hre & Hfid & Hother).
  split; [exact Hcl|]. split; [exact Hre|]. split; [exact Hother|].
  split; [by right|]. split.
  { intros Hn. by rewrite after_broadcast_delivered, Hn, app_nil_r. }
  exists [EBroadcast file_id m]. split; [exact Htr|].
  split; [by repeat constructor|].
  rewrite after_broadcast_inbox. by destruct (live_subscriber c file_id w).
Qed.

Lemma respects_db_get (file_id : string) (c : nat) (k : string) :
  respects_hub file_id c (db_get k).
Proof.
  intros w. unfold db_get. destruct (needs_rollback w); cbn [snd];
    apply hub_step_refl; try reflexivity; exists []; by rewrite app_nil_r.
Qed.

Lemma respects_open_session (file_id : string) (c : nat) :
  respects_hub file_id c open_session.
Proof.
  intros w. apply hub_step_refl; try reflexivity.
  exists []. by rewrite app_nil_r.
Qed.

Lemma respects_db_close (file_id : string) (c : nat) :
  respects_hub file_id c db_close.
Proof.
  intros w. apply hub_step_refl; try reflexivity.
  exists []. by rewrite app_nil_r.
Qed.

Lemma respects_update_session (file_id : string) (c : nat)
    (f : option FileRecord -> option FileRecord) :
  respects_hub file_id c (update_world (set_session f)).
Proof.
  intros w. apply hub_step_refl; try reflexivity.
  exists []. by rewrite app_nil_r.
Qed.

Lemma respects_db_commit (file_id : string) (c : nat) :
  respects_hub file_id c db_commit.
Proof.
  intros w. unfold db_commit.
  destruct (needs_rollback w) as [e0|]; [|destruct (commit_faults w) as [|[e|] rest]];
    cbn [snd]; try destruct (session _) as [r|]; cbn [snd];
    apply hub_step_refl; try reflexivity;
    first [ by eexists [_]; repeat split; repeat constructor
          | exists []; by rewrite app_nil_r ].
Qed.

(** Whatever the surroundings decide, a run only broadcasts to its own
    subject and treats the hub as [hub_step] says. *)
Lemma generate_respects_hub (env : Env) (file_id : string) (c : nat) :
  respects_hub file_id c (generate_insights_with_progress env file_id).
Proof.
  assert (Hb : forall m, respects_hub file_id c (broadcast_to_file file_id m))
    by (intros m; apply respects_broadcast).
  assert (Hp : forall l k n, respects_hub file_id c
                               (send_insight_progress file_id l 6 k n)).
  { intros l k n. unfold send_insight_progress.
    destruct (py_int_truediv k 6); [apply Hb|apply respects_raise]. }
  assert (Hstage : forall s f df, respects_hub file_id c (run_stage env s f df)).
  { intros s f df. unfold run_stage.
    destruct (stage_fault env s); [apply respects_raise|apply respects_ret]. }
  assert (Hq : forall df, respects_hub file_id c
                            (_generate_quality_insights_async env df)).
  { intros df. unfold _generate_quality_insights_async.
    destruct (stage_fault env Quality); [apply respects_raise|].
    destruct (_generate_quality_insights _ _);
      [apply respects_ret|apply respects_raise]. }
  unfold generate_insights_with_progress.
  apply respects_bind; [apply respects_open_session|intros _].
  apply respects_bind; [apply respects_db_get|]. intros [file_record|].
  - apply respects_try_finally; [|apply respects_db_close].
    apply respects_try_except.
    + unfold run_try.
      repeat match goal with
        | |- respects_hub _ _ (bind _ _) => apply respects_bind; [|intros ?]
        | |- respects_hub _ _ (send_insight_progress _ _ _ _ _) => apply Hp
        | |- respects_hub _ _ (send_status_update _ _ _ _) => apply Hb
        | |- respects_hub _ _ (send_insights_complete _ _ _ _) => apply Hb
        | |- respects_hub _ _ (_generate_overview_insights_async _ _) => apply Hstage
        | |- respects_hub _ _ (_generate_statistical_insights_async _ _) => apply Hstage
        | |- respects_hub _ _ (_generate_pattern_insights_async _ _) => apply Hstage
        | |- respects_hub _ _ (_generate_quality_insights_async _ _) => apply Hq
        | |- respects_hub _ _ (set_attr _) => apply respects_update_session
        | |- respects_hub _ _ db_commit => apply respects_db_commit
        | |- respects_hub _ _ (ret _) => apply respects_ret
        | |- respects_hub _ _ (parse_file _ _) =>
            unfold parse_file; destruct (read_dataset _ _);
            [apply respects_raise|apply respects_ret]
        end.
    + intros e. unfold run_except.
      apply respects_bind; [|intros _; apply respects_bind;
                              [apply Hb|intros _; apply respects_ret]].
      apply respects_try_except; [|intros _; apply respects_ret].
      apply respects_bind; [apply respects_update_session|intros _].
      apply respects_db_commit.
  - apply respects_bind; [apply Hb|intros _].
    apply respects_bind; [apply respects_db_close|intros _].
    apply respects_ret.
Qed.

(** X5.  A socket that is registered under the subject, with a live connection,
    when a run starts receives exactly the messages the run broadcasts, in
    the order of the broadcasts, and is still registered when the run
    ends. *)
Theorem subscriber_receives_run (env : Env) (file_id : string) (c : nat) (w : World) :
  live_subscriber c file_id w = true ->
  let w' := snd (generate_insights_with_progress env file_id w) in
  let a := run_account env file_id (db_rows w) (commit_faults w) in
  inbox c w' = inbox c w ++ map (pair c) (messages_of (acc_effects a)) /\
  Forall (to_subject file_id) (acc_effects a) /\
  live_subscriber c file_id w' = true.
Proof.
  intros Hlive. cbv zeta.
  pose proof (generate_respects_hub env file_id c w) as Hstep.
  pose proof (hub_step_live _ _ _ _ Hstep) as Hlive'.
  destruct Hstep as (_ & _ & _ & _ & _ & tr & Htr & Hto & Hin).
  destruct (generate_insights_account env file_id w) as (w1 & Hrun & Htr1 & _).
  rewrite Hrun in *. cbn [snd] in *. cbv zeta in Htr1.
  rewrite Htr1 in Htr. apply app_inv_head in Htr. subst tr.
  rewrite Hlive in Hin. by rewrite Hlive', Hlive.
Qed.

Lemma subscriber_receives_run_witness :
  live_subscriber 1 "file-1" mixed_hub_world = true /\
  live_subscriber 1 "file-1"
    (snd (generate_insights_with_progress sample_env "file-1" mixed_hub_world))
  = true.
Proof.
  assert (H : live_subscriber 1 "file-1" mixed_hub_world = true)
    by (vm_compute; reflexivity).
  split; [exact H|].
  exact (proj2 (proj2 (subscriber_receives_run sample_env "file-1" 1
                         mixed_hub_world H))).
Defined.

(** X6.  A socket that is not a live subscriber of the run's subject - it is
    registered elsewhere, or nowhere, or its connection is dead - receives
    nothing from the run; the subscriber sets of the other subjects and the
    state of the sockets do not change. *)
Theorem bystander_receives_nothing (env : Env) (file_id : string) (c : nat)
    (w : World) :
  live_subscriber c file_id w = false ->
  let w' := snd (generate_insights_with_progress env file_id w) in
  inbox c w' = inbox c w /\
  (forall k, k ≠ file_id ->
     active_connections w' !! k = active_connections w !! k) /\
  closed_sockets w' = closed_sockets w /\
  refused_sockets w' = refused_sockets w.
Proof.
  intros Hlive. cbv zeta.
  destruct (generate_respects_hub env file_id c w)
    as (Hcl & Hre & Hoth & _ & _ & tr & _ & _ & Hin).
  rewrite Hlive, app_nil_r in Hin. by repeat split.
Qed.

Lemma bystander_receives_nothing_witness :
  live_subscriber 3 "file-1" mixed_hub_world = false /\
  inbox 3 (snd (generate_insights_with_progress sample_env "file-1" mixed_hub_world))
  = inbox 3 mixed_hub_world.
Proof.
  assert (H : live_subscriber 3 "file-1" mixed_hub_world = false)
    by (vm_compute; reflexivity).
  split; [exact H|].
  exact (proj1 (bystander_receives_nothing sample_env "file-1" 3
                  mixed_hub_world H)).
Defined.

(** X7.  A run for a subject nobody is subscribed to completes as any other and
    leaves the registry and the deliveries exactly as they were. *)
Theorem run_without_listeners (env : Env) (file_id : string) (w : World) :
  active_connections w !! file_id = None ->
  exists res w',
    generate_insights_with_progress env file_id w = (Ok res, w') /\
    active_connections w' = active_connections w /\
    delivered w' = delivered w.
Proof.
  intros Hnone.
  destruct (generate_respects_hub env file_id 0%nat w)
    as (_ & _ & Hoth & Hfid & Hdel & _).
  destruct (generate_insights_account env file_id w) as (w1 & Hrun & _).
  rewrite Hrun in *. cbn [snd] in *.
  eexists _, w1. split; [reflexivity|]. split; [|by apply Hdel].
  apply map_eq. intros k. destruct (decide (k = file_id)) as [->|Hne].
  - destruct Hfid as [-> | ->]; [reflexivity|]. by rewrite Hnone.
  - by apply Hoth.
Qed.

Lemma run_without_listeners_witness :
  active_connections triggered_world !! "file-1" = None /\
  exists res w',
    generate_insights_with_progress sample_env "file-1" triggered_world
    = (Ok res, w') /\
    active_connections w' = active_connections triggered_world /\
    delivered w' = delivered triggered_world.
Proof.
  assert (H : active_connections triggered_world !! "file-1" = None)
    by reflexivity.
  split; [exact H|].
  exact (run_without_listeners sample_env "file-1" triggered_world H).
Defined.

(** ** Subscribing and unsubscribing *)

Lemma connect_registry (websocket : nat) (file_id : string) (w : World) :
  websocket ∉ refused_sockets w ->
  active_connections (snd (connect websocket file_id w))
  = <[file_id := default ∅ (active_connections w !! file_id) ∪ {[websocket]}]>
      (active_connections w).
Proof.
  intros Hr. unfold connect, bind, accept, update_world.
  destruct (decide (websocket ∈ refused_sockets w)) as [|_]; [done|].
  rewrite send_personal_message_eq. cbn [snd].
  match goal with
  | |- context [if ?c then ?a else set_delivered ?f ?a] =>
      replace (active_connections (if c then a else set_delivered f a))
        with (active_connections a) by (by destruct c)
  end.
  cbn. apply map_eq. intros k.
  destruct (decide (k = file_id)) as [->|Hne].
  - rewrite lookup_alter_eq, lookup_insert_eq.
    destruct (active_connections w !! file_id) as [s|] eqn:E.
    + by rewrite E.
    + by rewrite lookup_insert_eq.
  - rewrite lookup_alter_ne, lookup_insert_ne by done.
    destruct (active_connections w !! file_id) as [s|] eqn:E; [done|].
    by rewrite lookup_insert_ne.
Qed.

Lemma disconnect_registry (websocket : nat) (file_id : string) (w : World) :
  active_connections (snd (disconnect websocket file_id w))
  = match active_connections w !! file_id with
    | Some s =>
        if decide (s ∖ {[websocket]} = ∅) then delete file_id (active_connections w)
        else <[file_id := s ∖ {[websocket]}]> (active_connections w)
    | None => active_connections w
    end.
Proof.
  unfold disconnect, bind, get_world, update_world, ret.
  destruct (active_connections w !! file_id) as [s|] eqn:E; [|reflexivity].
  cbn. rewrite lookup_alter_eq, E. cbn.
  destruct (decide (s ∖ {[websocket]} = ∅)) as [He|Hne]; cbn.
  - apply map_eq. intros k. destruct (decide (k = file_id)) as [->|Hk].
    + by rewrite !lookup_delete_eq.
    + by rewrite !lookup_delete_ne, lookup_alter_ne.
  - apply map_eq. intros k. destruct (decide (k = file_id)) as [->|Hk].
    + by rewrite lookup_alter_eq, lookup_insert_eq, E.
    + by rewrite lookup_alter_ne, lookup_insert_ne.
Qed.

(** X8.  [connect]: when the socket refuses the handshake the call raises and
    nothing at all has changed; otherwise it returns, the socket is added to
    the subscribers of the subject (created if need be), the other subjects
    keep their subscribers, nothing is broadcast, and the only delivery is
    the acknowledgement, to the connecting socket, if its connection is
    alive. *)
Theorem connect_effect (websocket : nat) (file_id : string) (w : World) :
  (websocket ∈ refused_sockets w ->
     connect websocket file_id w = (Raise "accept failed", w)) /\
  (websocket ∉ refused_sockets w ->
     let w' := snd (connect websocket file_id w) in
     fst (connect websocket file_id w) = Ok tt /\
     active_connections w'
     = <[file_id := default ∅ (active_connections w !! file_id) ∪ {[websocket]}]>
         (active_connections w) /\
     delivered w'
     = delivered w
       ++ (if decide (websocket ∈ closed_sockets w) then []
           else [(websocket,
                  connection_established file_id "Connected to real-time updates")]) /\
     trace w' = trace w /\ db_rows w' = db_rows w).
Proof.
  split.
  - intros Hr. unfold connect, bind, accept.
    by destruct (decide (websocket ∈ refused_sockets w)).
  - intros Hr. cbv zeta. split; [|split; [by apply connect_registry|]].
    + unfold connect, bind, accept, update_world.
      destruct (decide (websocket ∈ refused_sockets w)) as [|_]; [done|].
      by rewrite send_personal_message_eq.
    + unfold connect, bind, accept, update_world.
      destruct (decide (websocket ∈ refused_sockets w)) as [|_]; [done|].
      rewrite send_personal_message_eq. cbn [snd].
      change (closed_sockets (set_active_connections _ (set_active_connections _ w)))
        with (closed_sockets w).
      destruct (decide (websocket ∈ closed_sockets w)); cbn;
        by rewrite ?app_nil_r.
Qed.

(** X9.  Subscribing a socket that was not subscribed and unsubscribing it again
    gives back the registry one started from. *)
Theorem connect_disconnect_round_trip (websocket : nat) (file_id : string)
    (w : World) :
  registry_wf (active_connections w) ->
  websocket ∉ refused_sockets w ->
  (forall s, active_connections w !! file_id = Some s -> websocket ∉ s) ->
  active_connections
    (snd (disconnect websocket file_id (snd (connect websocket file_id w))))
  = active_connections w.
Proof.
  intros Hwf Hr Hfresh.
  rewrite disconnect_registry, connect_registry by exact Hr.
  rewrite lookup_insert_eq.
  destruct (active_connections w !! file_id) as [s|] eqn:E; cbn.
  - specialize (Hfresh s eq_refl).
    assert (Hs : (s ∪ {[websocket]}) ∖ {[websocket]} = s) by set_solver.
    rewrite Hs. destruct (decide (s = ∅)) as [->|_].
    + by destruct (Hwf _ _ E).
    + rewrite insert_insert_eq. by apply insert_id.
  - assert (Hs : (∅ ∪ {[websocket]}) ∖ {[websocket]} = (∅ : gset nat))
      by set_solver.
    rewrite Hs. destruct (decide (∅ = ∅)) as [_|]; [|done].
    by rewrite delete_insert_eq, delete_id.
Qed.

Lemma connect_disconnect_round_trip_witness :
  registry_wf (active_connections mixed_hub_world) /\
  (9%nat ∉ refused_sockets mixed_hub_world) /\
  active_connections
    (snd (disconnect 9 "file-3" (snd (connect 9 "file-3" mixed_hub_world))))
  = active_connections mixed_hub_world.
Proof.
  assert (Hwf : registry_wf (active_connections mixed_hub_world)).
  { intros k s Hk. cbn in Hk.
    apply lookup_insert_Some in Hk as [[_ <-]|[_ Hk]]; [set_solver|].
    apply lookup_singleton_Some in Hk as [_ <-]. set_solver. }
  assert (Hr : 9%nat ∉ refused_sockets mixed_hub_world) by set_solver.
  split; [exact Hwf|]. split; [exact Hr|].
  apply (connect_disconnect_round_trip 9 "file-3" mixed_hub_world Hwf Hr).
  intros s Hs. vm_compute in Hs. discriminate.
Defined.

(** X10.  [disconnect] never raises and touches nothing but the registry.
    Applied twice it does what it does once; on a registry without empty
    subscriber sets, a socket that is not subscribed to the subject (or a
    subject that is unknown) is ignored. *)
Theorem disconnect_tolerant (websocket : nat) (file_id : string) (w : World) :
  let w' := snd (disconnect websocket file_id w) in
  fst (disconnect websocket file_id w) = Ok tt /\
  delivered w' = delivered w /\ trace w' = trace w /\ db_rows w' = db_rows w /\
  active_connections (snd (disconnect websocket file_id w'))
  = active_connections w' /\
  (registry_wf (active_connections w) ->
   (forall s, active_connections w !! file_id = Some s -> websocket ∉ s) ->
   active_connections w' = active_connections w).
Proof.
  cbv zeta.
  assert (Hplain : fst (disconnect websocket file_id w) = Ok tt /\
                   delivered (snd (disconnect websocket file_id w)) = delivered w /\
                   trace (snd (disconnect websocket file_id w)) = trace w /\
                   db_rows (snd (disconnect websocket file_id w)) = db_rows w).
  { unfold disconnect, bind, get_world, update_world, ret.
    destruct (active_connections w !! file_id) as [s|] eqn:E; [|done].
    cbn. rewrite lookup_alter_eq, E. cbn.
    by destruct (decide (s ∖ {[websocket]} = ∅)). }
  destruct Hplain as (H1 & H2 & H3 & H4).
  split; [exact H1|]. split; [exact H2|]. split; [exact H3|]. split; [exact H4|].
  split.
  - rewrite (disconnect_registry websocket file_id (snd _)).
    rewrite (disconnect_registry websocket file_id w).
    destruct (active_connections w !! file_id) as [s|] eqn:E; [|by rewrite E].
    destruct (decide (s ∖ {[websocket]} = ∅)) as [He|Hne].
    + by rewrite lookup_delete_eq.
    + rewrite lookup_insert_eq.
      assert (Hs : (s ∖ {[websocket]}) ∖ {[websocket]} = s ∖ {[websocket]})
        by set_solver.
      rewrite Hs. destruct (decide (s ∖ {[websocket]} = ∅)); [done|].
      by rewrite insert_insert_eq.
  - intros Hwf Hfresh. rewrite disconnect_registry.
    destruct (active_connections w !! file_id) as [s|] eqn:E; [|done].
    specialize (Hfresh s eq_refl).
    assert (Hs : s ∖ {[websocket]} = s) by set_solver.
    rewrite Hs. destruct (decide (s = ∅)) as [->|_].
    + by destruct (Hwf _ _ E).
    + by apply insert_id.
Qed.

Lemma of_nat_ratio_bounds (k total : nat) :
  total ≠ 0%nat -> (k <= total)%nat ->
  (0 <= of_nat k / of_nat total)%Q /\ (of_nat k / of_nat total <= 1)%Q.
Proof.
  intros Htotal Hk. unfold of_nat.
  assert (Ht : (0 < inject_Z (Z.of_nat total))%Q).
  { change 0%Q with (inject_Z 0). rewrite <- Zlt_Qlt. lia. }
  split.
  - apply Qle_shift_div_l; [exact Ht|]. rewrite Qmult_0_l.
    change 0%Q with (inject_Z 0). rewrite <- Zle_Qle. lia.
  - apply Qle_shift_div_r; [exact Ht|]. rewrite Qmult_1_l.
    rewrite <- Zle_Qle. lia.
Qed.

(** A quotient of at most 1 is far from overflowing. *)
Lemma py_int_truediv_ratio (k total : nat) :
  total ≠ 0%nat -> (k <= total)%nat ->
  py_int_truediv k total = Ok (binary64 (of_nat k / of_nat total)).
Proof.
  intros Htotal Hk. unfold py_int_truediv.
  destruct (Nat.eqb_spec total 0) as [|_]; [done|].
  destruct (of_nat_ratio_bounds k total Htotal Hk) as [H0 H1].
  pose proof (binary64_mono _ _ H0 H1) as Hq.
  destruct (Qlt_bool max_binary64 (binary64 (of_nat k / of_nat total))) eqn:E;
    [|reflexivity].
  apply Qlt_bool_iff in E. exfalso.
  apply (Qlt_not_le _ _ E). eapply Qle_trans; [exact Hq|]. by vm_compute.
Qed.

(** X11.  [send_insight_progress] with [total_steps = 0] raises before anything is
    broadcast.  With another total and a step number that does not exceed
    it, it broadcasts one [insight_progress] event whose [progress] is the
    double the code computes: the quotient rounded, times 100, rounded
    again.  That number lies between 0 and 100, and is exactly 0 at step 0
    and exactly 100 at the last step. *)
Theorem send_insight_progress_percentage (file_id label : string)
    (k found : nat) (w : World) :
  send_insight_progress file_id label 0 k found w = (Raise "division by zero", w) /\
  (forall total, total ≠ 0%nat -> (k <= total)%nat ->
     exists p text,
       send_insight_progress file_id label total k found w
       = (Ok tt, after_broadcast file_id
                   (insight_progress file_id label total k p found text) w) /\
       p = float_mul (binary64 (of_nat k / of_nat total)) 100 /\
       (0 <= p)%Q /\ (p <= 100)%Q /\
       (k = total -> (p == 100)%Q) /\
       (k = 0%nat -> (p == 0)%Q)).
Proof.
  split; [reflexivity|].
  intros total Htotal Hk. unfold send_insight_progress.
  rewrite (py_int_truediv_ratio k total Htotal Hk).
  eexists _, _. split; [apply broadcast_to_file_eq|]. split; [reflexivity|].
  destruct (of_nat_ratio_bounds k total Htotal Hk) as [H0 H1].
  pose proof (binary64_nonneg _ H0) as Hq0.
  assert (Hq1 : (binary64 (of_nat k / of_nat total) <= 1)%Q).
  { eapply Qle_trans; [exact (binary64_mono _ _ H0 H1)|]. by vm_compute. }
  assert (Hnz : ~ (of_nat total == 0)%Q).
  { unfold of_nat, Qeq. cbn. lia. }
  unfold float_mul. repeat split.
  - apply binary64_nonneg. apply Qmult_le_0_compat; [exact Hq0|discriminate].
  - eapply Qle_trans.
    + apply (binary64_mono _ 100%Q).
      * apply Qmult_le_0_compat; [exact Hq0|discriminate].
      * rewrite <- (Qmult_1_l 100) at 2.
        apply Qmult_le_compat_r; [exact Hq1|discriminate].
    + by vm_compute.
  - intros ->.
    rewrite (binary64_comp (of_nat total / of_nat total) 1)
      by (field; exact Hnz).
    by vm_compute.
  - intros ->.
    rewrite (binary64_comp (of_nat 0 / of_nat total) 0)
      by (unfold of_nat; cbn; field; exact Hnz).
    by vm_compute.
Qed.

(** The percentage is not in general the exact ratio: step 1 of 6 is
    reported as 16.666666666666664, a little below 100 / 6. *)
Lemma progress_of_first_step :
  (float_mul (binary64 (of_nat 1 / of_nat 6)) 100
   == 2345624805922133 # 140737488355328)%Q /\
  (float_mul (binary64 (of_nat 1 / of_nat 6)) 100 < 100 / 6)%Q.
Proof. split; by vm_compute. Qed.

(** ** More on the account of a run *)

(** The cases of the account of a run over an existing record: a failure
    before the results are committed, the refusal of that commit, or
    completion. *)
Lemma run_account_cases (env : Env) (file_id : string)
    (rows : gmap string FileRecord) (faults : list (option string))
    (file_record : FileRecord) (P : Account -> Prop) :
  rows !! file_id = Some file_record ->
  (forall e c3 c5 c6 k,
     (c3 <= c5 <= c6)%nat ->
     first_failure env file_record faults = Some e ->
     P (failure_account file_id e file_record (opening file_id c3 c5 c6 k)
          rows faults)) ->
  (forall df c3 c5 c6,
     read_dataset env (filepath file_record) = inr df ->
     (c3 <= c5 <= c6)%nat ->
     let final := select_insights (settings env) (stage_outputs (render env) df) in
     let r := completed_record final file_record in
     (forall e rest,
        faults = Some e :: rest ->
        first_failure env file_record faults = Some e ->
        P (refused_account file_id e (opening file_id c3 c5 c6 7) rows rest)) /\
     (first_commit_ok faults ->
      first_failure env file_record faults = None ->
      P {| acc_result := final;
           acc_effects :=
             opening file_id c3 c5 c6 7
             ++ [ECommit r;
                 EBroadcast file_id
                   (complete_message (render env) file_id (length final)
                      (elapsed env))];
           acc_rows := <[id r := r]> rows;
           acc_faults := drop 1 faults |})) ->
  P (run_account env file_id rows faults).
Proof.
  intros Hrow Hfail Hdone. unfold run_account. rewrite Hrow.
  unfold first_failure in *.
  destruct (read_dataset env (filepath file_record)) as [e|df] eqn:Hread.
  { apply Hfail; [lia|reflexivity]. }
  cbv zeta.
  assert (Hlen : (length (_generate_overview_insights df)
                  <= length (_generate_overview_insights df
                             ++ _generate_statistical_insights (render env) df)
                  <= length ((_generate_overview_insights df
                              ++ _generate_statistical_insights (render env) df)
                             ++ _generate_pattern_insights (render env) df))%nat).
  { rewrite !length_app. lia. }
  destruct (stage_fault env Overview) as [e|]; [by apply Hfail|].
  destruct (stage_fault env Statistical) as [e|]; [by apply Hfail|].
  destruct (stage_fault env Pattern) as [e|]; [by apply Hfail|].
  destruct (stage_fault env Quality) as [e|]; [by apply Hfail|].
  specialize (Hdone df _ _ _ eq_refl Hlen). cbv zeta in Hdone.
  unfold completed_record, stage_outputs in Hdone.
  rewrite !app_assoc in Hdone.
  destruct (_generate_quality_insights (render env) df) as [quality|e];
    [|by apply Hfail].
  destruct Hdone as [Hrefused Hcompleted].
  destruct faults as [|[e|] rest].
  - by apply Hcompleted.
  - by apply Hrefused.
  - by apply Hcompleted.
Qed.

(** X12.  A run that meets no failure returns what the filter, the sort and the
    cut leave of the four stages' output, commits exactly that list with
    status [completed] to the record's row, and reports its length in the
    completion event, which is the last effect of the run.  With a
    non-negative [max_insights] the list is no longer than that. *)
Theorem completed_run (env : Env) (file_id : string) (w : World)
    (file_record : FileRecord) (df : DataFrame) :
  db_rows w !! file_id = Some file_record ->
  id file_record = file_id ->
  read_dataset env (filepath file_record) = inr df ->
  first_failure env file_record (commit_faults w) = None ->
  let final := select_insights (settings env) (stage_outputs (render env) df) in
  exists w' pre,
    generate_insights_with_progress env file_id w = (Ok final, w') /\
    db_rows w' = <[file_id := completed_record final file_record]> (db_rows w) /\
    trace w' = trace w ++ pre
               ++ [ECommit (completed_record final file_record);
                   EBroadcast file_id
                     (complete_message (render env) file_id (length final)
                        (elapsed env))] /\
    ((0 <= max_insights (settings env))%Z ->
     (length final <= Z.to_nat (max_insights (settings env)))%nat).
Proof.
  intros Hrow Hid Hread Hnone. cbv zeta.
  destruct (generate_insights_account env file_id w)
    as (w' & Hrun & Htr & Hdb & _).
  cbv zeta in *. revert Hrun Htr Hdb.
  apply (run_account_cases env file_id (db_rows w) (commit_faults w) file_record);
    [exact Hrow|congruence|].
  intros df' c3 c5 c6 Hread' _. rewrite Hread in Hread'. injection Hread' as <-.
  cbv zeta. split; [congruence|].
  intros _ _. cbn [acc_result acc_effects acc_rows]. intros Hrun Htr Hdb.
  exists w', (opening file_id c3 c5 c6 7).
  split; [exact Hrun|]. split.
  { rewrite Hdb. unfold completed_record at 1. cbn [id with_processing_status
      with_insights]. by rewrite Hid. }
  split; [exact Htr|].
  intros Hmax. unfold select_insights. rewrite py_slice_to_nonneg by exact Hmax.
  rewrite length_take. lia.
Qed.

Lemma completed_run_witness :
  db_rows triggered_world !! "file-1" = Some processing_record /\
  exists w', fst (generate_insights_with_progress sample_env "file-1" triggered_world)
             = Ok (select_insights default_settings
                     (stage_outputs sample_render sample_dataset)) /\
             db_rows w' !! "file-1"
             = Some (completed_record
                       (select_insights default_settings
                          (stage_outputs sample_render sample_dataset))
                       processing_record).
Proof.
  split; [reflexivity|].
  destruct (completed_run sample_env "file-1" triggered_world processing_record
              sample_dataset eq_refl eq_refl eq_refl eq_refl)
    as (w' & pre & Hrun & Hdb & _).
  exists w'. split; [by rewrite Hrun|].
  rewrite Hdb. apply lookup_insert_eq.
Defined.

(** X13.  Whatever happens, a run leaves the rows of the other subjects alone,
    and of its own record it changes at most [insights] and
    [processing_status], the latter only to [completed] or [failed]; it
    closes its session. *)
Theorem run_touches_only_its_record (env : Env) (file_id : string) (w : World)
    (file_record : FileRecord) :
  db_rows w !! file_id = Some file_record ->
  id file_record = file_id ->
  let w' := snd (generate_insights_with_progress env file_id w) in
  (exists r,
     db_rows w' !! file_id = Some r /\ same_file file_record r /\
     (r = file_record \/ processing_status r = "completed"
      \/ processing_status r = "failed")) /\
  (forall k, k ≠ file_id -> db_rows w' !! k = db_rows w !! k) /\
  session w' = None.
Proof.
  intros Hrow Hid. cbv zeta.
  destruct (generate_insights_account env file_id w)
    as (w' & Hrun & _ & Hdb & _ & Hse).
  rewrite Hrun. cbn [snd]. cbv zeta in Hdb. rewrite Hdb. clear Hrun Hdb.
  enough (Hgoal :
            (exists r,
               acc_rows (run_account env file_id (db_rows w) (commit_faults w))
                 !! file_id = Some r /\ same_file file_record r /\
               (r = file_record \/ processing_status r = "completed"
                \/ processing_status r = "failed")) /\
            (forall k, k ≠ file_id ->
               acc_rows (run_account env file_id (db_rows w) (commit_faults w)) !! k
               = db_rows w !! k))
    by (destruct Hgoal; by repeat split).
  clear w' Hse.
  assert (Hfail : forall e r pre faults,
            same_file file_record r ->
            (exists r',
               acc_rows (failure_account file_id e r pre (db_rows w) faults)
                 !! file_id = Some r' /\ same_file file_record r' /\
               (r' = file_record \/ processing_status r' = "completed"
                \/ processing_status r' = "failed")) /\
            (forall k, k ≠ file_id ->
               acc_rows (failure_account file_id e r pre (db_rows w) faults) !! k
               = db_rows w !! k)).
  { intros e r pre faults (Hi & Hn & Hp). unfold failure_account.
    destruct faults as [|[e'|] rest]; cbn [acc_rows id with_processing_status].
    - rewrite Hi, Hid. split.
      + eexists. split; [apply lookup_insert_eq|]. split; [by repeat split|].
        right. by right.
      + intros k Hk. by rewrite lookup_insert_ne.
    - split; [|done]. exists file_record. split; [exact Hrow|].
      split; [by repeat split|by left].
    - rewrite Hi, Hid. split.
      + eexists. split; [apply lookup_insert_eq|]. split; [by repeat split|].
        right. by right.
      + intros k Hk. by rewrite lookup_insert_ne. }
  apply (run_account_cases env file_id (db_rows w) (commit_faults w) file_record);
    [exact Hrow| |].
  - intros e c3 c5 c6 k _ _. by apply Hfail.
  - intros df c3 c5 c6 _ _. cbv zeta. split.
    + intros e rest _ _. cbn [acc_rows refused_account]. split; [|done].
      exists file_record. split; [exact Hrow|]. split; [by repeat split|by left].
    + intros _ _. cbn [acc_rows completed_record id with_processing_status
                         with_insights]. rewrite Hid. split.
      * eexists. split; [apply lookup_insert_eq|]. split; [by repeat split|].
        right. by left.
      * intros k Hk. by rewrite lookup_insert_ne.
Qed.

Lemma run_touches_only_its_record_witness :
  db_rows refusing_world !! "file-1" = Some processing_record /\
  id processing_record = "file-1" /\
  session (snd (generate_insights_with_progress unreadable_env "file-1"
                  refusing_world)) = None.
Proof.
  split; [reflexivity|]. split; [reflexivity|].
  exact (proj2 (proj2 (run_touches_only_its_record unreadable_env "file-1"
                         refusing_world processing_record eq_refl eq_refl))).
Defined.

(** X14.  A run for an identifier without a record returns the empty list, tells
    the subscribers once that the file was not found, and neither commits
    nor changes any row or pending commit outcome. *)
Theorem run_on_unknown_file (env : Env) (file_id : string) (w : World) :
  db_rows w !! file_id = None ->
  exists w',
    generate_insights_with_progress env file_id w = (Ok [], w') /\
    trace w' = trace w ++ [EBroadcast file_id
                             (status_update file_id "failed"
                                "File not found; aborting insights" 0)] /\
    db_rows w' = db_rows w /\ commit_faults w' = commit_faults w /\
    session w' = None.
Proof.
  intros Hrow.
  destruct (generate_insights_account env file_id w)
    as (w' & Hrun & Htr & Hdb & Hcf & Hse).
  cbv zeta in *. unfold run_account in *. rewrite Hrow in *.
  by exists w'.
Qed.

Lemma run_on_unknown_file_witness :
  db_rows triggered_world !! "file-9" = None /\
  exists w',
    generate_insights_with_progress sample_env "file-9" triggered_world = (Ok [], w') /\
    db_rows w' = db_rows triggered_world.
Proof.
  assert (H : db_rows triggered_world !! "file-9" = None) by (vm_compute; reflexivity).
  split; [exact H|].
  destruct (run_on_unknown_file sample_env "file-9" triggered_world H)
    as (w' & Hrun & _ & Hdb & _).
  by exists w'.
Defined.

Lemma found_counts_app (l k : list Effect) :
  found_counts (l ++ k) = found_counts l ++ found_counts k.
Proof. unfold found_counts. apply flat_map_app. Qed.

Lemma opening_found (file_id : string) (c3 c5 c6 k : nat) :
  found_counts (opening file_id c3 c5 c6 k)
  = take k [0; 0; 0; c3; c3; c5; c6]%nat.
Proof.
  unfold opening, progress_script.
  do 7 (destruct k as [|k]; [reflexivity|]). by destruct k.
Qed.

Lemma take_counts_sorted (c3 c5 c6 k : nat) :
  (c3 <= c5 <= c6)%nat -> Sorted le (take k [0; 0; 0; c3; c3; c5; c6]%nat).
Proof.
  intros Hc.
  do 7 (destruct k as [|k]; [cbn; repeat constructor; lia|]).
  destruct k; cbn; repeat constructor; lia.
Qed.

Lemma failure_account_found (file_id e : string) (r : FileRecord)
    (pre : list Effect) (rows : gmap string FileRecord)
    (faults : list (option string)) :
  found_counts (acc_effects (failure_account file_id e r pre rows faults))
  = found_counts pre.
Proof.
  unfold failure_account.
  destruct faults as [|[e'|] rest]; cbn [acc_effects];
    rewrite found_counts_app; cbn; by rewrite app_nil_r.
Qed.

(** X15.  The running count [insights_found] reported by the progress events of
    a run never decreases. *)
Theorem insights_found_nondecreasing (env : Env) (file_id : string) (w : World) :
  exists tr,
    trace (snd (generate_insights_with_progress env file_id w)) = trace w ++ tr /\
    Sorted le (found_counts tr).
Proof.
  destruct (generate_insights_account env file_id w) as (w' & Hrun & Htr & _).
  rewrite Hrun. cbn [snd]. cbv zeta in Htr.
  eexists. split; [exact Htr|].
  destruct (db_rows w !! file_id) as [file_record|] eqn:Hrow.
  2:{ unfold run_account. rewrite Hrow. cbn. constructor. }
  apply (run_account_cases env file_id (db_rows w) (commit_faults w) file_record);
    [exact Hrow| |].
  - intros e c3 c5 c6 k Hc _.
    rewrite failure_account_found, opening_found. by apply take_counts_sorted.
  - intros df c3 c5 c6 _ Hc. cbv zeta. split.
    + intros e rest _ _. cbn [acc_effects refused_account].
      rewrite found_counts_app, opening_found. cbn.
      repeat constructor; lia.
    + intros _ _. cbn [acc_effects].
      rewrite found_counts_app, opening_found. cbn.
      repeat constructor; lia.
Qed.

(* ===================================================================== *)
(** * Further properties of the analysers and of the selection *)
(* ===================================================================== *)

Lemma stage_outputs_valid (rd : Render) (df : DataFrame) :
  Forall valid_confidence (stage_outputs rd df).
Proof.
  unfold stage_outputs, valid_confidence. repeat (apply Forall_app; split).
  - eapply Forall_impl; [apply overview_confidence|].
    intros i ->. split; discriminate.
  - eapply Forall_impl; [apply statistical_confidence|].
    intros i [-> | ->]; split; discriminate.
  - eapply Forall_impl; [apply pattern_confidence|].
    intros i [H1 H2]. split.
    + apply Qlt_le_weak. eapply Qlt_trans; [|exact H1]. reflexivity.
    + eapply Qle_trans; [exact H2|]. discriminate.
  - eapply Forall_impl; [apply quality_confidence|].
    intros i [-> | ->]; split; discriminate.
Qed.

Lemma select_insights_In (st : Settings) (l : list Insight) (a : Insight) :
  In a (select_insights st l) -> In a l.
Proof.
  unfold select_insights, py_slice_to. intros Ha.
  assert (Hs : In a (sort_desc confidence (filter_confident st l))).
  { apply list_elem_of_In.
    destruct (0 <=? max_insights st)%Z;
      apply list_elem_of_In in Ha; apply elem_of_take in Ha as (i & Ha & _);
      by apply list_elem_of_lookup_2 in Ha. }
  apply list_elem_of_In in Hs. rewrite sort_desc_perm in Hs.
  apply list_elem_of_In in Hs. unfold filter_confident in Hs.
  by apply List.filter_In in Hs as [Hin _].
Qed.

(** X16.  Every insight the analysers build satisfies the constraint
    [0 <= confidence <= 1] of the model class, so building it never fails
    validation; the same holds of whatever the filter, the sort and the cut
    keep of them, for any settings. *)
Theorem stage_insights_valid (st : Settings) (rd : Render) (df : DataFrame) :
  Forall valid_confidence (stage_outputs rd df) /\
  Forall valid_confidence (select_insights st (stage_outputs rd df)).
Proof.
  pose proof (stage_outputs_valid rd df) as Hall.
  split; [exact Hall|].
  apply List.Forall_forall. intros a Ha.
  rewrite List.Forall_forall in Hall. apply Hall.
  by apply (select_insights_In st).
Qed.

(** X17.  The statistical stage speaks only of numeric columns that have a value:
    each of its insights names exactly one such column; a variability
    insight is emitted only when the standard deviation exceeds half the
    mean and lists no rows; an anomaly insight lists at most ten rows, each
    of them the row of a value outside the interquartile fences as the
    code computes them, in doubles. *)
Theorem statistical_insights_sound (rd : Render) (df : DataFrame) :
  Forall
    (fun ins =>
       exists col,
         In col (df_numeric df) /\ df_dropna df col <> [] /\
         affected_columns ins = [col] /\
         ((category ins = "statistical" /\ affected_rows ins = [] /\
           py_gt (df_std df col) (float_mul (df_mean df col) (1 # 2)) = true)
          \/
          (category ins = "anomaly" /\ (length (affected_rows ins) <= 10)%nat /\
           forall i, In i (affected_rows ins) ->
             exists v, In (i, v) (df_dropna df col) /\ outlier_of df col v)))
    (_generate_statistical_insights rd df).
Proof.
  apply List.Forall_forall. intros ins Hins.
  apply List.in_flat_map in Hins as (col & Hcol & Hins).
  exists col. split; [exact Hcol|].
  unfold statistical_for_column in Hins.
  destruct (df_dropna df col) as [|first series] eqn:Hseries; [destruct Hins|].
  split; [discriminate|].
  apply List.in_app_or in Hins as [Hins|Hins].
  - destruct (py_gt _ _) eqn:Hgt; [|destruct Hins].
    destruct Hins as [<-|[]]. split; [reflexivity|]. left. by repeat split.
  - match type of Hins with
    | In _ match ?flt with _ => _ end => destruct flt as [|o os] eqn:Hout
    end; [destruct Hins|].
    destruct Hins as [<-|[]]. split; [reflexivity|]. right.
    cbn [category affected_rows]. split; [reflexivity|]. split.
    + rewrite length_take. lia.
    + intros i Hi. apply list_elem_of_In, elem_of_take in Hi as (n & Hi & _).
      apply list_elem_of_lookup_2, list_elem_of_In in Hi.
      apply List.in_map_iff in Hi as ([i' v] & <- & Hiv).
      rewrite <- Hout in Hiv. apply List.filter_In in Hiv as [Hin Hv].
      exists v. split; [exact Hin|]. cbn [snd fst] in *.
      apply orb_true_iff in Hv as [Hv|Hv]; apply Qlt_bool_iff in Hv;
        [by left|by right].
Qed.

(** The rounding of the fences decides boundary cases.  For the values 0.1,
    0.4, 1.8, 0.5, 3.9 the quartiles are 0.4 and 1.8 and the upper fence
    comes out as 3.8999999999999995, so the stage reports row 4, although
    3.9 does not exceed the fence computed without rounding. *)
Lemma rounded_fence_flags_boundary_value (rd : Render) :
  map (fun ins => (category ins, affected_rows ins))
      (_generate_statistical_insights rd skewed_dataset)
  = [("statistical", []); ("anomaly", [4%nat])] /\
  (upper_fence skewed_dataset "v" == 4391009636686233 # 1125899906842624)%Q /\
  ~ (binary64 (18 # 10) + (15 # 10) * (binary64 (18 # 10) - binary64 (4 # 10))
     < binary64 (39 # 10))%Q.
Proof.
  split; [by vm_compute|]. split; [by vm_compute|].
  apply Qle_not_lt. by vm_compute.
Qed.

Lemma pct_above_ten (cnt total : nat) :
  (0 < total)%nat ->
  (0 <? cnt)%nat && py_gt (py_ratio_pct (Fin (of_nat cnt)) (Fin (of_nat total))) 10
  = (total <? 10 * cnt)%nat.
Proof.
  intros Htotal. unfold py_ratio_pct, py_gt.
  assert (Hpos : (0 < of_nat total)%Q).
  { unfold of_nat. change 0%Q with (inject_Z 0). rewrite <- Zlt_Qlt. lia. }
  assert (Hnz : ~ (of_nat total == 0)%Q).
  { intros E. rewrite E in Hpos. by apply Qlt_irrefl in Hpos. }
  assert (Hnzb : Qeq_bool (of_nat total) 0 = false).
  { apply not_true_iff_false. by rewrite Qeq_bool_iff. }
  rewrite Hnzb.
  assert (Hiff : Qlt_bool 10 (of_nat cnt / of_nat total * 100) = true
                 <-> (total < 10 * cnt)%nat).
  { rewrite Qlt_bool_iff.
    assert (E : (of_nat cnt / of_nat total * 100 * of_nat total
                 == 100 * of_nat cnt)%Q) by (field; exact Hnz).
    assert (Hz : (10 * of_nat total < 100 * of_nat cnt)%Q <-> (total < 10 * cnt)%nat).
    { unfold of_nat. change 10%Q with (inject_Z 10).
      change 100%Q with (inject_Z 100).
      rewrite <- !inject_Z_mult, <- Zlt_Qlt. lia. }
    rewrite <- Hz, <- E. split.
    - intros H. by apply Qmult_lt_compat_r.
    - intros H. by apply (Qmult_lt_r _ _ _ Hpos). }
  destruct (Nat.ltb_spec total (10 * cnt)) as [Hlt|Hge].
  - rewrite (proj2 Hiff Hlt), andb_true_r. apply Nat.ltb_lt. lia.
  - destruct (Qlt_bool 10 _); [|by rewrite andb_false_r].
    pose proof (proj1 Hiff eq_refl). lia.
Qed.

(** X18.  On a dataset with at least one row the quality stage returns, and
    reports, in the order of the columns, exactly the columns that miss a
    value in more than a tenth of the rows, and then, if any row repeats an
    earlier one, the duplicates. *)
Theorem quality_insights_reported (rd : Render) (df : DataFrame) :
  (0 < df_len df)%nat ->
  exists insights,
    _generate_quality_insights rd df = Ok insights /\
    map (fun ins => (title ins, affected_columns ins)) insights
    = map (fun cc => ("Missing Data in " +:+ fst cc, [fst cc]))
          (List.filter (fun cc => (df_len df <? 10 * snd cc)%nat) (df_isnull_sum df))
      ++ (if (0 <? df_duplicated_sum df)%nat
          then [("Duplicate Rows Detected", df_columns df)] else []).
Proof.
  intros Hlen.
  assert (Hcols : map (fun ins => (title ins, affected_columns ins))
                    (flat_map (fun cc => returned (quality_for_column rd (df_len df) cc))
                              (df_isnull_sum df))
                  = map (fun cc => ("Missing Data in " +:+ fst cc, [fst cc]))
                      (List.filter (fun cc => (df_len df <? 10 * snd cc)%nat)
                         (df_isnull_sum df))).
  { induction (df_isnull_sum df) as [|[col cnt] l IH]; [reflexivity|].
    cbn [flat_map List.filter]. rewrite map_app, IH.
    unfold quality_for_column at 1. cbn [fst snd].
    destruct (Nat.eqb_spec (df_len df) 0) as [E|_]; [lia|]. cbn [returned].
    rewrite pct_above_ten by exact Hlen.
    by destruct (df_len df <? 10 * cnt)%nat. }
  unfold _generate_quality_insights. rewrite quality_columns_eq.
  destruct (df_len df) as [|n] eqn:E; [lia|].
  destruct (0 <? df_duplicated_sum df)%nat; eexists; (split; [reflexivity|]).
  - by rewrite map_app, Hcols.
  - by rewrite Hcols, app_nil_r.
Qed.

Lemma quality_insights_reported_witness :
  (0 < df_len gappy_dataset)%nat /\
  exists insights,
    _generate_quality_insights sample_render gappy_dataset = Ok insights /\
    map (fun ins => (title ins, affected_columns ins)) insights
    = [("Missing Data in a", ["a"]); ("Duplicate Rows Detected", ["a"; "b"; "c"])].
Proof.
  assert (H : (0 < df_len gappy_dataset)%nat) by (simpl; lia).
  split; [exact H|].
  destruct (quality_insights_reported sample_render gappy_dataset H)
    as (insights & Hq & Hmap).
  exists insights. split; [exact Hq|]. rewrite Hmap. reflexivity.
Defined.

Section TopRanked.
Context {A : Type} (key : A -> Q).

Lemma insert_desc_top (x : A) (l : list A) :
  Forall (fun y => (key y <= key x)%Q) l -> insert_desc key x l = x :: l.
Proof.
  intros Hall. destruct l as [|y ys]; [reflexivity|].
  cbn. apply Forall_cons in Hall as [Hy _].
  apply Qlt_bool_false in Hy. by rewrite Hy.
Qed.

Lemma sort_desc_top (x : A) (l : list A) :
  Forall (fun y => (key y <= key x)%Q) l ->
  sort_desc key (x :: l) = x :: sort_desc key l.
Proof.
  intros Hall. cbn [sort_desc]. apply insert_desc_top.
  eapply Permutation_Forall; [symmetry; apply sort_desc_perm|exact Hall].
Qed.

Lemma sorted_app_desc (l k : list A) :
  StronglySorted (desc key) (l ++ k) ->
  forall a b, In a l -> In b k -> (key b <= key a)%Q.
Proof.
  induction l as [|x xs IH]; intros Hs a b Ha Hb; [destruct Ha|].
  cbn in Hs. apply StronglySorted_inv in Hs as [Hs Hall].
  destruct Ha as [<-|Ha].
  - rewrite Forall_forall in Hall. apply Hall.
    apply list_elem_of_In. apply List.in_or_app. by right.
  - by apply IH.
Qed.
End TopRanked.

(** X19.  The selection keeps the best: with a non-negative [max_insights] it
    returns as many insights as survive the threshold, up to
    [max_insights]; each of them is one of the given insights and is not
    below the threshold; and no surviving insight that was cut has a larger
    confidence than one that was kept. *)
Theorem select_insights_keeps_best (st : Settings) (insights : list Insight) :
  (0 <= max_insights st)%Z ->
  let kept := select_insights st insights in
  length kept
  = Nat.min (Z.to_nat (max_insights st))
            (length (survivors (min_confidence_score st) insights)) /\
  (forall a, In a kept ->
     In a insights /\ (min_confidence_score st <= confidence a)%Q) /\
  (exists cut,
     kept ++ cut ≡ₚ survivors (min_confidence_score st) insights /\
     forall a b, In a kept -> In b cut -> (confidence b <= confidence a)%Q).
Proof.
  intros Hmax. cbv zeta.
  set (n := Z.to_nat (max_insights st)).
  set (ranked := sort_desc confidence (survivors (min_confidence_score st) insights)).
  assert (Hsel : select_insights st insights = take n ranked).
  { unfold select_insights. rewrite py_slice_to_nonneg by exact Hmax.
    by rewrite survivors_filter_confident. }
  assert (Hperm : ranked ≡ₚ survivors (min_confidence_score st) insights)
    by apply sort_desc_perm.
  rewrite Hsel. split; [|split].
  - rewrite length_take, (Permutation_length Hperm). reflexivity.
  - intros a Ha. apply list_elem_of_In in Ha.
    apply elem_of_take in Ha as (i & Ha & _).
    apply list_elem_of_lookup_2 in Ha. rewrite Hperm in Ha.
    apply list_elem_of_In in Ha. unfold survivors in Ha.
    apply List.filter_In in Ha as [Hin Hthr]. split; [exact Hin|].
    apply negb_true_iff in Hthr. by apply Qlt_bool_false in Hthr.
  - exists (drop n ranked). split; [by rewrite take_drop|].
    apply (sorted_app_desc confidence). rewrite take_drop.
    apply sort_desc_sorted.
Qed.

Lemma select_insights_keeps_best_witness :
  (0 <= max_insights default_settings)%Z /\
  length (select_insights default_settings sample_insights)
  = Nat.min 5 (length (survivors (1 # 10) sample_insights)).
Proof.
  assert (H : (0 <= max_insights default_settings)%Z) by (simpl; lia).
  split; [exact H|].
  exact (proj1 (select_insights_keeps_best default_settings sample_insights H)).
Defined.

(** X20.  When the threshold does not exceed 0.95 and at least one insight may be
    returned, the selection over the output of the four stages starts with
    the overview of the dataset: nothing the stages produce ranks above
    it, and it was produced first. *)
Theorem overview_ranked_first (st : Settings) (rd : Render) (df : DataFrame) :
  (min_confidence_score st <= 95 # 100)%Q ->
  (1 <= max_insights st)%Z ->
  exists rest,
    _generate_overview_insights df ++ rest
    = select_insights st (stage_outputs rd df).
Proof.
  intros Hthr Hmax.
  assert (Hle : Forall (fun i => (confidence i <= 95 # 100)%Q)
                  (_generate_statistical_insights rd df
                   ++ _generate_pattern_insights rd df
                   ++ returned (_generate_quality_insights rd df))).
  { repeat (apply Forall_app; split).
    - eapply Forall_impl; [apply statistical_confidence|].
      intros i [-> | ->]; discriminate.
    - eapply Forall_impl; [apply pattern_confidence|].
      intros i [_ H]. eapply Qle_trans; [exact H|]. discriminate.
    - eapply Forall_impl; [apply quality_confidence|].
      intros i [-> | ->]; discriminate. }
  unfold select_insights, stage_outputs, _generate_overview_insights.
  cbn [app]. rewrite py_slice_to_nonneg by lia.
  unfold filter_confident. cbn [List.filter confidence].
  apply Qle_bool_iff in Hthr. rewrite Hthr.
  rewrite sort_desc_top.
  - destruct (Z.to_nat (max_insights st)) as [|n] eqn:E; [lia|].
    cbn [take]. by eexists.
  - cbn [confidence]. apply List.Forall_forall. intros y Hy.
    apply List.filter_In in Hy as [Hy _].
    rewrite List.Forall_forall in Hle. by apply Hle.
Qed.

Lemma overview_ranked_first_witness :
  (min_confidence_score default_settings <= 95 # 100)%Q /\
  (1 <= max_insights default_settings)%Z /\
  exists rest,
    _generate_overview_insights sample_dataset ++ rest
    = select_insights default_settings (stage_outputs sample_render sample_dataset).
Proof.
  assert (H1 : (min_confidence_score default_settings <= 95 # 100)%Q)
    by (vm_compute; discriminate).
  assert (H2 : (1 <= max_insights default_settings)%Z) by (simpl; lia).
  split; [exact H1|]. split; [exact H2|].
  exact (overview_ranked_first default_settings sample_render sample_dataset H1 H2).
Defined.

(* ===================================================================== *)
(** * The record service and the insights endpoint *)
(* ===================================================================== *)

(** X21.  [update_processing_status], in a session that wants no rollback: for
    an unknown identifier it raises [File not found: <id>] and no row
    changes; for a known one it commits the record with the new status and
    every other field, the insights included, as it was, unless the commit
    raises, in which case no row changes either.  In a session that wants a
    rollback it raises the session's refusal and no row changes.  It never
    broadcasts. *)
Theorem update_processing_status_effect (file_id status : string) (w : World) :
  let out := update_processing_status file_id status w in
  messages_of (trace (snd out)) = messages_of (trace w) /\
  match needs_rollback w with
  | Some e0 =>
      fst out = Raise (pending_rollback_error e0) /\
      db_rows (snd out) = db_rows w
  | None =>
      match db_rows w !! file_id with
      | None =>
          fst out = Raise ("File not found: " +:+ file_id) /\
          db_rows (snd out) = db_rows w
      | Some r =>
          match commit_faults w with
          | Some e :: _ => fst out = Raise e /\ db_rows (snd out) = db_rows w
          | _ =>
              fst out = Ok tt /\
              db_rows (snd out)
              = <[id r := with_processing_status status r]> (db_rows w) /\
              insights (with_processing_status status r) = insights r /\
              same_file r (with_processing_status status r)
          end
      end
  end.
Proof.
  cbv zeta. unfold update_processing_status, get_file_record, bind, db_get,
    set_attr, update_world, db_commit, raise, ret.
  destruct (needs_rollback w) as [e0|] eqn:Hn; [by cbn|].
  cbn [fst snd db_rows needs_rollback set_session].
  destruct (db_rows w !! file_id) as [r|] eqn:Hrow; [|by cbn].
  cbn [fst snd needs_rollback set_session]. rewrite Hn.
  cbn. destruct (commit_faults w) as [|[e|] rest]; cbn;
    rewrite messages_of_app; cbn; rewrite app_nil_r; by repeat split.
Qed.

Lemma update_processing_status_ok (file_id status : string) (w : World)
    (r : FileRecord) :
  db_rows w !! file_id = Some r ->
  first_commit_ok (commit_faults w) ->
  needs_rollback w = None ->
  exists w',
    update_processing_status file_id status w = (Ok tt, w') /\
    db_rows w' = <[id r := with_processing_status status r]> (db_rows w).
Proof.
  intros Hrow Hok Hn.
  unfold update_processing_status, get_file_record, bind, db_get, set_attr,
    update_world, db_commit, raise, ret.
  rewrite Hn. cbn [fst snd db_rows]. rewrite Hrow.
  cbn [fst snd needs_rollback set_session]. rewrite Hn. cbn.
  destruct (commit_faults w) as [|[e|] rest]; [|done|]; by eexists.
Qed.

Lemma update_processing_status_refused (file_id status e0 : string) (w : World) :
  needs_rollback w = Some e0 ->
  update_processing_status file_id status w = (Raise (pending_rollback_error e0), w).
Proof.
  intros Hn.
  unfold update_processing_status, get_file_record, bind, db_get.
  by rewrite Hn.
Qed.

Lemma valid_confidenceb_iff (i : Insight) :
  valid_confidenceb i = true <-> valid_confidence i.
Proof.
  unfold valid_confidenceb, valid_confidence.
  rewrite andb_true_iff, !Qle_bool_iff. reflexivity.
Qed.

Lemma find_invalid_None (l : list Insight) :
  List.find (fun x => negb (valid_confidenceb x)) l = None
  <-> Forall valid_confidence l.
Proof.
  induction l as [|a l IH]; cbn.
  - split; [constructor|done].
  - destruct (valid_confidenceb a) eqn:Ha; cbn.
    + rewrite IH. split.
      * intros Hl. constructor; [by apply valid_confidenceb_iff|exact Hl].
      * by inversion 1.
    + split; [done|]. inversion 1 as [|? ? Hv]; subst.
      apply valid_confidenceb_iff in Hv. congruence.
Qed.

(** What [get_insights] answers, and what it leaves behind. *)
Lemma get_insights_eq (validation_error : Insight -> string)
    (query_fault : option string) (file_id : string) (w : World) :
  exists w',
    get_insights validation_error query_fault file_id w
    = (Ok match query_fault with
          | Some e => internal_server_error e
          | None =>
              match db_rows w !! file_id with
              | None => http_exception 404 ("File not found: " +:+ file_id)
              | Some r =>
                  status_answer validation_error file_id
                    (processing_status r) (insights r)
              end
          end, w') /\
    db_rows w' = db_rows w /\ trace w' = trace w /\
    active_connections w' = active_connections w /\ delivered w' = delivered w /\
    session w' = None /\ needs_rollback w' = None.
Proof.
  unfold get_insights, status_answer, completed_answer, internal_server_error,
    open_session, try_finally, try_except, get_file_record, db_get, db_close,
    update_world, raise, ret.
  unfold bind at 1.
  destruct query_fault as [e|]; [eexists; split; [reflexivity|by cbn]|].
  unfold bind. cbn [needs_rollback set_needs_rollback db_rows set_session].
  destruct (db_rows w !! file_id) as [r|];
    [|eexists; split; [reflexivity|by cbn]].
  cbv beta iota.
  repeat (destruct (String.eqb (processing_status r) _);
          [eexists; split; [reflexivity|by cbn]|]).
  destruct (String.eqb (processing_status r) "completed");
    [|eexists; split; [reflexivity|by cbn]].
  destruct (insights r) as [[|i l]|];
    [eexists; split; [reflexivity|by cbn]| |eexists; split; [reflexivity|by cbn]].
  destruct (List.find _ (i :: l)); eexists; (split; [reflexivity|by cbn]).
Qed.

(** X22.  [get_insights] always answers and changes neither rows, trace,
    registry nor deliveries.  It answers with insights only when the query
    succeeds and finds a record whose status is [completed] and whose
    stored insights are not empty and all pass validation, and then with
    exactly the stored list and its length; the insights of a record in any
    other status are never shown.  It answers status 500, with the text of
    the exception, exactly when the query raises; and status 404 exactly
    when the query succeeds and either finds no record or finds one marked
    [completed] one of whose stored insights fails validation. *)
Theorem get_insights_gated (validation_error : Insight -> string)
    (query_fault : option string) (file_id : string) (w : World) :
  exists answer w',
    get_insights validation_error query_fault file_id w = (Ok answer, w') /\
    db_rows w' = db_rows w /\ trace w' = trace w /\
    active_connections w' = active_connections w /\ delivered w' = delivered w /\
    session w' = None /\
    (forall f l t n,
       answer = insight_answer f l t n <->
       query_fault = None /\
       exists r,
         db_rows w !! file_id = Some r /\ processing_status r = "completed" /\
         insights r = Some l /\ l <> [] /\ Forall valid_confidence l /\
         f = file_id /\ t = 0%Q /\ n = length l) /\
    (forall code detail,
       answer = http_exception code detail ->
       (code = 500%nat /\
        exists e, query_fault = Some e /\ detail = "Internal server error: " +:+ e)
       \/
       (code = 404%nat /\ query_fault = None /\
        (db_rows w !! file_id = None \/
         exists r l,
           db_rows w !! file_id = Some r /\ processing_status r = "completed" /\
           insights r = Some l /\ ~ Forall valid_confidence l))) /\
    (forall e, query_fault = Some e -> answer = internal_server_error e) /\
    (query_fault = None -> db_rows w !! file_id = None ->
     answer = http_exception 404 ("File not found: " +:+ file_id)) /\
    (query_fault = None ->
     forall r l,
       db_rows w !! file_id = Some r -> processing_status r = "completed" ->
       insights r = Some l -> ~ Forall valid_confidence l ->
       exists bad,
         In bad l /\ ~ valid_confidence bad /\
         answer = http_exception 404 (validation_error bad)).
Proof.
  destruct (get_insights_eq validation_error query_fault file_id w)
    as (w' & Hrun & Hdb & Htr & Hac & Hde & Hse & _).
  eexists _, w'. split; [exact Hrun|].
  do 5 (split; [assumption|]). clear Hrun Hdb Htr Hac Hde Hse w'.
  destruct query_fault as [e0|].
  { unfold internal_server_error. split; [|split; [|split; [|split]]].
    - intros f l t n. split; [discriminate|]. by intros [? _].
    - intros code detail [= <- <-]. left. split; [reflexivity|]. by exists e0.
    - by intros e [= <-].
    - discriminate.
    - discriminate. }
  destruct (db_rows w !! file_id) as [r|] eqn:Hrow.
  - unfold status_answer. split; [|split; [|split; [discriminate|split; [done|]]]].
    + intros f l t n. split.
      * intros Hanswer. split; [reflexivity|]. exists r. split; [reflexivity|].
        destruct (String.eqb (processing_status r) "uploaded"); [discriminate|].
        destruct (String.eqb (processing_status r) "processing"); [discriminate|].
        destruct (String.eqb (processing_status r) "failed"); [discriminate|].
        destruct (String.eqb_spec (processing_status r) "completed") as [Hc|];
          [|discriminate].
        unfold completed_answer in Hanswer.
        destruct (insights r) as [[|i l']|]; try discriminate.
        destruct (List.find _ (i :: l')) eqn:Hfind; [discriminate|].
        apply find_invalid_None in Hfind.
        injection Hanswer as <- <- <- <-. by repeat split.
      * intros (_ & r' & [= <-] & Hc & Hins & Hne & Hvalid & -> & -> & ->).
        rewrite Hc, Hins. cbn [String.eqb Ascii.eqb Bool.eqb].
        unfold completed_answer. destruct l as [|i l]; [done|].
        apply find_invalid_None in Hvalid. by rewrite Hvalid.
    + intros code detail Hanswer. right.
      destruct (String.eqb (processing_status r) "uploaded"); [discriminate|].
      destruct (String.eqb (processing_status r) "processing"); [discriminate|].
      destruct (String.eqb (processing_status r) "failed"); [discriminate|].
      destruct (String.eqb_spec (processing_status r) "completed") as [Hc|];
        [|discriminate].
      unfold completed_answer in Hanswer.
      destruct (insights r) as [[|i l']|] eqn:Hins; try discriminate.
      destruct (List.find _ (i :: l')) eqn:Hfind; [|discriminate].
      injection Hanswer as <- _. split; [reflexivity|]. split; [reflexivity|].
      right. exists r, (i :: l'). repeat split; try done.
      intros Hvalid. apply find_invalid_None in Hvalid. congruence.
    + intros _ r' l [= <-] Hc Hins Hinvalid. rewrite Hc, Hins.
      cbn [String.eqb Ascii.eqb Bool.eqb]. unfold completed_answer.
      destruct l as [|i l]; [by destruct Hinvalid|].
      destruct (List.find _ (i :: l)) as [bad|] eqn:Hfind.
      * apply List.find_some in Hfind as [Hin Hbad]. exists bad.
        split; [exact Hin|]. split; [|reflexivity].
        intros Hv. apply valid_confidenceb_iff in Hv. by rewrite Hv in Hbad.
      * by apply find_invalid_None in Hfind.
  - split; [|split; [|split; [discriminate|split; [done|discriminate]]]].
    + intros f l t n. split; [discriminate|]. by intros (_ & r & Hr & _).
    + intros code detail [= <- _]. right. split; [reflexivity|].
      split; [reflexivity|by left].
Qed.

(** X23.  What a client reads after a status update in a session with no
    commit refused: status 500 if the endpoint's query raises; otherwise,
    for the statuses [uploaded], [processing] and [failed] a plain message,
    whatever insights the record holds; for [completed] what the stored
    insights give; for any other status nothing at all.  (In a session that
    wants a rollback the update changes nothing, and the client reads what
    the record's own status gives.) *)
Theorem get_insights_after_status_update (validation_error : Insight -> string)
    (query_fault : option string) (file_id status : string) (w : World)
    (r : FileRecord) :
  db_rows w !! file_id = Some r ->
  id r = file_id ->
  first_commit_ok (commit_faults w) ->
  fst (get_insights validation_error query_fault file_id
         (snd (update_processing_status file_id status w)))
  = Ok match query_fault with
       | Some e => internal_server_error e
       | None =>
           status_answer validation_error file_id
             (match needs_rollback w with
              | None => status
              | Some _ => processing_status r
              end)
             (insights r)
       end.
Proof.
  intros Hrow Hid Hok.
  destruct (needs_rollback w) as [e0|] eqn:Hn.
  - rewrite (update_processing_status_refused file_id status e0 w Hn). cbn [snd].
    destruct (get_insights_eq validation_error query_fault file_id w)
      as (w' & Hrun & _).
    rewrite Hrun. cbn [fst]. by rewrite Hrow.
  - destruct (update_processing_status_ok file_id status w r Hrow Hok Hn)
      as (w1 & Hrun & Hdb).
    rewrite Hrun. cbn [snd].
    destruct (get_insights_eq validation_error query_fault file_id w1)
      as (w' & Hget & _).
    rewrite Hget. cbn [fst]. by rewrite Hdb, Hid, lookup_insert_eq.
Qed.

Lemma get_insights_after_status_update_witness :
  fst (get_insights sample_validation_error None "file-1"
         (snd (update_processing_status "file-1" "processing" analysed_world)))
  = Ok (message_answer "Processing in progress" "processing").
Proof.
  exact (get_insights_after_status_update sample_validation_error None "file-1"
           "processing" analysed_world analysed_record eq_refl eq_refl I).
Defined.

(** X24.  What a client reads after a run over an existing record whose commit is
    not refused: status 500 if the endpoint's query raises; otherwise, after
    a failure the message [Processing failed], also when the record still
    holds insights; after a run without failure the list the run returned
    with its length, or [No insights generated] when that list is empty.
    What a run stores always passes the validation of the endpoint. *)
Theorem get_insights_after_run (validation_error : Insight -> string)
    (query_fault : option string) (env : Env) (file_id : string) (w : World)
    (file_record : FileRecord) :
  db_rows w !! file_id = Some file_record ->
  id file_record = file_id ->
  first_commit_ok (commit_faults w) ->
  exists result w',
    generate_insights_with_progress env file_id w = (Ok result, w') /\
    fst (get_insights validation_error query_fault file_id w')
    = Ok match query_fault with
         | Some e => internal_server_error e
         | None =>
             match first_failure env file_record (commit_faults w) with
             | Some _ => message_answer "Processing failed" "failed"
             | None =>
                 match result with
                 | [] => message_answer "No insights generated" "completed"
                 | _ => insight_answer file_id result 0 (length result)
                 end
             end
         end.
Proof.
  intros Hrow Hid Hok.
  destruct (generate_insights_account env file_id w)
    as (w' & Hrun & _ & Hdb & _).
  cbv zeta in *. eexists _, w'. split; [exact Hrun|].
  destruct (get_insights_eq validation_error query_fault file_id w')
    as (w2 & Hget & _).
  rewrite Hget. cbn [fst]. f_equal.
  destruct query_fault as [e0|]; [reflexivity|].
  rewrite Hdb. clear Hrun Hdb Hget w2.
  apply (run_account_cases env file_id (db_rows w) (commit_faults w) file_record);
    [exact Hrow| |].
  - intros e c3 c5 c6 k _ ->. unfold failure_account.
    destruct (commit_faults w) as [|[e'|] rest]; [|done|];
      cbn [acc_rows acc_result id with_processing_status];
      by rewrite Hid, lookup_insert_eq.
  - intros df c3 c5 c6 _ _. cbv zeta. split.
    + intros e rest Hf. by rewrite Hf in Hok.
    + intros _ ->. cbn [acc_rows acc_result]. unfold completed_record.
      cbn [id with_processing_status with_insights].
      rewrite Hid, lookup_insert_eq.
      assert (Hvalid : Forall valid_confidence
                (select_insights (settings env) (stage_outputs (render env) df))).
      { apply List.Forall_forall. intros a Ha. apply select_insights_In in Ha.
        pose proof (stage_outputs_valid (render env) df) as Hall.
        rewrite List.Forall_forall in Hall. by apply Hall. }
      apply find_invalid_None in Hvalid. revert Hvalid.
      generalize (select_insights (settings env) (stage_outputs (render env) df)).
      intros [|i l] Hvalid; [reflexivity|].
      unfold status_answer, completed_answer.
      cbn -[List.find length]. by rewrite Hvalid.
Qed.

Lemma get_insights_after_run_witness :
  fst (get_insights sample_validation_error None "file-1"
         (snd (generate_insights_with_progress unreadable_env "file-1"
                 retriggered_world)))
  = Ok (message_answer "Processing failed" "failed").
Proof.
  destruct (get_insights_after_run sample_validation_error None unreadable_env
              "file-1" retriggered_world
              (with_processing_status "processing" analysed_record)
              eq_refl eq_refl I)
    as (result & w' & Hrun & Hanswer).
  rewrite Hrun. exact Hanswer.
Defined.

(* ===================================================================== *)
(** * The run and its account *)
(* ===================================================================== *)

(** X3.  Whatever the hub holds, a run returns normally, and its result, the
    effects it adds to the trace, the rows and pending commit outcomes it
    leaves and the closed session are those of [run_account], which is
    computed from the rows, the commit outcomes and the surroundings
    alone. *)
Theorem run_follows_account (env : Env) (file_id : string) (w : World) :
  let a := run_account env file_id (db_rows w) (commit_faults w) in
  let out := generate_insights_with_progress env file_id w in
  fst out = Ok (acc_result a) /\
  trace (snd out) = trace w ++ acc_effects a /\
  db_rows (snd out) = acc_rows a /\
  commit_faults (snd out) = acc_faults a /\
  session (snd out) = None.
Proof.
  cbv zeta.
  destruct (generate_insights_account env file_id w)
    as (w' & Hrun & Htr & Hdb & Hfaults & Hsession).
  cbv zeta in Hrun, Htr, Hdb, Hfaults. rewrite Hrun. cbn [fst snd].
  by repeat split.
Qed.

(** Nothing fails before the commit of the results: the dataset is read,
    no stage raises. *)
Lemma first_failure_before_commit (env : Env) (file_record : FileRecord) :
  first_failure env file_record [] = None ->
  exists df quality,
    read_dataset env (filepath file_record) = inr df /\
    (forall s, stage_fault env s = None) /\
    _generate_quality_insights (render env) df = Ok quality.
Proof.
  unfold first_failure. intros H.
  destruct (read_dataset env (filepath file_record)) as [e|df]; [discriminate|].
  destruct (stage_fault env Overview) eqn:E1; [discriminate|].
  destruct (stage_fault env Statistical) eqn:E2; [discriminate|].
  destruct (stage_fault env Pattern) eqn:E3; [discriminate|].
  destruct (stage_fault env Quality) eqn:E4; [discriminate|].
  destruct (_generate_quality_insights (render env) df) as [quality|e] eqn:Eq;
    [|discriminate].
  exists df, quality. split; [reflexivity|]. split; [|exact Eq].
  by intros [].
Qed.

(** X25.  When the commit of the results raises, nothing is ever written: the
    session refuses the handler's commit of status [failed] as well, the
    refusal is ignored, and every row, the record's own included, is as it
    was before the run; the run returns the empty list and its last effect
    is the [failed] broadcast with the text of the first error. *)
Theorem refused_commit_writes_nothing (env : Env) (file_id e : string)
    (rest : list (option string)) (w : World) (file_record : FileRecord) :
  db_rows w !! file_id = Some file_record ->
  first_failure env file_record [] = None ->
  commit_faults w = Some e :: rest ->
  exists w' pre,
    generate_insights_with_progress env file_id w = (Ok [], w') /\
    trace w' = trace w ++ pre
               ++ [ECommitFailed e;
                   ECommitFailed (pending_rollback_error e);
                   EBroadcast file_id (failed_message file_id e)] /\
    Forall quiet pre /\ progress_steps pre = step_numbers /\
    db_rows w' = db_rows w /\
    commit_faults w' = rest.
Proof.
  intros Hrow Hnone Hfaults.
  destruct (first_failure_before_commit env file_record Hnone)
    as (df & quality & Hread & Hstage & Hq).
  destruct (generate_insights_account env file_id w)
    as (w' & Hrun & Htr & Hdb & Hcf & _).
  cbv zeta in *. revert Hrun Htr Hdb Hcf.
  unfold run_account. rewrite Hrow, Hread, !Hstage, Hq, Hfaults.
  cbn [refused_account acc_result acc_effects acc_rows acc_faults].
  intros Hrun Htr Hdb Hcf. eexists w', _.
  split; [exact Hrun|]. split; [exact Htr|].
  split; [apply opening_quiet|]. split; [apply (opening_progress _ _ _ _ 7)|].
  by split.
Qed.

Lemma refused_commit_writes_nothing_witness :
  db_rows (snd (generate_insights_with_progress sample_env "file-1" refusing_world))
  = db_rows refusing_world.
Proof.
  destruct (refused_commit_writes_nothing sample_env "file-1" "database is locked"
              [] refusing_world processing_record eq_refl eq_refl eq_refl)
    as (w' & pre & Hrun & _ & _ & _ & Hdb & _).
  rewrite Hrun. exact Hdb.
Defined.

(** X26.  A dataset with columns and no rows makes the quality stage raise a
    division by zero, so a run over it, all the other stages having
    returned, fails after its seventh progress event: it returns the empty
    list and tells the subscribers that the analysis failed with that
    error. *)
Theorem empty_frame_fails_run (env : Env) (file_id : string) (w : World)
    (file_record : FileRecord) (df : DataFrame) :
  db_rows w !! file_id = Some file_record ->
  read_dataset env (filepath file_record) = inr df ->
  (forall s, stage_fault env s = None) ->
  df_len df = 0%nat ->
  df_isnull_sum df <> [] ->
  _generate_quality_insights (render env) df = Raise "division by zero" /\
  first_failure env file_record (commit_faults w) = Some "division by zero" /\
  exists w' pre attempt,
    generate_insights_with_progress env file_id w = (Ok [], w') /\
    trace w' = trace w ++ pre
               ++ [attempt;
                   EBroadcast file_id (failed_message file_id "division by zero")] /\
    progress_steps pre = step_numbers /\
    is_commit_attempt attempt = true /\
    marks_failure (db_rows w) (db_rows w') attempt.
Proof.
  intros Hrow Hread Hstage Hlen Hcols.
  assert (Hq : _generate_quality_insights (render env) df = Raise "division by zero").
  { unfold _generate_quality_insights. rewrite quality_columns_eq, Hlen.
    by destruct (df_isnull_sum df). }
  split; [exact Hq|].
  assert (Hfirst : first_failure env file_record (commit_faults w)
                   = Some "division by zero").
  { unfold first_failure. by rewrite Hread, !Hstage, Hq. }
  split; [exact Hfirst|].
  destruct (generate_insights_account env file_id w)
    as (w' & Hrun & Htr & Hdb & _).
  cbv zeta in *. revert Hrun Htr Hdb.
  unfold run_account. rewrite Hrow, Hread, !Hstage, Hq. unfold failure_account.
  destruct (commit_faults w) as [|[e'|] rest];
    cbn [acc_result acc_effects acc_rows]; intros Hrun Htr Hdb;
    eexists w', _, _; (split; [exact Hrun|]); (split; [exact Htr|]);
    (split; [apply (opening_progress _ _ _ _ 7)|]); (split; [reflexivity|]);
    by rewrite Hdb.
Qed.

Lemma empty_frame_fails_run_witness :
  fst (generate_insights_with_progress header_only_env "file-1" triggered_world)
  = Ok [] /\
  first_failure header_only_env processing_record [] = Some "division by zero".
Proof.
  destruct (empty_frame_fails_run header_only_env "file-1" triggered_world
              processing_record header_only_dataset eq_refl eq_refl
              (fun _ => eq_refl) eq_refl ltac:(discriminate))
    as (_ & Hfirst & w' & pre & attempt & Hrun & _).
  split; [by rewrite Hrun|exact Hfirst].
Defined.
